(** * Early Bird: the deduplication and relevance-filter core

    A shallow embedding of [src/models/article.py],
    [src/processors/deduplicator.py] and [src/processors/filter.py],
    followed by the properties claimed about them.

    Conventions of the embedding.
    - A Python [str] is a Rocq [string]; its characters are the code
      points 0..255 (Latin-1), and the character tables below are those
      of CPython on that range.
    - A Python [float] score is an exact rational ([Q]).  Keyword counts
      and the reputation table are small dyadic numbers, so the only
      operation of the source that could round is the multiplication by
      the configured recency weight.
    - A naive [datetime] is its number of microseconds on the wall clock;
      an aware one also carries its UTC offset.  A [timedelta] is a number
      of microseconds.
    - Library functions ([hashlib.md5], [Levenshtein.ratio], [re.search]
      on the one pattern shape the program builds) are written out from
      their published definitions. *)

From Stdlib Require Import ZArith QArith Ascii String List Bool Lia Lqa.
From Stdlib Require Import Sorting Permutation DecimalString.
From stdpp Require Import gmap strings list fin_maps.

Local Open Scope Z_scope.

(* ====================================================================== *)
(** ** Python strings *)
(* ====================================================================== *)

Module PyStr.

Definition code (c : ascii) : Z := Z.of_N (N_of_ascii c).
Definition chr (z : Z) : ascii := ascii_of_N (Z.to_N z).

Definition between (lo hi : Z) (c : ascii) : bool :=
  (lo <=? code c) && (code c <=? hi).

(** [str.lower] on one character: A-Z, and the Latin-1 capitals
    U+00C0..U+00DE except the multiplication sign U+00D7. *)
Definition lower_char (c : ascii) : ascii :=
  if between 65 90 c || (between 192 222 c && negb (code c =? 215))
  then chr (code c + 32) else c.

(** [str.isspace] (what [str.strip()] removes). *)
Definition is_space (c : ascii) : bool :=
  between 9 13 c || between 28 32 c || (code c =? 133) || (code c =? 160).

(** The class [\w] of [re] on [str] patterns: alphanumeric or underscore. *)
Definition is_word (c : ascii) : bool :=
  between 48 57 c || between 65 90 c || (code c =? 95) || between 97 122 c
  || (code c =? 170) || (code c =? 178) || (code c =? 179) || (code c =? 181)
  || (code c =? 185) || (code c =? 186) || between 188 190 c
  || between 192 214 c || between 216 246 c || between 248 255 c.

Definition chars (s : string) : list ascii := list_ascii_of_string s.
Definition str (l : list ascii) : string := string_of_list_ascii l.

Definition lower (s : string) : string := str (map lower_char (chars s)).

Fixpoint lstrip_chars (l : list ascii) : list ascii :=
  match l with
  | c :: l' => if is_space c then lstrip_chars l' else l
  | [] => []
  end.

Definition strip_chars (l : list ascii) : list ascii :=
  rev (lstrip_chars (rev (lstrip_chars l))).

Definition strip (s : string) : string := str (strip_chars (chars s)).

(** [s.startswith(p)] *)
Fixpoint prefix_chars (p l : list ascii) : bool :=
  match p, l with
  | [], _ => true
  | a :: p', b :: l' => bool_decide (a = b) && prefix_chars p' l'
  | _ :: _, [] => false
  end.

Definition startswith (s p : string) : bool := prefix_chars (chars p) (chars s).

(** [p in s] on strings: [p] occurs as a contiguous substring. *)
Fixpoint contains_chars (p l : list ascii) : bool :=
  prefix_chars p l ||
  match l with
  | [] => false
  | _ :: l' => contains_chars p l'
  end.

Definition contains (s p : string) : bool := contains_chars (chars p) (chars s).

(** [s.encode('utf-8')] for code points below 256: one byte below 128,
    two bytes from 128 on. *)
Definition utf8_char (c : ascii) : list Z :=
  if code c <? 128 then [code c]
  else [Z.lor 192 (Z.shiftr (code c) 6); Z.lor 128 (Z.land (code c) 63)].

Definition encode_utf8 (s : string) : list Z := flat_map utf8_char (chars s).

(** Truthiness of a string: [not s] holds of the empty string only. *)
Definition truthy (s : string) : bool :=
  match s with EmptyString => false | String _ _ => true end.

End PyStr.

(* ====================================================================== *)
(** ** [hashlib.md5(...).hexdigest()] (RFC 1321) *)
(* ====================================================================== *)

Module hashlib.

Definition w32 (x : Z) : Z := x mod 4294967296.

Definition rotl (x c : Z) : Z :=
  w32 (Z.lor (Z.shiftl x c) (Z.shiftr x (32 - c))).

Definition shifts : list Z :=
  [7; 12; 17; 22; 7; 12; 17; 22; 7; 12; 17; 22; 7; 12; 17; 22;
   5;  9; 14; 20; 5;  9; 14; 20; 5;  9; 14; 20; 5;  9; 14; 20;
   4; 11; 16; 23; 4; 11; 16; 23; 4; 11; 16; 23; 4; 11; 16; 23;
   6; 10; 15; 21; 6; 10; 15; 21; 6; 10; 15; 21; 6; 10; 15; 21].

Definition sines : list Z :=
  [0xd76aa478; 0xe8c7b756; 0x242070db; 0xc1bdceee;
   0xf57c0faf; 0x4787c62a; 0xa8304613; 0xfd469501;
   0x698098d8; 0x8b44f7af; 0xffff5bb1; 0x895cd7be;
   0x6b901122; 0xfd987193; 0xa679438e; 0x49b40821;
   0xf61e2562; 0xc040b340; 0x265e5a51; 0xe9b6c7aa;
   0xd62f105d; 0x02441453; 0xd8a1e681; 0xe7d3fbc8;
   0x21e1cde6; 0xc33707d6; 0xf4d50d87; 0x455a14ed;
   0xa9e3e905; 0xfcefa3f8; 0x676f02d9; 0x8d2a4c8a;
   0xfffa3942; 0x8771f681; 0x6d9d6122; 0xfde5380c;
   0xa4beea44; 0x4bdecfa9; 0xf6bb4b60; 0xbebfbc70;
   0x289b7ec6; 0xeaa127fa; 0xd4ef3085; 0x04881d05;
   0xd9d4d039; 0xe6db99e5; 0x1fa27cf8; 0xc4ac5665;
   0xf4292244; 0x432aff97; 0xab9423a7; 0xfc93a039;
   0x655b59c3; 0x8f0ccc92; 0xffeff47d; 0x85845dd1;
   0x6fa87e4f; 0xfe2ce6e0; 0xa3014314; 0x4e0811a1;
   0xf7537e82; 0xbd3af235; 0x2ad7d2bb; 0xeb86d391].

(** Little-endian bytes of a word, and back. *)
Fixpoint le_bytes (n : nat) (x : Z) : list Z :=
  match n with
  | O => []
  | S n' => (x mod 256) :: le_bytes n' (x / 256)
  end.

Fixpoint le_word (bs : list Z) : Z :=
  match bs with
  | [] => 0
  | b :: bs' => b + 256 * le_word bs'
  end.

(** Padding: a 1 bit, zeros up to 56 mod 64, then the bit length on 64 bits. *)
Definition pad (msg : list Z) : list Z :=
  let len := Z.of_nat (length msg) in
  let zeros := Z.to_nat ((55 - len) mod 64) in
  msg ++ [128] ++ repeat 0 zeros ++ le_bytes 8 ((8 * len) mod 2 ^ 64).

Fixpoint words (n : nat) (bs : list Z) : list Z :=
  match n with
  | O => []
  | S n' => le_word (firstn 4 bs) :: words n' (skipn 4 bs)
  end.

Definition lnot32 (x : Z) : Z := 4294967295 - x.

Definition round (M : list Z) (st : Z * Z * Z * Z) (i : Z) : Z * Z * Z * Z :=
  let '(a, b, c, d) := st in
  let '(f, g) :=
    if i <? 16 then (Z.lor (Z.land b c) (Z.land (lnot32 b) d), i)
    else if i <? 32 then (Z.lor (Z.land d b) (Z.land (lnot32 d) c), (5 * i + 1) mod 16)
    else if i <? 48 then (Z.lxor (Z.lxor b c) d, (3 * i + 5) mod 16)
    else (Z.lxor c (Z.lor b (lnot32 d)), (7 * i) mod 16) in
  let f' := w32 (f + a + nth (Z.to_nat i) sines 0 + nth (Z.to_nat g) M 0) in
  (d, w32 (b + rotl f' (nth (Z.to_nat i) shifts 0)), b, c).

Definition block (st : Z * Z * Z * Z) (bs : list Z) : Z * Z * Z * Z :=
  let M := words 16 bs in
  let '(a0, b0, c0, d0) := st in
  let '(a, b, c, d) := fold_left (round M) (map Z.of_nat (seq 0 64)) st in
  (w32 (a0 + a), w32 (b0 + b), w32 (c0 + c), w32 (d0 + d)).

Fixpoint blocks (n : nat) (st : Z * Z * Z * Z) (bs : list Z) : Z * Z * Z * Z :=
  match n with
  | O => st
  | S n' => blocks n' (block st (firstn 64 bs)) (skipn 64 bs)
  end.

Definition digest (msg : list Z) : list Z :=
  let p := pad msg in
  let '(a, b, c, d) :=
    blocks (length p / 64)%nat (0x67452301, 0xefcdab89, 0x98badcfe, 0x10325476) p in
  le_bytes 4 a ++ le_bytes 4 b ++ le_bytes 4 c ++ le_bytes 4 d.

Definition hex_digit (z : Z) : ascii :=
  if z <? 10 then PyStr.chr (48 + z) else PyStr.chr (87 + z).

Definition hex_byte (b : Z) : list ascii := [hex_digit (b / 16); hex_digit (b mod 16)].

Definition md5_hexdigest (msg : list Z) : string :=
  PyStr.str (flat_map hex_byte (digest msg)).

End hashlib.

(* ====================================================================== *)
(** ** [Levenshtein.ratio]: the normalised insertion/deletion similarity *)
(* ====================================================================== *)

Module Levenshtein.

(** One row of the edit-distance table.  [diag] and [left] are the cells
    to the upper left and to the left of the cell being filled, [up_row]
    the rest of the previous row.  Only insertions and deletions have
    cost 1 (a substitution costs 2, never better than both). *)
Fixpoint next_row (c : ascii) (s2 : list ascii) (diag left : nat)
    (up_row : list nat) : list nat :=
  match s2, up_row with
  | d :: s2', up :: row' =>
      let v := if bool_decide (c = d) then diag else S (Nat.min left up) in
      v :: next_row c s2' up v row'
  | _, _ => []
  end.

Fixpoint table (s1 s2 : list ascii) (i : nat) (row : list nat) : nat :=
  match s1 with
  | [] => List.last row i
  | c :: s1' => table s1' s2 (S i) (next_row c s2 i (S i) row)
  end.

Definition indel_distance (s1 s2 : list ascii) : nat :=
  table s1 s2 0 (seq 1 (length s2)).

(** [ratio(s1, s2) = 1 - distance / (len(s1) + len(s2))], and 1.0 for two
    empty strings. *)
Definition ratio (s1 s2 : string) : Q :=
  let l1 := PyStr.chars s1 in
  let l2 := PyStr.chars s2 in
  let lensum := Z.of_nat (length l1 + length l2) in
  if lensum =? 0 then 1%Q
  else (1 - inject_Z (Z.of_nat (indel_distance l1 l2)) / inject_Z lensum)%Q.

End Levenshtein.

(* ====================================================================== *)
(** ** [re.search(r'\b' + re.escape(keyword) + r'\b', text)] *)
(* ====================================================================== *)

Module re.

Definition is_word_at (c : option ascii) : bool :=
  match c with Some c => PyStr.is_word c | None => false end.

(** [\b] between the character before the position ([None] at the start
    of the text) and the character after it ([None] at the end). *)
Definition boundary (prev next : option ascii) : bool :=
  xorb (is_word_at prev) (is_word_at next).

(** The escaped keyword read literally from the current position, then
    the closing [\b]. *)
Fixpoint match_here (kw l : list ascii) (prev : option ascii) : bool :=
  match kw with
  | [] => boundary prev (head l)
  | k :: kw' =>
      match l with
      | c :: l' => bool_decide (k = c) && match_here kw' l' (Some c)
      | [] => false
      end
  end.

(** [search] tries every start position from left to right. *)
Fixpoint search_from (kw l : list ascii) (prev : option ascii) : bool :=
  (boundary prev (head l) && match_here kw l prev) ||
  match l with
  | [] => false
  | c :: l' => search_from kw l' (Some c)
  end.

(** Whether the search returns a match object. *)
Definition search_word (keyword text : string) : bool :=
  search_from (PyStr.chars keyword) (PyStr.chars text) None.

End re.

(* ====================================================================== *)
(** ** Time *)
(* ====================================================================== *)

(** A [datetime]: microseconds shown by the wall clock, and the UTC offset
    (in microseconds) when the value is timezone-aware. *)
Record datetime : Type := mkDatetime {
  wall : Z;
  utcoffset : option Z
}.

(** What the system clock shows at one call of [datetime.now]. *)
Record clock_reading : Type := mkReading {
  utc_now : Z;
  local_offset : Z
}.

(** [datetime.now()] as a naive wall-clock value. *)
Definition now_naive (r : clock_reading) : Z := utc_now r + local_offset r.

(** [timedelta(days=n)] *)
Definition timedelta_days (n : Z) : Z := n * 86400000000.

(** [timedelta(hours=n)], the unit of [age_hours]. *)
Definition hours (n : Z) : Z := n * 3600000000.

(* ====================================================================== *)
(** ** [src/models/article.py] *)
(* ====================================================================== *)

Record Article : Type := mkArticle {
  title : string;
  description : option string;
  url : string;
  published_at : option datetime;
  source : string;
  category : string;
  image_url : option string;
  hash : string;
  relevance_score : Q
}.

Definition set_hash (a : Article) (h : string) : Article :=
  mkArticle (title a) (description a) (url a) (published_at a) (source a)
    (category a) (image_url a) h (relevance_score a).

Definition set_relevance_score (a : Article) (s : Q) : Article :=
  mkArticle (title a) (description a) (url a) (published_at a) (source a)
    (category a) (image_url a) (hash a) s.

(** [validate_url]: [true] when the validator accepts the URL. *)
Definition validate_url (v : string) : bool :=
  PyStr.startswith v "http://" || PyStr.startswith v "https://".

(** The normalised title: [title.lower().strip()]. *)
Definition normalized_title (t : string) : string := PyStr.strip (PyStr.lower t).

(** [generate_hash]: the MD5 hex digest of normalised title followed by
    the URL. *)
Definition generate_hash (a : Article) : string :=
  hashlib.md5_hexdigest
    (PyStr.encode_utf8 (normalized_title (title a) +:+ url a)).

(** [model_post_init]: fill in the hash unless one was supplied. *)
Definition model_post_init (a : Article) : Article :=
  if negb (PyStr.truthy (hash a)) then set_hash a (generate_hash a) else a.

(** Construction [Article(title=..., ..., hash=h, relevance_score=s)]:
    field validation, then [model_post_init].  [None] stands for the
    validation error. *)
Definition Article_new (title : string) (description : option string)
    (url : string) (published_at : option datetime) (source category : string)
    (image_url : option string) (hash : string) (relevance_score : Q)
    : option Article :=
  if validate_url url then
    Some (model_post_init
            (mkArticle title description url published_at source category
               image_url hash relevance_score))
  else None.

(** The defaults of the two optional score fields. *)
Definition default_hash : string := "".
Definition default_relevance_score : Q := 0%Q.

(* ====================================================================== *)
(** ** [src/config/settings.py]: the options the core reads *)
(* ====================================================================== *)

Module settings.

Record t : Type := mk {
  include_keywords : list string;
  exclude_keywords : list string;
  max_articles : Z;
  min_relevance_score : Q;
  recency_weight : Q;
  max_age_days : Z;
  deduplication_enabled : bool;
  similarity_threshold : Q;
  lookback_days : Z
}.

End settings.

(* ====================================================================== *)
(** ** The cache file and the accesses made to it *)
(* ====================================================================== *)

(** A value of the persisted mapping: a timestamp that
    [datetime.fromisoformat] reads and that compares with the naive
    cutoff, or anything else (not a string, not ISO-8601, or
    timezone-aware), for which the parse or the comparison raises. *)
Inductive cache_value : Type :=
  | Timestamp (ts : Z)
  | BadTimestamp.

Global Instance cache_value_eq_dec : EqDecision cache_value.
Proof. solve_decision. Defined.

(** What is found at the cache path. *)
Inductive file_content : Type :=
  | Absent                                   (* [exists()] is false *)
  | Unparsable                               (* [json.load] raises *)
  | NotObject                                (* valid JSON, not an object *)
  | Mapping (m : gmap string cache_value).   (* a JSON object *)

Inductive fs_event : Type :=
  | EvMkdir                                  (* [cache_dir.mkdir(exist_ok=True)] *)
  | EvExists                                 (* [cache_file.exists()] *)
  | EvRead                                   (* [open(cache_file, 'r')] and [json.load] *)
  | EvWrite (m : gmap string cache_value).   (* [open(cache_file, 'w')] and [json.dump] *)

Record world : Type := mkWorld {
  cache_file : file_content;
  writable : bool;
  trace : list fs_event
}.

Definition log (e : fs_event) (w : world) : world :=
  mkWorld (cache_file w) (writable w) (trace w ++ [e]).

Definition write_file (m : gmap string cache_value) (w : world) : world :=
  mkWorld (Mapping m) (writable w) (trace w ++ [EvWrite m]).

Definition is_read (e : fs_event) : bool :=
  match e with EvRead => true | _ => false end.

Definition is_write (e : fs_event) : bool :=
  match e with EvWrite _ => true | _ => false end.

(* ====================================================================== *)
(** ** [src/processors/deduplicator.py] *)
(* ====================================================================== *)

Module Deduplicator.

Record t : Type := mk {
  similarity_threshold : Q;
  lookback_days : Z;
  seen_hashes : gset string
}.

Definition set_seen_hashes (self : t) (s : gset string) : t :=
  mk (similarity_threshold self) (lookback_days self) s.

(** [timestamp >= cutoff_date] for a value that parses. *)
Definition not_expired (cutoff : Z) (v : cache_value) : Prop :=
  match v with
  | Timestamp ts => cutoff <= ts
  | BadTimestamp => False
  end.

Global Instance not_expired_dec cutoff v : Decision (not_expired cutoff v).
Proof. destruct v; simpl; apply _. Defined.

Definition cutoff_date (self : t) (now : clock_reading) : Z :=
  now_naive now - timedelta_days (lookback_days self).

(** [_load_cache].  A value that does not parse is skipped with a
    warning; a file that does not load resets the set. *)
Definition _load_cache (self : t) (now : clock_reading) (w : world) : t * world :=
  match cache_file w with
  | Absent => (self, log EvExists w)
  | Unparsable | NotObject =>
      (set_seen_hashes self ∅, log EvRead (log EvExists w))
  | Mapping cache_data =>
      let kept :=
        filter (λ kv : string * cache_value,
                  not_expired (cutoff_date self now) kv.2) cache_data in
      (set_seen_hashes self (seen_hashes self ∪ dom kept),
       log EvRead (log EvExists w))
  end.

(** [__init__]: reading [settings.deduplication_cache_file] creates the
    cache directory; then the cache is loaded. *)
Definition __init__ (cfg : settings.t) (now : clock_reading) (w : world)
    : t * world :=
  _load_cache
    (mk (settings.similarity_threshold cfg) (settings.lookback_days cfg) ∅)
    now (log EvMkdir w).

(** [_save_cache].  [now] is the reading written as timestamp of the
    new entries, [later] the one the cutoff is computed from.  Every
    exception is caught and logged: the world is then left as it was
    when the exception was raised. *)
Definition _save_cache (self : t) (now later : clock_reading)
    (articles : list Article) (w : world) : world :=
  let '(loaded, w1) :=
    match cache_file w with
    | Absent => (Some ∅, log EvExists w)
    | Unparsable => (Some ∅, log EvRead (log EvExists w))
    | NotObject => (None, log EvRead (log EvExists w))
    | Mapping m => (Some m, log EvRead (log EvExists w))
    end in
  match loaded with
  | None => w1
  | Some cache_data =>
      let cache_data :=
        fold_left (λ m article, <[hash article := Timestamp (now_naive now)]> m)
          articles cache_data in
      if bool_decide (map_Forall (λ _ v, v ≠ BadTimestamp) cache_data) then
        let cache_data :=
          filter (λ kv : string * cache_value,
                    not_expired (cutoff_date self later) kv.2) cache_data in
        if writable w1 then write_file cache_data w1 else w1
      else w1
  end.

(** [_is_similar] *)
Definition _is_similar (self : t) (title1 title2 : string) : bool :=
  let t1 := PyStr.strip (PyStr.lower title1) in
  let t2 := PyStr.strip (PyStr.lower title2) in
  let similarity := Levenshtein.ratio t1 t2 in
  Qle_bool (similarity_threshold self) similarity.

(** The three accumulators of the loop of [deduplicate]. *)
Record loop_state : Type := mkLoop {
  unique_articles : list Article;
  current_hashes : gset string;
  seen_titles : list string
}.

Definition loop_init : loop_state := mkLoop [] ∅ [].

(** One iteration of [for article in articles]. *)
Definition loop_body (self : t) (st : loop_state) (article : Article)
    : loop_state :=
  if bool_decide (hash article ∈ seen_hashes self)
     || bool_decide (hash article ∈ current_hashes st)
  then st
  else
    let is_duplicate :=
      existsb (λ seen_title, _is_similar self (title article) seen_title)
        (seen_titles st) in
    if negb is_duplicate then
      mkLoop (unique_articles st ++ [article])
             ({[hash article]} ∪ current_hashes st)
             (seen_titles st ++ [title article])
    else st.

(** [deduplicate] *)
Definition deduplicate (cfg : settings.t) (self : t) (now later : clock_reading)
    (articles : list Article) (w : world) : list Article * world :=
  if negb (settings.deduplication_enabled cfg) then (articles, w)
  else
    let st := fold_left (loop_body self) articles loop_init in
    (unique_articles st, _save_cache self now later (unique_articles st) w).

End Deduplicator.

(* ====================================================================== *)
(** ** [src/processors/filter.py] *)
(* ====================================================================== *)

(** Articles are objects: a batch is a list of references into a store,
    and [filter_and_rank] assigns to a field of the objects it scores. *)
Abbreviation ref := nat (only parsing).
Abbreviation store := (list Article) (only parsing).

Global Instance Article_inhabited : Inhabited Article :=
  populate (mkArticle "" None "" None "" "" None "" 0%Q).

Inductive exn : Type := IndexError.

Inductive outcome (A : Type) : Type :=
  | Returns (v : A)
  | Raises (e : exn).
Arguments Returns {A} v.
Arguments Raises {A} e.

(** [l[:n]], also for a negative [n]. *)
Definition slice_to {A : Type} (l : list A) (n : Z) : list A :=
  if 0 <=? n then take (Z.to_nat n) l
  else take (Z.to_nat (Z.of_nat (length l) + n)) l.

Definition Qlt_bool (x y : Q) : bool := negb (Qle_bool y x).

(** [sorted(l, key=key, reverse=True)]: descending and stable.  An
    element is put in front of the first one whose key is not greater,
    hence in front of the later elements of equal key. *)
Fixpoint insert_desc {A : Type} (key : A → Q) (x : A) (l : list A) : list A :=
  match l with
  | [] => [x]
  | y :: l' =>
      if Qlt_bool (key x) (key y) then y :: insert_desc key x l'
      else x :: y :: l'
  end.

Definition sorted_reverse {A : Type} (key : A → Q) (l : list A) : list A :=
  fold_right (insert_desc key) [] l.

(** [x or ''] for an optional string. *)
Definition or_empty (x : option string) : string :=
  match x with Some s => s | None => "" end.

Module ArticleFilter.

Record t : Type := mk {
  include_keywords : list string;
  exclude_keywords : list string;
  max_articles : Z;
  min_score : Q;
  source_reputation : list (string * Q)
}.

Definition __init__ (cfg : settings.t) : t :=
  mk (map PyStr.lower (settings.include_keywords cfg))
     (map PyStr.lower (settings.exclude_keywords cfg))
     (settings.max_articles cfg)
     (settings.min_relevance_score cfg)
     [("mit", 2); ("ieee", 2); ("arxiv", 3 # 2); ("openai", 3 # 2);
      ("deepmind", 3 # 2); ("google ai", 3 # 2); ("wired", 1);
      ("techcrunch", 1); ("venturebeat", 1)]%Q.

(** [_calculate_keyword_score] *)
Definition _calculate_keyword_score (self : t) (text : string) : Q :=
  if negb (PyStr.truthy text) then 0%Q
  else
    let text_lower := PyStr.lower text in
    fold_left
      (λ score keyword,
         if re.search_word keyword text_lower then (score + 1)%Q else score)
      (include_keywords self) 0%Q.

(** [_get_source_reputation_score]: the first key of the table, in the
    order of the dictionary, that the lower-cased source name contains. *)
Definition _get_source_reputation_score (self : t) (source_name : string) : Q :=
  let source_lower := PyStr.lower source_name in
  match List.find (λ entry, PyStr.contains source_lower entry.1)
          (source_reputation self) with
  | Some (_, score) => score
  | None => (1 # 2)%Q
  end.

(** [_should_exclude] *)
Definition _should_exclude (self : t) (article : Article) : bool :=
  let text :=
    PyStr.lower (title article +:+ " " +:+ or_empty (description article)) in
  existsb (λ keyword, re.search_word keyword text) (exclude_keywords self).

(** The age [now - published_at] that [_get_recency_boost] measures: both
    sides aware (compared as instants) or both naive. *)
Definition boost_age (now : clock_reading) (p : datetime) : Z :=
  match utcoffset p with
  | Some off => utc_now now - (wall p - off)
  | None => now_naive now - wall p
  end.

(** [_get_recency_boost] *)
Definition _get_recency_boost (cfg : settings.t) (now : clock_reading)
    (article : Article) : Q :=
  match published_at article with
  | None => 1%Q
  | Some p =>
      let age := boost_age now p in
      if age <=? hours 24 then settings.recency_weight cfg
      else if age <=? hours 48 then
        (1 + (settings.recency_weight cfg - 1) * (1 # 2))%Q
      else 1%Q
  end.

(** [calculate_relevance_score] *)
Definition calculate_relevance_score (cfg : settings.t) (self : t)
    (now : clock_reading) (article : Article) : Q :=
  let score := 0%Q in
  let title_score := _calculate_keyword_score self (title article) in
  let score := (score + title_score * 3)%Q in
  let description_score :=
    _calculate_keyword_score self (or_empty (description article)) in
  let score := (score + description_score * 1)%Q in
  let reputation_score := _get_source_reputation_score self (source article) in
  let score := (score + reputation_score)%Q in
  let recency_boost := _get_recency_boost cfg now article in
  (score * recency_boost)%Q.

(** The age test of the recency filter: the publication time with its
    zone dropped, against the naive [now]. *)
Definition is_recent (cfg : settings.t) (now : clock_reading)
    (article : Article) : bool :=
  match published_at article with
  | Some p => now_naive now - wall p <=? timedelta_days (settings.max_age_days cfg)
  | None => true
  end.

(** [for article in recent_articles: article.relevance_score = ...].
    [clock i] is what the clock shows when the element at position [i] of
    the list is scored. *)
Fixpoint score_loop (cfg : settings.t) (self : t) (clock : nat → clock_reading)
    (i : nat) (recent_articles : list ref) (heap : store) : store :=
  match recent_articles with
  | [] => heap
  | a :: rest =>
      let article := heap !!! a in
      let scored :=
        set_relevance_score article
          (calculate_relevance_score cfg self (clock i) article) in
      score_loop cfg self clock (S i) rest (<[a := scored]> heap)
  end.

Definition is_empty {A : Type} (l : list A) : bool :=
  match l with [] => true | _ => false end.

(** [filter_and_rank].  [now] is the reading of the recency filter.  The
    result is the store after the call and either the returned list or
    the exception that escapes. *)
Definition filter_and_rank (cfg : settings.t) (self : t) (now : clock_reading)
    (clock : nat → clock_reading) (articles : list ref) (heap : store)
    : store * outcome (list ref) :=
  let filtered :=
    List.filter (λ a, negb (_should_exclude self (heap !!! a))) articles in
  if is_empty filtered then (heap, Returns [])
  else
    let recent_articles :=
      List.filter (λ a, is_recent cfg now (heap !!! a)) filtered in
    if is_empty recent_articles then (heap, Returns [])
    else
      let heap := score_loop cfg self clock 0 recent_articles heap in
      let scored_articles :=
        List.filter
          (λ a, Qle_bool (min_score self) (relevance_score (heap !!! a)))
          recent_articles in
      if is_empty scored_articles then (heap, Returns [])
      else
        let ranked_articles :=
          sorted_reverse (λ x, relevance_score (heap !!! x)) scored_articles in
        let top_articles := slice_to ranked_articles (max_articles self) in
        (* the score-range log line reads [top_articles[0]] *)
        match top_articles with
        | [] => (heap, Raises IndexError)
        | _ :: _ => (heap, Returns top_articles)
        end.

End ArticleFilter.

(* ====================================================================== *)
(** ** The pipeline run twice *)
(* ====================================================================== *)

(** Step 2 of [run_pipeline] in [main.py]: a [Deduplicator] is built, then
    asked to deduplicate the collected batch. *)
Definition dedup_step (cfg : settings.t) (r0 r1 r2 : clock_reading)
    (batch : list Article) (w : world)
    : Deduplicator.t * list Article * world :=
  let '(d, w1) := Deduplicator.__init__ cfg r0 w in
  let '(out, w2) := Deduplicator.deduplicate cfg d r1 r2 batch w1 in
  (d, out, w2).

(** Two runs in succession over the same batch: the second one starts from
    the world the first one left. *)
Definition two_runs (cfg : settings.t) (r0 r1 r2 r3 r4 r5 : clock_reading)
    (batch : list Article) (w : world) : list Article * list Article :=
  let '(_, out1, w2) := dedup_step cfg r0 r1 r2 batch w in
  let '(_, out2, _) := dedup_step cfg r3 r4 r5 batch w2 in
  (out1, out2).

(* ====================================================================== *)
(** ** The statements of the specification, in its own words *)
(* ====================================================================== *)

Module Spec.

(** *** Deduplication as a single pass *)

(** Exact duplicate: the fingerprint is in the persisted cache set or is
    that of an article accepted earlier in the batch. *)
Definition exact_duplicate (cache : gset string) (accepted : list Article)
    (a : Article) : bool :=
  bool_decide (hash a ∈ cache)
  || existsb (λ b, bool_decide (hash b = hash a)) accepted.

(** Near duplicate: the normalised title reaches the threshold against
    the title of some article accepted earlier. *)
Definition near_duplicate (threshold : Q) (accepted : list Article)
    (a : Article) : bool :=
  existsb
    (λ b, Qle_bool threshold
            (Levenshtein.ratio (normalized_title (title a))
               (normalized_title (title b))))
    accepted.

Definition dropped (cache : gset string) (threshold : Q)
    (accepted : list Article) (a : Article) : bool :=
  exact_duplicate cache accepted a || near_duplicate threshold accepted a.

(** The pass: [accepted] are the articles accepted so far, in order. *)
Fixpoint single_pass (cache : gset string) (threshold : Q)
    (accepted input : list Article) : list Article :=
  match input with
  | [] => []
  | a :: rest =>
      if dropped cache threshold accepted a
      then single_pass cache threshold accepted rest
      else a :: single_pass cache threshold (accepted ++ [a]) rest
  end.

(** *** Whole-word matching *)

(** The keyword occurs in the text with no word character immediately
    before or after the occurrence. *)
Definition whole_word_occurrence (kw text : list ascii) : Prop :=
  ∃ pre post, text = pre ++ kw ++ post
    ∧ re.is_word_at (last pre) = false
    ∧ re.is_word_at (head post) = false.

(** The same, decided by a scan; [prev] is the character before [l]. *)
Fixpoint occurs_as_word (kw l : list ascii) (prev : option ascii) : bool :=
  (negb (re.is_word_at prev) && PyStr.prefix_chars kw l
   && negb (re.is_word_at (head (drop (length kw) l))))
  || match l with
     | [] => false
     | c :: l' => occurs_as_word kw l' (Some c)
     end.

(** Case-insensitive whole-word match of a configured keyword. *)
Definition whole_word_match (keyword text : string) : bool :=
  occurs_as_word (PyStr.chars (PyStr.lower keyword))
    (PyStr.chars (PyStr.lower text)) None.

(** A keyword that begins and ends with a word character. *)
Definition word_edged (kw : list ascii) : Prop :=
  re.is_word_at (head kw) = true ∧ re.is_word_at (last kw) = true.

(** *** The relevance score *)

(** The number of distinct configured keywords matched in the text. *)
Definition distinct_matches (keywords : list string) (text : string) : Z :=
  Z.of_nat
    (length (remove_dups
               (List.filter (λ kw, whole_word_match kw text) keywords))).

(** The number of entries of the configured list matched in the text. *)
Definition matching_entries (keywords : list string) (text : string) : Z :=
  Z.of_nat (length (List.filter (λ kw, whole_word_match kw text) keywords)).

(** The recency multiplier from the age of the article, if it is dated. *)
Definition recency_multiplier (weight : Q) (age : option Z) : Q :=
  match age with
  | None => 1
  | Some age =>
      if age <=? hours 24 then weight
      else if age <=? hours 48 then 1 + (weight - 1) * (1 # 2)
      else 1
  end%Q.

(** [(title_score * 3.0 + description_score * 1.0 + reputation_score)
     * recency_multiplier] *)
Definition final_score (title_score description_score : Z)
    (reputation_score recency : Q) : Q :=
  ((inject_Z title_score * 3 + inject_Z description_score * 1
    + reputation_score) * recency)%Q.

End Spec.

(* ====================================================================== *)
(** ** Notions used in the statements *)
(* ====================================================================== *)

(** The articles that survive the exclusion and recency filters, in the
    order of the batch (stages 1 and 2 of [filter_and_rank]). *)
Definition survivors (cfg : settings.t) (self : ArticleFilter.t)
    (now : clock_reading) (articles : list ref) (heap : store) : list ref :=
  List.filter (λ a, ArticleFilter.is_recent cfg now (heap !!! a))
    (List.filter (λ a, negb (ArticleFilter._should_exclude self (heap !!! a)))
       articles).

(** Those of them that meet the minimum score, given the scored store. *)
Definition meeting_min_score (self : ArticleFilter.t) (scored : store)
    (refs : list ref) : list ref :=
  List.filter
    (λ a, Qle_bool (ArticleFilter.min_score self)
            (relevance_score (scored !!! a)))
    refs.

(** Two articles that differ at most in their relevance score. *)
Definition same_but_score (a b : Article) : Prop :=
  title a = title b ∧ description a = description b ∧ url a = url b
  ∧ published_at a = published_at b ∧ source a = source b
  ∧ category a = category b ∧ image_url a = image_url b ∧ hash a = hash b.

(** The mapping [_save_cache] starts from: empty when there is no file or
    [json.load] raises, nothing usable when the file holds another JSON
    value. *)
Definition loaded_mapping (f : file_content)
    : option (gmap string cache_value) :=
  match f with
  | Absent | Unparsable => Some ∅
  | NotObject => None
  | Mapping m => Some m
  end.

(** A cache file every value of which is a readable timestamp. *)
Definition all_timestamps (m : gmap string cache_value) : Prop :=
  map_Forall (λ _ v, v ≠ BadTimestamp) m.

Definition file_exists (f : file_content) : bool :=
  match f with Absent => false | _ => true end.

(** The title of [a] reaches the threshold against the title of [b]. *)
Definition similar_titles (threshold : Q) (a b : Article) : Prop :=
  (threshold <= Levenshtein.ratio (normalized_title (title a))
                  (normalized_title (title b)))%Q.

(** What the loop of [deduplicate] maintains: the two auxiliary
    accumulators are the fingerprints and the titles of the accepted
    articles. *)
Definition loop_inv (st : Deduplicator.loop_state) : Prop :=
  Deduplicator.current_hashes st
  = list_to_set (map hash (Deduplicator.unique_articles st))
  ∧ Deduplicator.seen_titles st = map title (Deduplicator.unique_articles st).

(** The last character of [l], or [prev] when [l] is empty: the character
    before the position reached after reading [l]. *)
Definition last_or (prev : option ascii) (l : list ascii) : option ascii :=
  match last l with
  | Some c => Some c
  | None => prev
  end.

(** The text [_should_exclude] searches, before lower-casing. *)
Definition title_and_description (a : Article) : string :=
  title a +:+ " " +:+ or_empty (description a).

(** Equality of scores as a test, for [List.filter]. *)
Definition score_is (key : nat → Q) (s : Q) (x : nat) : bool :=
  Qeq_bool (key x) s.

(** The order of a ranked list: a later element never has the greater
    score. *)
Definition not_below (key : nat → Q) (x y : nat) : Prop := (key y <= key x)%Q.

(* ====================================================================== *)
(** ** Sample data, to run the definitions *)
(* ====================================================================== *)

Module Sample.

Definition cfg : settings.t :=
  settings.mk ["robot"; "AI"]%string ["crypto"]%string 5 1 2 7 true (17 # 20) 7.

Definition reading (t : Z) : clock_reading := mkReading t 0.

(** Built as the collector builds them: no [hash] argument. *)
Definition article (t u : string) : Article :=
  model_post_init (mkArticle t None u None "Wired" "robotics" None "" 0%Q).

Definition tesla_new : Article :=
  article "Tesla unveils new humanoid robot" "https://a.example/tesla".
Definition tesla : Article :=
  article "Tesla unveils humanoid robot" "https://b.example/tesla".
Definition gpt5 : Article :=
  article "OpenAI releases GPT-5" "https://a.example/gpt5".
Definition gpt5_caps : Article :=
  article "OpenAI Releases GPT-5" "https://a.example/gpt5".

Definition fresh_world : world := mkWorld Absent true [].

Definition fresh_deduplicator : Deduplicator.t :=
  (Deduplicator.__init__ cfg (reading 0) fresh_world).1.

End Sample.

(** A store and a batch for the filter. *)

Module SampleStore.

Definition now : clock_reading := Sample.reading (hours 1000).

(** An article of the given age in hours, [None] for an undated one. *)
Definition aged (t : string) (d : option string) (src : string)
    (age : option Z) : Article :=
  model_post_init
    (mkArticle t d "https://a.example/x"
       (option_map (λ h, mkDatetime (hours 1000 - hours h) None) age)
       src "ai" None "" 0%Q).

Definition heap : list Article :=
  [ aged "New AI robot startup raises funding" None "Wired" (Some 10);
    aged "AI chips" (Some "with a robot arm") "MIT Tech Review" (Some 36);
    aged "Crypto trading bot with AI" None "Wired" (Some 1);
    aged "AI" None "A blog" (Some 120);
    aged "Gardening" None "A blog" (Some 200);
    aged "Weather" None "A blog" None ]%string.

Definition batch : list nat := [0; 1; 2; 3; 4; 5]%nat.

Definition with_max_articles (n : Z) : settings.t :=
  settings.mk ["robot"; "AI"]%string ["crypto"]%string n 1 2 7 true (17 # 20) 7.

Definition run (n : Z) : list Article * outcome (list nat) :=
  ArticleFilter.filter_and_rank (with_max_articles n)
    (ArticleFilter.__init__ (with_max_articles n)) now (λ _, now) batch heap.

End SampleStore.

(* ====================================================================== *)
(** ** Notions used in the further properties *)
(* ====================================================================== *)

(** The first article of each fingerprint not in [seen], in order. *)
Fixpoint first_of_each_hash (seen : gset string) (l : list Article)
    : list Article :=
  match l with
  | [] => []
  | a :: l' =>
      if bool_decide (hash a ∈ seen) then first_of_each_hash seen l'
      else a :: first_of_each_hash ({[hash a]} ∪ seen) l'
  end.


(* ====================================================================== *)
(** ** [ArticleFilter.group_by_category] *)
(* ====================================================================== *)

(** One iteration of [for article in articles]: the article is appended
    to the list under its category when that category is a key. *)
Definition group_step (grouped : gmap string (list Article))
    (article : Article) : gmap string (list Article) :=
  match grouped !! category article with
  | Some l => <[category article := l ++ [article]]> grouped
  | None => grouped
  end.

Definition group_by_category (articles : list Article)
    : gmap string (list Article) :=
  let grouped : gmap string (list Article) :=
    {[ "top" := []; "ai" := []; "robotics" := []; "research" := [] ]}%string in
  let grouped := <["top"%string := take 5 articles]> grouped in
  fold_left group_step articles grouped.

(** The articles of one category, in order. *)
Definition of_category (c : string) (articles : list Article) : list Article :=
  List.filter (λ a, bool_decide (category a = c)) articles.

(* ====================================================================== *)
(** ** [Article.get_clean_title] and [Article.get_time_ago] *)
(* ====================================================================== *)

Definition get_clean_title (a : Article) : string := PyStr.strip (title a).

(** [str(n)] for an integer. *)
Definition str_of_int (n : Z) : string :=
  DecimalString.NilZero.string_of_int (Z.to_int n).

(** The fields [days] and [seconds] of a [timedelta] of the given number
    of microseconds: [days] is the floor, [seconds] lies in 0..86399. *)
Definition delta_days (delta : Z) : Z := delta / 86400000000.
Definition delta_seconds (delta : Z) : Z := (delta mod 86400000000) / 1000000.

(** The body of [get_time_ago] from [delta = now - self.published_at]. *)
Definition time_ago (delta : Z) : string :=
  if 0 <? delta_days delta then
    if delta_days delta =? 1 then "1 day ago"
    else str_of_int (delta_days delta) +:+ " days ago"
  else
    let hours := delta_seconds delta / 3600 in
    if 0 <? hours then
      if hours =? 1 then "1 hour ago"
      else str_of_int hours +:+ " hours ago"
    else
      let minutes := delta_seconds delta / 60 in
      if 0 <? minutes then
        if minutes =? 1 then "1 minute ago"
        else str_of_int minutes +:+ " minutes ago"
      else "Just now".

(** [get_time_ago]: [now] is [datetime.now(self.published_at.tzinfo)],
    so the difference is taken between two aware or two naive values,
    as in [_get_recency_boost]. *)
Definition get_time_ago (now : clock_reading) (a : Article) : string :=
  match published_at a with
  | None => "Recently"
  | Some p => time_ago (ArticleFilter.boost_age now p)
  end.


(* ====================================================================== *)
(** ** [src/processors/ai_summarizer.py] *)
(* ====================================================================== *)

Definition set_description (a : Article) (d : option string) : Article :=
  mkArticle (title a) d (url a) (published_at a) (source a) (category a)
    (image_url a) (hash a) (relevance_score a).

(** Truthiness of an optional string: [None] and [""] are false. *)
Definition truthy_opt (x : option string) : bool :=
  match x with Some s => PyStr.truthy s | None => false end.

Definition newline : string := String (PyStr.chr 10) "".

Module AISummarizer.

Record t : Type := mk {
  enabled : bool;
  provider : string;
  model : string;
  api_key : option string
}.

(** [__init__]: the three settings and the value of [OPENAI_API_KEY] in
    the environment.  Summaries are switched off when there is no key. *)
Definition __init__ (ai_summaries_enabled : bool) (ai_provider ai_model : string)
    (env_api_key : option string) : t :=
  if ai_summaries_enabled && negb (truthy_opt env_api_key)
  then mk false ai_provider ai_model env_api_key
  else mk ai_summaries_enabled ai_provider ai_model env_api_key.

(** [_build_prompt] *)
Definition _build_prompt (article : Article) : string :=
  ("You are an AI/Robotics news analyst. Summarize this article in 2-3 concise sentences."
   +:+ newline +:+ newline
   +:+ "Focus on:" +:+ newline
   +:+ "1. What happened or was announced" +:+ newline
   +:+ "2. Why it matters for AI/robotics" +:+ newline
   +:+ "3. Key implications or impact" +:+ newline +:+ newline
   +:+ "Article Title: " +:+ title article +:+ newline
   +:+ "Article Description: "
   +:+ (if truthy_opt (description article)
        then or_empty (description article)
        else "No description available") +:+ newline
   +:+ "Source: " +:+ source article +:+ newline +:+ newline
   +:+ "Provide a clear, insightful summary that helps readers understand the significance without reading the full article. Be specific and avoid generic statements.")%string.

(** The chat-completion service: called with the API key, the model and
    the prompt, it answers with the content of the first choice of a
    status-200 response, or with [None] for any other status and for any
    exception ([_call_openai] catches them all).  [call] numbers the
    requests, of which two with the same arguments may differ. *)
Definition service : Type := nat → option string → string → string → option string.

(** [_call_openai] *)
Definition _call_openai (openai : service) (self : t) (call : nat)
    (prompt : string) : option string :=
  match openai call (api_key self) (model self) prompt with
  | Some content => Some (PyStr.strip content)
  | None => None
  end.

(** [summarize_article] *)
Definition summarize_article (openai : service) (self : t) (call : nat)
    (article : Article) : option string :=
  if negb (enabled self) then description article
  else
    let prompt := _build_prompt article in
    let summary := _call_openai openai self call prompt in
    if truthy_opt summary then summary else description article.

(** The loop of [batch_summarize]; [i] is the position of the next
    article in the list. *)
Fixpoint summarize_loop (openai : service) (self : t) (i : nat)
    (articles : list nat) (heap : list Article) : list Article :=
  match articles with
  | [] => heap
  | a :: rest =>
      let article := heap !!! a in
      let enhanced_summary := summarize_article openai self i article in
      let heap :=
        if truthy_opt enhanced_summary
        then <[a := set_description article enhanced_summary]> heap
        else heap in
      summarize_loop openai self (S i) rest heap
  end.

(** [batch_summarize]: the list it returns is the list it was given. *)
Definition batch_summarize (openai : service) (self : t)
    (articles : list nat) (heap : list Article) : list nat * list Article :=
  if negb (enabled self) then (articles, heap)
  else (articles, summarize_loop openai self 0 articles heap).

End AISummarizer.

(** Two articles that differ at most in their description. *)
Definition same_but_description (a b : Article) : Prop :=
  title a = title b ∧ url a = url b ∧ published_at a = published_at b
  ∧ source a = source b ∧ category a = category b
  ∧ image_url a = image_url b ∧ hash a = hash b
  ∧ relevance_score a = relevance_score b.


(* ====================================================================== *)
(** ** [src/senders/email_sender.py]: [send_email] *)
(* ====================================================================== *)

(** How one pass through the [try] block of [send_email] ends: the SMTP
    session (connect, TLS, login, send) completes, or raises. *)
Inductive smtp_result : Type :=
  | SmtpSent
  | SmtpAuthenticationError
  | SmtpException               (* any other [smtplib.SMTPException] *)
  | OtherException.             (* any other [Exception] *)

Inductive mail_event : Type :=
  | EvSession (attempt : nat)   (* [smtplib.SMTP(...)] is entered *)
  | EvSleep (seconds : Z).      (* [time.sleep(self.retry_delay)] *)

Module EmailSender.

Record t : Type := mk {
  max_retries : nat;
  retry_delay : Z
}.

(** The two constants that [__init__] sets. *)
Definition __init__ : t := mk 3 5.

(** [for attempt in range(1, self.max_retries + 1)], with [remaining]
    iterations left; the [return False] after the loop is the case of no
    iteration left. *)
Fixpoint attempts (smtp : nat → smtp_result) (self : t)
    (remaining attempt : nat) (log : list mail_event)
    : bool * list mail_event :=
  match remaining with
  | O => (false, log)
  | S remaining' =>
      let log := log ++ [EvSession attempt] in
      match smtp attempt with
      | SmtpSent => (true, log)
      | SmtpAuthenticationError => (false, log)
      | SmtpException | OtherException =>
          if (attempt <? max_retries self)%nat then
            attempts smtp self remaining' (S attempt)
              (log ++ [EvSleep (retry_delay self)])
          else (false, log)
      end
  end.

(** [send_email]: whether the mail was sent, and what was done. *)
Definition send_email (smtp : nat → smtp_result) (self : t)
    : bool * list mail_event :=
  attempts smtp self (max_retries self) 1 [].

End EmailSender.

(** An outcome after which [send_email] tries again. *)
Definition retried (r : smtp_result) : Prop :=
  r = SmtpException ∨ r = OtherException.

(** The log of [n] sessions with a pause after each but the last, the
    first session being number [first]. *)
Fixpoint sessions (delay : Z) (first n : nat) : list mail_event :=
  match n with
  | O => []
  | S O => [EvSession first]
  | S n' => EvSession first :: EvSleep delay :: sessions delay (S first) n'
  end.


Definition is_sent (r : smtp_result) : bool :=
  match r with SmtpSent => true | _ => false end.


(* ====================================================================== *)
(** ** [src/collectors/rss_collector.py] and [settings.rss_feeds] *)
(* ====================================================================== *)

(** The value under ['image'] of an entry: a dictionary, whose [href] is
    read, or any other value, taken as it is. *)
Inductive image_value : Type :=
  | ImageDict (href : option string)
  | ImageOther (v : string).

(** What [_parse_entry] asks of an entry.  A field is [None] when the
    key is not in the entry.  The elements of [entry_content],
    [entry_media_thumbnail] and [entry_media_content] are the results of
    [item.get('value')] and [item.get('url')] on the items of the lists. *)
Record feed_entry : Type := mkEntry {
  entry_title : option string;
  entry_link : option string;
  entry_summary : option string;
  entry_description : option string;
  entry_content : option (list (option string));
  entry_date : string → option string;
  entry_media_thumbnail : option (list (option string));
  entry_media_content : option (list (option string));
  entry_image : option image_value
}.

(** One element of [sources.rss_feeds] in the configuration. *)
Record feed_config : Type := mkFeed {
  feed_url : option string;
  feed_name : option string;
  feed_category : option string;
  feed_enabled : option bool
}.

(** [settings.rss_feeds]: the feeds whose [enabled] is true or missing. *)
Definition rss_feeds (all_feeds : list feed_config) : list feed_config :=
  List.filter
    (λ feed, match feed_enabled feed with Some b => b | None => true end)
    all_feeds.

Module RSSCollector.

Record t : Type := mk {
  timeout : Z;
  max_articles_per_source : Z
}.

(** The libraries the collector calls: [BeautifulSoup(...).get_text],
    [dateutil.parser.parse] ([None] when it raises) and
    [feedparser.parse] (the entries of the feed, [None] when the fetch
    raises). *)
Record libraries : Type := mkLibraries {
  get_text : string → string;
  date_parse : string → option datetime;
  feedparser_parse : string → option (list feed_entry)
}.

Definition date_fields : list string :=
  ["published"; "pubDate"; "updated"; "created"]%string.

(** The description chosen by the [if]/[elif] chain. *)
Definition raw_description (entry : feed_entry) : option string :=
  match entry_summary entry with
  | Some s => Some s
  | None =>
      match entry_description entry with
      | Some d => Some d
      | None =>
          match entry_content entry with
          | Some (item :: _) => Some (or_empty item)
          | _ => None
          end
      end
  end.

(** Tags removed, then at most 500 characters. *)
Definition clean_description (lib : libraries) (description : option string)
    : option string :=
  if truthy_opt description then
    let text := get_text lib (or_empty description) in
    if (500 <? String.length text)%nat
    then Some (PyStr.str (take 497 (PyStr.chars text)) +:+ "...")%string
    else Some text
  else description.

(** The first date field of the entry that parses. *)
Fixpoint first_date (lib : libraries) (entry : feed_entry)
    (fields : list string) : option datetime :=
  match fields with
  | [] => None
  | field :: rest =>
      match entry_date entry field with
      | Some raw =>
          match date_parse lib raw with
          | Some d => Some d
          | None => first_date lib entry rest
          end
      | None => first_date lib entry rest
      end
  end.

Definition first_url (items : list (option string)) : option string :=
  match items with
  | item :: _ => item
  | [] => None
  end.

Definition entry_image_url (entry : feed_entry) : option string :=
  match entry_media_thumbnail entry with
  | Some (item :: _) => item
  | _ =>
      match entry_media_content entry with
      | Some (item :: _) => item
      | _ =>
          match entry_image entry with
          | Some (ImageDict href) => href
          | Some (ImageOther v) => Some v
          | None => None
          end
      end
  end.

(** [_parse_entry]; [now] is the clock at the call. *)
Definition _parse_entry (lib : libraries) (now : clock_reading)
    (entry : feed_entry) (source_name category : string) : option Article :=
  let title := PyStr.strip (or_empty (entry_title entry)) in
  if negb (PyStr.truthy title) then None
  else
    let url := PyStr.strip (or_empty (entry_link entry)) in
    if negb (PyStr.truthy url) then None
    else
      let description := clean_description lib (raw_description entry) in
      let published_at :=
        match first_date lib entry date_fields with
        | Some d => d
        | None => mkDatetime (now_naive now) None
        end in
      let image_url := entry_image_url entry in
      Article_new title description url (Some published_at) source_name
        category image_url default_hash default_relevance_score.

(** The loop of [collect_from_source] over the sliced entries, the clock
    of each call of [_parse_entry] being that of its position. *)
Fixpoint parse_entries (lib : libraries) (clock : nat → clock_reading)
    (i : nat) (entries : list feed_entry) (source_name category : string)
    : list Article :=
  match entries with
  | [] => []
  | entry :: rest =>
      match _parse_entry lib (clock i) entry source_name category with
      | Some article =>
          article :: parse_entries lib clock (S i) rest source_name category
      | None => parse_entries lib clock (S i) rest source_name category
      end
  end.

(** [collect_from_source] *)
Definition collect_from_source (lib : libraries) (self : t)
    (clock : nat → clock_reading) (feed_url source_name category : string)
    : list Article :=
  match feedparser_parse lib feed_url with
  | None => []
  | Some entries =>
      if ArticleFilter.is_empty entries then []
      else
        parse_entries lib clock 0
          (slice_to entries (max_articles_per_source self))
          source_name category
  end.

(** The loop of [collect_all]: the articles, and the URLs fetched.  A
    feed without [url], [name] or [category] raises [KeyError] before the
    fetch and is skipped. *)
Fixpoint collect_feeds (lib : libraries) (self : t)
    (clock : nat → nat → clock_reading) (k : nat) (feeds : list feed_config)
    : list Article * list string :=
  match feeds with
  | [] => ([], [])
  | feed_config :: rest =>
      let '(articles, fetched) := collect_feeds lib self clock (S k) rest in
      match feed_url feed_config, feed_name feed_config,
            feed_category feed_config with
      | Some url, Some name, Some category =>
          (collect_from_source lib self (clock k) url name category
             ++ articles,
           url :: fetched)
      | _, _, _ => (articles, fetched)
      end
  end.

(** [collect_all] on the configured feeds. *)
Definition collect_all (lib : libraries) (self : t)
    (clock : nat → nat → clock_reading) (all_feeds : list feed_config)
    : list Article * list string :=
  collect_feeds lib self clock 0 (rss_feeds all_feeds).

End RSSCollector.


(** A feed of four entries: the second has a blank title, the third a
    link that is no web address. *)

Module SampleFeed.

Definition entry (t link : option string) (summary : option string)
    : feed_entry :=
  mkEntry t link summary None None (λ _, None) None None None.

Definition robot : feed_entry :=
  entry (Some "  Tesla unveils robot ") (Some "https://a.example/robot ")
        (Some "A new humanoid.").

Definition untitled : feed_entry :=
  entry (Some "   ") (Some "https://a.example/none") None.

Definition mail_link : feed_entry :=
  entry (Some "Write to us") (Some "mailto:desk@a.example") None.

Definition lib : RSSCollector.libraries :=
  RSSCollector.mkLibraries (λ s, s) (λ _, None)
    (λ _, Some [robot; untitled; mail_link; robot]).

Definition collector : RSSCollector.t := RSSCollector.mk 30 3.

Definition clock (i : nat) : clock_reading :=
  Sample.reading (hours (Z.of_nat i)).

End SampleFeed.

(** An article as [_parse_entry] leaves it. *)
Definition collected (source_name feed_kind : string) (a : Article) : Prop :=
  source a = source_name
  ∧ category a = feed_kind
  ∧ title a ≠ ""
  ∧ validate_url (url a) = true
  ∧ published_at a ≠ None
  ∧ hash a = generate_hash a.

(** A feed of the configuration that [collect_all] fetches. *)
Definition fetched_feed (feed : feed_config) (url : string) : Prop :=
  feed_enabled feed ≠ Some false
  ∧ feed_url feed = Some url
  ∧ feed_name feed ≠ None
  ∧ feed_category feed ≠ None.


(** A configuration of three feeds: one in use, one disabled, one
    without a name. *)
Definition sample_feeds : list feed_config :=
  [ mkFeed (Some "https://a.example/feed") (Some "Wired") (Some "robotics")
      None;
    mkFeed (Some "https://b.example/feed") (Some "Gazette") (Some "ai")
      (Some false);
    mkFeed (Some "https://c.example/feed") None (Some "ai") (Some true) ]%string.


(* ====================================================================== *)
(** ** [src/main.py]: [run_pipeline], steps 1 to 4 *)
(* ====================================================================== *)

(** What the outside world answers during one run: the libraries of the
    collector, the clock at the calls of [datetime.now] and the service
    of the summarizer. *)
Record session : Type := mkSession {
  libs : RSSCollector.libraries;
  feed_clock : nat → nat → clock_reading;
  init_reading : clock_reading;
  pass_reading : clock_reading;
  save_reading : clock_reading;
  filter_now : clock_reading;
  score_clock : nat → clock_reading;
  openai : AISummarizer.service
}.

(** How [run_pipeline] leaves step 4: by one of the three [return]s, by
    an exception, which is logged and raised again, or with the list it
    gives to [build_html]. *)
Inductive pipeline_result : Type :=
  | Skipped
  | Failed (e : exn)
  | Composed (articles : list Article).

(** Steps 1 to 4 of [run_pipeline].  The articles that the collector
    creates are distinct objects: the list that leaves the deduplicator
    is the store of the two later steps, which refer to its elements by
    position. *)
Definition run_pipeline (cfg : settings.t) (all_feeds : list feed_config)
    (collector : RSSCollector.t) (ai_summarizer : AISummarizer.t)
    (env : session) (w : world) : pipeline_result * world :=
  let articles :=
    (RSSCollector.collect_all (libs env) collector (feed_clock env)
       all_feeds).1 in
  if ArticleFilter.is_empty articles then (Skipped, w)
  else
    let '(deduplicator, w) := Deduplicator.__init__ cfg (init_reading env) w in
    let '(unique_articles, w) :=
      Deduplicator.deduplicate cfg deduplicator (pass_reading env)
        (save_reading env) articles w in
    if ArticleFilter.is_empty unique_articles then (Skipped, w)
    else
      let article_filter := ArticleFilter.__init__ cfg in
      match
        ArticleFilter.filter_and_rank cfg article_filter (filter_now env)
          (score_clock env) (seq 0 (length unique_articles)) unique_articles
      with
      | (_, Raises e) => (Failed e, w)
      | (heap, Returns filtered_articles) =>
          if ArticleFilter.is_empty filtered_articles then (Skipped, w)
          else
            let '(filtered_articles, heap) :=
              AISummarizer.batch_summarize (openai env) ai_summarizer
                filtered_articles heap in
            (Composed (map (λ a, heap !!! a) filtered_articles), w)
      end.

(** An article of a feed of the configuration that is not disabled. *)
Definition from_enabled_feed (all_feeds : list feed_config) (a : Article)
    : Prop :=
  ∃ feed name kind,
    feed ∈ all_feeds
    ∧ feed_enabled feed ≠ Some false
    ∧ feed_name feed = Some name
    ∧ feed_category feed = Some kind
    ∧ collected name kind a.

(** The order of a ranked list of articles. *)
Definition ranked_before (a b : Article) : Prop :=
  (relevance_score b <= relevance_score a)%Q.

(** A session for the sample feed. *)
Definition sample_session : session :=
  mkSession SampleFeed.lib (λ _, SampleFeed.clock)
    (Sample.reading 0) (Sample.reading 0) (Sample.reading 0)
    (Sample.reading (hours 1)) (λ _, Sample.reading (hours 1))
    (λ _ _ _ _, None).


(* ====================================================================== *)
(** * Properties *)
(* ====================================================================== *)

Local Open Scope string_scope.
Local Open Scope list_scope.

(** ** The library models on known values *)

Example md5_empty :
  hashlib.md5_hexdigest [] = "d41d8cd98f00b204e9800998ecf8427e".
Proof. vm_compute. reflexivity. Qed.

Example md5_abc :
  hashlib.md5_hexdigest (PyStr.encode_utf8 "abc")
  = "900150983cd24fb0d6963f7d28e17f72".
Proof. vm_compute. reflexivity. Qed.

Example md5_two_blocks :
  hashlib.md5_hexdigest (repeat 97 80) = "b15af9cdabbaea0516866a33d8fd0f98".
Proof. vm_compute. reflexivity. Qed.

Example ratio_kitten_sitting :
  Levenshtein.ratio "kitten" "sitting" = (8 # 13)%Q.
Proof. vm_compute. reflexivity. Qed.

Example ratio_empty : Levenshtein.ratio "" "" = 1%Q.
Proof. vm_compute. reflexivity. Qed.

Example search_inside_longer_word :
  re.search_word "crypto" "new cryptocurrency exchange" = false.
Proof. vm_compute. reflexivity. Qed.

Example search_whole_word :
  re.search_word "crypto" "crypto trading bot" = true.
Proof. vm_compute. reflexivity. Qed.

Example normalized_title_example :
  normalized_title "  OpenAI Releases GPT-5 " = "openai releases gpt-5".
Proof. vm_compute. reflexivity. Qed.

(** ** Fingerprints *)

Lemma model_post_init_default (a : Article) :
  hash a = default_hash → hash (model_post_init a) = generate_hash a.
Proof.
  intros Hh. unfold model_post_init. rewrite Hh. reflexivity.
Qed.

Lemma model_post_init_supplied (a : Article) :
  PyStr.truthy (hash a) = true → model_post_init a = a.
Proof.
  intros Hh. unfold model_post_init. rewrite Hh. reflexivity.
Qed.

Lemma model_post_init_fields (a : Article) :
  title (model_post_init a) = title a ∧ url (model_post_init a) = url a.
Proof.
  unfold model_post_init. destruct (negb (PyStr.truthy (hash a))); auto.
Qed.

Lemma Article_new_fields t d u p s c i h r A :
  Article_new t d u p s c i h r = Some A →
  title A = t ∧ url A = u ∧ validate_url u = true.
Proof.
  unfold Article_new. destruct (validate_url u) eqn:Hv; [|discriminate].
  intros [= <-]. destruct (model_post_init_fields (mkArticle t d u p s c i h r))
    as [-> ->]. auto.
Qed.

(** [generate_hash] reads the normalised title and the URL only. *)
Lemma generate_hash_pure (a b : Article) :
  normalized_title (title a) = normalized_title (title b) →
  url a = url b →
  generate_hash a = generate_hash b.
Proof.
  intros Ht Hu. unfold generate_hash. rewrite Ht, Hu. reflexivity.
Qed.

(** C2, as stated, fails: two articles built from the same title and URL,
    one of them with a [hash] argument, have different fingerprints. *)
Lemma fingerprint_supplied_hash_differs :
  ∃ A B,
    Article_new "GPT-5 released" None "https://example.org/a" None
      "Wired" "ai" None "abc" 0%Q = Some A
    ∧ Article_new "GPT-5 released" None "https://example.org/a" None
        "Wired" "ai" None default_hash default_relevance_score = Some B
    ∧ normalized_title (title A) = normalized_title (title B)
    ∧ url A = url B
    ∧ hash A ≠ hash B.
Proof.
  eexists _, _. split; [vm_compute; reflexivity|].
  split; [vm_compute; reflexivity|].
  split; [reflexivity|]. split; [reflexivity|].
  vm_compute. discriminate.
Qed.

(** C2 (amended): for articles constructed without a [hash] argument, the
    fingerprint is the MD5 digest of normalised title followed by URL, so
    two such articles with the same normalised title and the same URL
    have the same fingerprint, whatever their other fields. *)
Theorem fingerprint_determinism
    t1 d1 u1 p1 s1 c1 i1 r1 t2 d2 u2 p2 s2 c2 i2 r2 (A B : Article) :
  Article_new t1 d1 u1 p1 s1 c1 i1 default_hash r1 = Some A →
  Article_new t2 d2 u2 p2 s2 c2 i2 default_hash r2 = Some B →
  normalized_title (title A) = normalized_title (title B) →
  url A = url B →
  hash A = hash B
  ∧ hash A = generate_hash A
  ∧ hash A = hashlib.md5_hexdigest
               (PyStr.encode_utf8 (normalized_title t1 +:+ u1)).
Proof.
  intros HA HB Ht Hu.
  destruct (Article_new_fields _ _ _ _ _ _ _ _ _ _ HA) as (HtA & HuA & HvA).
  destruct (Article_new_fields _ _ _ _ _ _ _ _ _ _ HB) as (HtB & HuB & HvB).
  assert (HhA : hash A = generate_hash A).
  { unfold Article_new in HA. rewrite HvA in HA. injection HA as <-.
    rewrite model_post_init_default by reflexivity.
    apply generate_hash_pure;
      [f_equal|]; symmetry; apply model_post_init_fields. }
  assert (HhB : hash B = generate_hash B).
  { unfold Article_new in HB. rewrite HvB in HB. injection HB as <-.
    rewrite model_post_init_default by reflexivity.
    apply generate_hash_pure;
      [f_equal|]; symmetry; apply model_post_init_fields. }
  split; [rewrite HhA, HhB; apply generate_hash_pure; assumption|].
  split; [exact HhA|].
  rewrite HhA. unfold generate_hash. rewrite HtA, HuA. reflexivity.
Qed.

Lemma fingerprint_determinism_witness :
  ∃ A B,
    hash A = hash B
    ∧ hash A = "2dac78e9e7affa5a75f33701cee5d3cd"
    ∧ description A ≠ description B.
Proof.
  pose (A := model_post_init
               (mkArticle "OpenAI releases GPT-5" None "https://example.org/a"
                  None "Wired" "ai" None default_hash 0%Q)).
  pose (B := model_post_init
               (mkArticle "  OpenAI Releases GPT-5" (Some "text")
                  "https://example.org/a" None "MIT" "research" None
                  default_hash 1%Q)).
  exists A, B.
  destruct (fingerprint_determinism
              "OpenAI releases GPT-5" None "https://example.org/a" None
              "Wired" "ai" None 0%Q
              "  OpenAI Releases GPT-5" (Some "text") "https://example.org/a"
              None "MIT" "research" None 1%Q A B) as (H1 & _ & H2);
    [reflexivity | reflexivity | vm_compute; reflexivity | reflexivity |].
  split; [exact H1|]. split; [|vm_compute; discriminate].
  rewrite H2. vm_compute. reflexivity.
Defined.

(** ** The cache file *)

Section Cache.

Import Deduplicator.

Lemma init_fields cfg now w :
  similarity_threshold (__init__ cfg now w).1 = settings.similarity_threshold cfg
  ∧ lookback_days (__init__ cfg now w).1 = settings.lookback_days cfg.
Proof.
  unfold __init__, _load_cache. simpl. destruct (cache_file w); auto.
Qed.

(** The set that construction loads: the keys whose timestamp reads and
    is not before the cutoff. *)
Lemma init_seen_hashes cfg now w h :
  h ∈ seen_hashes (__init__ cfg now w).1 ↔
  ∃ m ts, cache_file w = Mapping m ∧ m !! h = Some (Timestamp ts)
          ∧ now_naive now - timedelta_days (settings.lookback_days cfg) <= ts.
Proof.
  unfold __init__, _load_cache. simpl.
  destruct (cache_file w) as [| | |m]; simpl.
  - split; [set_solver|]. intros (? & ? & ? & _); discriminate.
  - split; [set_solver|]. intros (? & ? & ? & _); discriminate.
  - split; [set_solver|]. intros (? & ? & ? & _); discriminate.
  - rewrite elem_of_union, elem_of_dom. unfold is_Some.
    setoid_rewrite map_lookup_filter_Some. unfold cutoff_date. simpl. split.
    + intros [?|(v & Hv & Hk)]; [set_solver|].
      destruct v as [ts|]; simpl in Hk; [|tauto]. eauto.
    + intros (m' & ts & [= <-] & Hm & Hle). right. exists (Timestamp ts). auto.
Qed.

(** Construction logs a directory creation, an existence test and, when
    the file is there, one read; it leaves the file as it is. *)
Lemma init_world cfg now w :
  cache_file (__init__ cfg now w).2 = cache_file w
  ∧ writable (__init__ cfg now w).2 = writable w
  ∧ trace (__init__ cfg now w).2
    = trace w ++ [EvMkdir; EvExists]
      ++ (if file_exists (cache_file w) then [EvRead] else []).
Proof.
  unfold __init__, _load_cache. simpl.
  destruct (cache_file w) eqn:E; simpl; rewrite <- ?app_assoc; simpl; auto.
Qed.

Lemma fold_insert_lookup (v : cache_value) (articles : list Article)
    (m : gmap string cache_value) (h : string) :
  fold_left (λ m article, <[hash article := v]> m) articles m !! h
  = if bool_decide (h ∈ map hash articles) then Some v else m !! h.
Proof.
  revert m. induction articles as [|a l IH]; intros m; cbn [fold_left map].
  - rewrite bool_decide_false; [reflexivity|]. apply not_elem_of_nil.
  - rewrite IH. destruct (decide (h ∈ map hash l)) as [Hin|Hin].
    + rewrite !bool_decide_true; [reflexivity| |assumption].
      apply elem_of_cons. auto.
    + rewrite (bool_decide_false _ Hin).
      destruct (decide (hash a = h)) as [->|Hne].
      * rewrite lookup_insert_eq, bool_decide_true; [reflexivity|].
        apply elem_of_cons. auto.
      * rewrite lookup_insert_ne by assumption.
        rewrite bool_decide_false; [reflexivity|].
        rewrite elem_of_cons. intros [?|?]; congruence.
Qed.

Lemma fold_insert_all_timestamps ts (articles : list Article)
    (m : gmap string cache_value) :
  all_timestamps m →
  all_timestamps
    (fold_left (λ m article, <[hash article := Timestamp ts]> m) articles m).
Proof.
  intros Hm h v. rewrite fold_insert_lookup. case_bool_decide.
  - intros [= <-]. discriminate.
  - apply Hm.
Qed.

(** What a successful save leaves in the file. *)
Lemma save_cache_file self now later articles w m0 :
  loaded_mapping (cache_file w) = Some m0 →
  all_timestamps m0 →
  writable w = true →
  cache_file (_save_cache self now later articles w)
  = Mapping
      (filter (λ kv : string * cache_value,
                 not_expired (cutoff_date self later) kv.2)
         (fold_left
            (λ m article, <[hash article := Timestamp (now_naive now)]> m)
            articles m0)).
Proof.
  intros Hl Hm Hw. unfold _save_cache.
  pose proof (fold_insert_all_timestamps (now_naive now) articles m0 Hm) as Hall.
  destruct (cache_file w) as [| | |m]; simpl in Hl; try discriminate;
    injection Hl as <-;
    rewrite bool_decide_true by exact Hall; simpl; rewrite Hw; reflexivity.
Qed.



(** C8, as stated, fails: with deduplication disabled and a cache file in
    place, building the [Deduplicator] reads the file. *)
Lemma disabled_construction_reads_cache :
  let cfg := settings.mk [] [] 10 1 1 7 false (17 # 20) 7 in
  let r := mkReading 0 0 in
  let w := mkWorld (Mapping ∅) true [] in
  settings.deduplication_enabled cfg = false
  ∧ existsb is_read (trace (dedup_step cfg r r r [Sample.gpt5] w).2) = true.
Proof. split; reflexivity. Qed.

(** C8 (amended): with deduplication disabled, [deduplicate] returns its
    input and touches nothing; over the whole step the cache file is
    never written and keeps its content, and it is read once, during
    construction, exactly when the file exists. *)
Theorem disabled_deduplication_frame cfg self r0 r1 r2 batch w :
  settings.deduplication_enabled cfg = false →
  deduplicate cfg self r1 r2 batch w = (batch, w)
  ∧ (dedup_step cfg r0 r1 r2 batch w).1.2 = batch
  ∧ cache_file (dedup_step cfg r0 r1 r2 batch w).2 = cache_file w
  ∧ ∃ events,
      trace (dedup_step cfg r0 r1 r2 batch w).2 = trace w ++ events
      ∧ existsb is_write events = false
      ∧ existsb is_read events = file_exists (cache_file w).
Proof.
  intros Hoff.
  assert (Hd : ∀ d w', deduplicate cfg d r1 r2 batch w' = (batch, w')).
  { intros d w'. unfold deduplicate. rewrite Hoff. reflexivity. }
  split; [apply Hd|].
  unfold dedup_step.
  destruct (__init__ cfg r0 w) as [d w1] eqn:Hi. rewrite Hd. simpl.
  destruct (init_world cfg r0 w) as (Hc & _ & Ht). rewrite Hi in Hc, Ht.
  simpl in Hc, Ht.
  split; [reflexivity|]. split; [exact Hc|].
  eexists. split; [exact Ht|].
  destruct (cache_file w); split; reflexivity.
Qed.

Lemma disabled_deduplication_frame_witness :
  let cfg := settings.mk [] [] 10 1 1 7 false (17 # 20) 7 in
  let r := mkReading 0 0 in
  let a := mkArticle "t" None "http://x" None "s" "ai" None "h" 0%Q in
  let w := mkWorld Absent true [] in
  (dedup_step cfg r r r [a; a] w).1.2 = [a; a]
  ∧ cache_file (dedup_step cfg r r r [a; a] w).2 = Absent.
Proof.
  intros cfg r a w.
  destruct (disabled_deduplication_frame cfg (mk 0 0 ∅) r r r [a; a] w eq_refl)
    as (_ & H1 & H2 & _).
  split; [exact H1 | exact H2].
Defined.

End Cache.

(** ** Deduplication *)

Section Dedup.

Import Deduplicator.

Variable self : Deduplicator.t.

Let cache := seen_hashes self.
Let threshold := similarity_threshold self.

Lemma near_check_spec (a : Article) (acc : list Article) :
  existsb (λ seen_title, _is_similar self (title a) seen_title) (map title acc)
  = Spec.near_duplicate threshold acc a.
Proof.
  induction acc as [|b acc IH]; [reflexivity|].
  simpl. rewrite IH. reflexivity.
Qed.

Lemma hash_check_spec (a : Article) (acc : list Article) :
  bool_decide (hash a ∈ (list_to_set (map hash acc) : gset string))
  = existsb (λ b, bool_decide (hash b = hash a)) acc.
Proof.
  induction acc as [|b acc IH]; [reflexivity|].
  cbn [map list_to_set existsb]. rewrite <- IH.
  destruct (decide (hash b = hash a)) as [He|Hne].
  - rewrite (bool_decide_true _ He). simpl.
    apply bool_decide_eq_true. rewrite elem_of_union, elem_of_singleton. auto.
  - rewrite (bool_decide_false _ Hne). simpl.
    apply bool_decide_ext. rewrite elem_of_union, elem_of_singleton.
    split; [intros [?|?]; [congruence|assumption]|auto].
Qed.

Lemma dropped_iff (acc : list Article) (a : Article) :
  Spec.dropped cache threshold acc a = true ↔
  hash a ∈ cache
  ∨ ∃ b, b ∈ acc ∧ (hash b = hash a ∨ similar_titles threshold a b).
Proof.
  unfold Spec.dropped, Spec.exact_duplicate, Spec.near_duplicate.
  rewrite !orb_true_iff, bool_decide_eq_true, !existsb_exists. split.
  - intros [[?|(b & Hb & He)]|(b & Hb & Hs)]; auto; right; exists b;
      rewrite list_elem_of_In; (split; [assumption|]).
    + left. apply bool_decide_eq_true in He. exact He.
    + right. apply Qle_bool_iff. exact Hs.
  - intros [?|(b & Hb & [He|Hs])]; auto; rewrite list_elem_of_In in Hb.
    + left. right. exists b. split; [assumption|].
      apply bool_decide_eq_true. exact He.
    + right. exists b. split; [assumption|]. apply Qle_bool_iff. exact Hs.
Qed.

(** One iteration is one step of the pass, and keeps the invariant. *)
Lemma loop_body_spec (st : loop_state) (a : Article) :
  loop_inv st →
  unique_articles (loop_body self st a)
  = unique_articles st
    ++ (if Spec.dropped cache threshold (unique_articles st) a then [] else [a])
  ∧ loop_inv (loop_body self st a).
Proof.
  intros [Hh Ht]. unfold loop_body, Spec.dropped, Spec.exact_duplicate.
  rewrite Hh, Ht, hash_check_spec, near_check_spec. fold cache.
  destruct (bool_decide (hash a ∈ cache)
            || existsb (λ b, bool_decide (hash b = hash a)) (unique_articles st));
    simpl.
  - rewrite app_nil_r. split; [reflexivity|]. split; assumption.
  - destruct (Spec.near_duplicate threshold (unique_articles st) a); simpl.
    + rewrite app_nil_r. split; [reflexivity|]. split; assumption.
    + split; [reflexivity|]. split; simpl.
      * rewrite map_app, list_to_set_app_L. simpl.
        rewrite (right_id_L ∅ (∪)). apply (comm_L (∪)).
      * rewrite map_app. reflexivity.
Qed.

Lemma loop_spec (input : list Article) (st : loop_state) :
  loop_inv st →
  unique_articles (fold_left (loop_body self) input st)
  = unique_articles st
    ++ Spec.single_pass cache threshold (unique_articles st) input.
Proof.
  revert st. induction input as [|a input IH]; intros st Hinv; simpl.
  - rewrite app_nil_r. reflexivity.
  - destruct (loop_body_spec st a Hinv) as [Hu Hinv'].
    rewrite (IH _ Hinv'), Hu.
    destruct (Spec.dropped cache threshold (unique_articles st) a).
    + rewrite app_nil_r. reflexivity.
    + rewrite <- app_assoc. reflexivity.
Qed.

Lemma loop_init_inv : loop_inv loop_init.
Proof. split; reflexivity. Qed.

Lemma single_pass_sublist (acc input : list Article) :
  sublist (Spec.single_pass cache threshold acc input) input.
Proof.
  revert acc. induction input as [|a input IH]; intros acc; simpl.
  - constructor.
  - destruct (Spec.dropped cache threshold acc a).
    + apply sublist_cons, IH.
    + apply sublist_skip, IH.
Qed.

Lemma single_pass_app (acc l1 l2 : list Article) :
  Spec.single_pass cache threshold acc (l1 ++ l2)
  = Spec.single_pass cache threshold acc l1
    ++ Spec.single_pass cache threshold
         (acc ++ Spec.single_pass cache threshold acc l1) l2.
Proof.
  revert acc. induction l1 as [|a l1 IH]; intros acc; simpl.
  - rewrite app_nil_r. reflexivity.
  - destruct (Spec.dropped cache threshold acc a); simpl.
    + apply IH.
    + rewrite IH, <- app_assoc. reflexivity.
Qed.

(** Nothing whose fingerprint is in the cache comes out. *)
Lemma single_pass_elem (acc input : list Article) (a : Article) :
  a ∈ Spec.single_pass cache threshold acc input →
  a ∈ input ∧ hash a ∉ cache.
Proof.
  revert acc. induction input as [|x input IH]; intros acc; simpl.
  - intros H. apply not_elem_of_nil in H. contradiction.
  - destruct (Spec.dropped cache threshold acc x) eqn:Hd.
    + intros H. destruct (IH _ H). split; [apply elem_of_cons|]; auto.
    + rewrite elem_of_cons. intros [->|H].
      * split; [apply elem_of_cons; auto|]. intros Hin.
        assert (Spec.dropped cache threshold acc x = true) as Ht
          by (apply dropped_iff; auto).
        congruence.
      * destruct (IH _ H). split; [apply elem_of_cons|]; auto.
Qed.

(** Every article of the input is accepted, or is in the cache, or
    duplicates an accepted article. *)
Lemma single_pass_cover (input acc : list Article) (a : Article) :
  a ∈ input →
  a ∈ Spec.single_pass cache threshold acc input
  ∨ hash a ∈ cache
  ∨ ∃ b, b ∈ acc ++ Spec.single_pass cache threshold acc input
         ∧ (hash b = hash a ∨ similar_titles threshold a b).
Proof.
  revert acc. induction input as [|x input IH]; intros acc Hin.
  - apply not_elem_of_nil in Hin. contradiction.
  - simpl. apply elem_of_cons in Hin.
    destruct (Spec.dropped cache threshold acc x) eqn:Hd.
    + destruct Hin as [->|Hin].
      * apply dropped_iff in Hd as [?|(b & Hb & Hdup)]; auto.
        right. right. exists b. split; [|exact Hdup].
        apply elem_of_app. auto.
      * apply IH, Hin.
    + destruct Hin as [->|Hin].
      * left. apply elem_of_cons. auto.
      * destruct (IH (acc ++ [x]) Hin) as [H|[H|(b & Hb & Hdup)]]; auto.
        -- left. apply elem_of_cons. auto.
        -- right. right. exists b. split; [|exact Hdup].
           rewrite <- app_assoc in Hb. exact Hb.
Qed.

Lemma deduplicate_enabled cfg now later articles w :
  settings.deduplication_enabled cfg = true →
  deduplicate cfg self now later articles w
  = (Spec.single_pass cache threshold [] articles,
     _save_cache self now later
       (Spec.single_pass cache threshold [] articles) w).
Proof.
  intros Hon. unfold deduplicate. rewrite Hon. simpl.
  rewrite (loop_spec articles loop_init loop_init_inv). reflexivity.
Qed.

End Dedup.

(** C1: with deduplication enabled, the result of [deduplicate] is the
    single pass of the specification over the input, a subsequence of the
    input in input order; the decision on an article depends only on the
    cache and on the articles accepted before it, is never revisited, and
    an article is dropped exactly when its fingerprint is cached or an
    earlier accepted article has its fingerprint or a similar title. *)
Theorem deduplicate_single_pass cfg self now later articles w :
  settings.deduplication_enabled cfg = true →
  let cache := Deduplicator.seen_hashes self in
  let threshold := Deduplicator.similarity_threshold self in
  let out l := (Deduplicator.deduplicate cfg self now later l w).1 in
  out articles = Spec.single_pass cache threshold [] articles
  ∧ sublist (out articles) articles
  ∧ ∀ pre a post, articles = pre ++ a :: post →
      sublist (out pre) pre
      ∧ out (pre ++ [a])
        = out pre ++ (if Spec.dropped cache threshold (out pre) a
                      then [] else [a])
      ∧ out (pre ++ [a]) `prefix_of` out articles
      ∧ (Spec.dropped cache threshold (out pre) a = true ↔
         hash a ∈ cache
         ∨ ∃ b, b ∈ out pre
                ∧ (hash b = hash a ∨ similar_titles threshold a b)).
Proof.
  intros Hon cache threshold out.
  assert (Hout : ∀ l, out l = Spec.single_pass cache threshold [] l).
  { intros l. unfold out. rewrite deduplicate_enabled by exact Hon.
    reflexivity. }
  split; [apply Hout|].
  split; [rewrite Hout; apply single_pass_sublist|].
  intros pre a post ->. rewrite !Hout. subst cache threshold.
  split; [apply single_pass_sublist|].
  split.
  { rewrite single_pass_app. simpl.
    destruct (Spec.dropped _ _ (Spec.single_pass _ _ [] pre) a); reflexivity. }
  split.
  { replace (pre ++ a :: post) with ((pre ++ [a]) ++ post)
      by (rewrite <- app_assoc; reflexivity).
    rewrite (single_pass_app self [] (pre ++ [a]) post).
    apply prefix_app_r. reflexivity. }
  apply dropped_iff.
Qed.

(** Scenarios 1 and 2 of the specification, by running [deduplicate]
    through the theorem: the case-only variant has the fingerprint of the
    first article and the shorter Tesla title is a near-duplicate. *)
Lemma deduplicate_single_pass_witness :
  (Deduplicator.deduplicate Sample.cfg Sample.fresh_deduplicator
     (Sample.reading 1) (Sample.reading 2)
     [Sample.gpt5; Sample.gpt5_caps; Sample.tesla_new; Sample.tesla]
     Sample.fresh_world).1
  = [Sample.gpt5; Sample.tesla_new].
Proof.
  destruct (deduplicate_single_pass Sample.cfg Sample.fresh_deduplicator
              (Sample.reading 1) (Sample.reading 2)
              [Sample.gpt5; Sample.gpt5_caps; Sample.tesla_new; Sample.tesla]
              Sample.fresh_world eq_refl) as [H _].
  rewrite H. vm_compute. reflexivity.
Defined.

(** ** Two runs in succession *)

Section Rerun.

Import Deduplicator.

Variable cfg : settings.t.
Variables r0 r1 r2 r3 r4 r5 : clock_reading.
Variable batch : list Article.
Variable w : world.
Variable m0 : gmap string cache_value.

Hypothesis enabled : settings.deduplication_enabled cfg = true.
Hypothesis can_write : writable w = true.
Hypothesis file_loads : loaded_mapping (cache_file w) = Some m0.
Hypothesis file_timestamps : all_timestamps m0.

Let lookback := timedelta_days (settings.lookback_days cfg).

(** The entries written by the first run survive its own prune and the
    load of the second run. *)
Hypothesis new_kept_by_save : now_naive r2 - lookback <= now_naive r1.
Hypothesis new_kept_by_load : now_naive r3 - lookback <= now_naive r1.

(** No entry that the first run loaded expires before the second load. *)
Hypothesis old_kept :
  ∀ h ts, m0 !! h = Some (Timestamp ts) →
    now_naive r0 - lookback <= ts →
    now_naive r2 - lookback <= ts ∧ now_naive r3 - lookback <= ts.

Let d1 := (__init__ cfg r0 w).1.
Let w1 := (__init__ cfg r0 w).2.
Let threshold := settings.similarity_threshold cfg.
Let out1 := Spec.single_pass (seen_hashes d1) threshold [] batch.
Let w2 := _save_cache d1 r1 r2 out1 w1.
Let d2 := (__init__ cfg r3 w2).1.
Let out2 := Spec.single_pass (seen_hashes d2) threshold [] batch.

Lemma two_runs_unfold : two_runs cfg r0 r1 r2 r3 r4 r5 batch w = (out1, out2).
Proof.
  unfold two_runs, dedup_step.
  rewrite (surjective_pairing (__init__ cfg r0 w)).
  rewrite deduplicate_enabled by exact enabled.
  rewrite (proj1 (init_fields cfg r0 w)).
  match goal with
  | |- context [__init__ cfg r3 ?x] =>
      rewrite (surjective_pairing (__init__ cfg r3 x));
      rewrite deduplicate_enabled by exact enabled;
      rewrite (proj1 (init_fields cfg r3 x))
  end.
  reflexivity.
Qed.

Lemma second_file :
  cache_file w2
  = Mapping
      (filter (λ kv : string * cache_value,
                 not_expired (now_naive r2 - lookback) kv.2)
         (fold_left
            (λ m article, <[hash article := Timestamp (now_naive r1)]> m)
            out1 m0)).
Proof.
  destruct (init_world cfg r0 w) as (Hc & Hw & _).
  unfold w2. rewrite (save_cache_file d1 r1 r2 out1 w1 m0).
  - unfold cutoff_date.
    replace (lookback_days d1) with (settings.lookback_days cfg)
      by (symmetry; apply (init_fields cfg r0 w)).
    reflexivity.
  - unfold w1. rewrite Hc. exact file_loads.
  - exact file_timestamps.
  - unfold w1. rewrite Hw. exact can_write.
Qed.

Lemma second_seen_timestamp h ts :
  fold_left (λ m article, <[hash article := Timestamp (now_naive r1)]> m)
    out1 m0 !! h = Some (Timestamp ts) →
  now_naive r2 - lookback <= ts → now_naive r3 - lookback <= ts →
  h ∈ seen_hashes d2.
Proof.
  intros Hl H2 H3. unfold d2. apply init_seen_hashes.
  eexists _, ts. split; [apply second_file|]. split; [|exact H3].
  apply map_lookup_filter_Some. split; [exact Hl|exact H2].
Qed.

(** Every fingerprint accepted by the first run is seen by the second. *)
Lemma accepted_persisted h : h ∈ map hash out1 → h ∈ seen_hashes d2.
Proof.
  intros Hin. apply (second_seen_timestamp h (now_naive r1)); [|assumption..].
  rewrite fold_insert_lookup, bool_decide_true by exact Hin. reflexivity.
Qed.

(** So is every fingerprint the first run had loaded. *)
Lemma loaded_persisted h : h ∈ seen_hashes d1 → h ∈ seen_hashes d2.
Proof.
  intros Hin. destruct (decide (h ∈ map hash out1)) as [Ho|Ho];
    [apply accepted_persisted, Ho|].
  apply init_seen_hashes in Hin as (m & ts & Hm & Hl & Hle).
  pose proof file_loads as Hfile. rewrite Hm in Hfile. simpl in Hfile.
  injection Hfile as ->.
  destruct (old_kept h ts Hl Hle) as [H2 H3].
  apply (second_seen_timestamp h ts); [|assumption..].
  rewrite fold_insert_lookup, bool_decide_false by exact Ho. exact Hl.
Qed.

(** What can come out of the second run: only an article that the first
    run dropped as a near-duplicate. *)
Lemma second_run_elem a :
  a ∈ out2 →
  a ∈ batch ∧ (hash a ∉ seen_hashes d1) ∧ (hash a ∉ map hash out1)
  ∧ ∃ b, b ∈ out1 ∧ similar_titles threshold a b.
Proof.
  intros Hin.
  assert (Ht1 : similarity_threshold d1 = threshold)
    by apply (init_fields cfg r0 w).
  assert (Ht2 : similarity_threshold d2 = threshold)
    by apply (init_fields cfg r3 w2).
  unfold out2 in Hin. rewrite <- Ht2 in Hin.
  apply single_pass_elem in Hin as [Hb Hc].
  assert (Hn1 : hash a ∉ seen_hashes d1)
    by (intros H; apply Hc, loaded_persisted, H).
  assert (Hn2 : hash a ∉ map hash out1)
    by (intros H; apply Hc, accepted_persisted, H).
  split; [exact Hb|]. split; [exact Hn1|]. split; [exact Hn2|].
  destruct (single_pass_cover d1 batch [] a Hb) as [H|[H|(b & Hbo & Hdup)]].
  - exfalso. apply Hn2. rewrite Ht1 in H. fold out1 in H.
    apply list_elem_of_fmap. exists a. auto.
  - contradiction.
  - rewrite Ht1 in Hbo, Hdup. simpl in Hbo. fold out1 in Hbo.
    destruct Hdup as [He|Hs].
    + exfalso. apply Hn2. apply list_elem_of_fmap. exists b. auto.
    + exists b. auto.
Qed.

End Rerun.




(** ** Word boundaries and whole words *)

Section WholeWord.

Lemma last_or_cons prev c l : last_or prev (c :: l) = last_or (Some c) l.
Proof.
  unfold last_or. rewrite last_cons. destruct (last l); reflexivity.
Qed.

Lemma prefix_chars_app kw post : PyStr.prefix_chars kw (kw ++ post) = true.
Proof.
  induction kw as [|k kw IH]; simpl; [reflexivity|].
  rewrite bool_decide_true by reflexivity. exact IH.
Qed.

Lemma prefix_chars_inv kw l :
  PyStr.prefix_chars kw l = true → l = kw ++ drop (length kw) l.
Proof.
  revert l. induction kw as [|k kw IH]; intros l; simpl.
  - intros _. rewrite drop_0. reflexivity.
  - destruct l as [|c l]; [discriminate|].
    rewrite andb_true_iff, bool_decide_eq_true. intros [-> H].
    simpl. f_equal. apply IH, H.
Qed.

(** The literal part of the pattern and its closing boundary. *)
Lemma match_here_spec kw l prev :
  re.match_here kw l prev
  = PyStr.prefix_chars kw l
    && re.boundary (last_or prev kw) (head (drop (length kw) l)).
Proof.
  revert l prev. induction kw as [|k kw IH]; intros l prev.
  - simpl. rewrite drop_0. reflexivity.
  - destruct l as [|c l]; [reflexivity|].
    cbn [re.match_here PyStr.prefix_chars length drop].
    rewrite IH, last_or_cons.
    destruct (decide (k = c)) as [->|Hne].
    + rewrite bool_decide_true by reflexivity. reflexivity.
    + rewrite bool_decide_false by exact Hne. reflexivity.
Qed.

(** For a keyword with word characters at both ends, the two boundaries
    say that no word character touches the occurrence. *)
Lemma search_step_word_edged kw l prev :
  Spec.word_edged kw →
  re.boundary prev (head l) && re.match_here kw l prev
  = negb (re.is_word_at prev) && PyStr.prefix_chars kw l
    && negb (re.is_word_at (head (drop (length kw) l))).
Proof.
  intros [Hfirst Hlast]. rewrite match_here_spec.
  destruct (PyStr.prefix_chars kw l) eqn:Hp;
    [|rewrite !andb_false_r; reflexivity].
  apply prefix_chars_inv in Hp.
  assert (Hhead : head l = head kw).
  { rewrite Hp. destruct kw; [discriminate Hfirst|reflexivity]. }
  assert (Hlo : last_or prev kw = last kw).
  { unfold last_or. destruct (last kw); [reflexivity|discriminate Hlast]. }
  rewrite Hhead, Hlo. unfold re.boundary. rewrite Hfirst, Hlast.
  rewrite xorb_true_r. simpl. rewrite andb_true_r. reflexivity.
Qed.

Lemma search_word_edged kw l prev :
  Spec.word_edged kw →
  re.search_from kw l prev = Spec.occurs_as_word kw l prev.
Proof.
  intros Hkw. revert prev. induction l as [|c l IH]; intros prev.
  - cbn [re.search_from Spec.occurs_as_word].
    rewrite search_step_word_edged by exact Hkw. reflexivity.
  - cbn [re.search_from Spec.occurs_as_word].
    rewrite search_step_word_edged by exact Hkw. rewrite IH. reflexivity.
Qed.

(** The scan decides the occurrence of the specification. *)
Lemma occurs_as_word_spec kw l prev :
  Spec.occurs_as_word kw l prev = true ↔
  ∃ pre post, l = pre ++ kw ++ post
    ∧ re.is_word_at (last_or prev pre) = false
    ∧ re.is_word_at (head post) = false.
Proof.
  revert prev. induction l as [|c l IH]; intros prev.
  - cbn [Spec.occurs_as_word]. rewrite orb_false_r. split.
    + rewrite !andb_true_iff, !negb_true_iff. intros [[Hp Hk] Hn].
      apply prefix_chars_inv in Hk. exists [], (drop (length kw) []).
      auto.
    + intros (pre & post & Hl & Hp & Hn).
      destruct pre; [|discriminate]. simpl in Hl.
      rewrite !andb_true_iff, !negb_true_iff. rewrite Hl at 1 2.
      rewrite prefix_chars_app, drop_app_length. auto.
  - cbn [Spec.occurs_as_word]. rewrite orb_true_iff, IH. split.
    + intros [H|(pre & post & Hl & Hp & Hn)].
      * rewrite !andb_true_iff, !negb_true_iff in H.
        destruct H as [[Hp Hk] Hn]. apply prefix_chars_inv in Hk.
        exists [], (drop (length kw) (c :: l)). auto.
      * exists (c :: pre), post. rewrite last_or_cons, Hl. auto.
    + intros (pre & post & Hl & Hp & Hn). destruct pre as [|c' pre].
      * left. simpl in Hl. rewrite !andb_true_iff, !negb_true_iff.
        rewrite Hl at 1 2. rewrite prefix_chars_app, drop_app_length. auto.
      * right. simpl in Hl. injection Hl as -> ->.
        rewrite last_or_cons in Hp. exists pre, post. auto.
Qed.

Lemma whole_word_match_spec keyword text :
  Spec.whole_word_match keyword text = true ↔
  Spec.whole_word_occurrence (PyStr.chars (PyStr.lower keyword))
    (PyStr.chars (PyStr.lower text)).
Proof.
  unfold Spec.whole_word_match, Spec.whole_word_occurrence.
  rewrite occurs_as_word_spec. unfold last_or.
  split; intros (pre & post & Hl & Hp & Hn); exists pre, post;
    (split; [exact Hl|]); (split; [|exact Hn]);
    destruct (last pre); auto.
Qed.

(** The search of the program agrees with the whole-word match of the
    specification on word-edged keywords. *)
Lemma search_word_whole_word keyword text :
  Spec.word_edged (PyStr.chars (PyStr.lower keyword)) →
  re.search_word (PyStr.lower keyword) (PyStr.lower text)
  = Spec.whole_word_match keyword text.
Proof.
  intros Hkw. unfold re.search_word, Spec.whole_word_match.
  apply search_word_edged, Hkw.
Qed.

End WholeWord.

(** ** The exclusion filter *)

(** C7, as stated, fails: the exclude-keyword "C++" stands in the title
    as a whole word, and the article is not excluded. *)
Lemma punctuated_keyword_not_excluded :
  let cfg := settings.mk [] ["C++"] 5 1 2 7 true (17 # 20) 7 in
  let a := Sample.article "I love C++ a lot" "https://a.example/cpp" in
  ArticleFilter._should_exclude (ArticleFilter.__init__ cfg) a = false
  ∧ Spec.whole_word_occurrence (PyStr.chars (PyStr.lower "C++"))
      (PyStr.chars (PyStr.lower (title_and_description a))).
Proof.
  split; [vm_compute; reflexivity|].
  exists (PyStr.chars "i love "), (PyStr.chars " a lot ").
  split; [vm_compute; reflexivity|]. split; vm_compute; reflexivity.
Qed.

Lemma should_exclude_iff cfg a :
  ArticleFilter._should_exclude (ArticleFilter.__init__ cfg) a = true ↔
  ∃ kw, kw ∈ settings.exclude_keywords cfg
        ∧ re.search_word (PyStr.lower kw)
            (PyStr.lower (title_and_description a)) = true.
Proof.
  unfold ArticleFilter._should_exclude, ArticleFilter.__init__. simpl.
  rewrite existsb_exists. fold (title_and_description a). split.
  - intros (k & Hk & Hs). apply in_map_iff in Hk as (kw & <- & Hin).
    exists kw. rewrite list_elem_of_In. auto.
  - intros (kw & Hin & Hs). exists (PyStr.lower kw). split; [|exact Hs].
    apply in_map, list_elem_of_In, Hin.
Qed.

(** C7 (amended): when every configured exclude-keyword begins and ends
    with a word character, an article is excluded if and only if its
    title-plus-description text contains some exclude-keyword as a
    case-insensitive whole word; so a keyword that occurs only inside
    longer words does not exclude it, and no excluded article survives
    the first stage of [filter_and_rank]. *)
Theorem exclusion_whole_word cfg (a : Article) :
  (∀ kw, kw ∈ settings.exclude_keywords cfg →
     Spec.word_edged (PyStr.chars (PyStr.lower kw))) →
  let self := ArticleFilter.__init__ cfg in
  let text := PyStr.chars (PyStr.lower (title_and_description a)) in
  (ArticleFilter._should_exclude self a = true ↔
   ∃ kw, kw ∈ settings.exclude_keywords cfg
         ∧ Spec.whole_word_occurrence (PyStr.chars (PyStr.lower kw)) text)
  ∧ ((∀ kw pre post, kw ∈ settings.exclude_keywords cfg →
        text = pre ++ PyStr.chars (PyStr.lower kw) ++ post →
        re.is_word_at (last pre) = true ∨ re.is_word_at (head post) = true) →
     ArticleFilter._should_exclude self a = false)
  ∧ (∀ now articles heap l,
       l ∈ survivors cfg self now articles heap → heap !!! l = a →
       ¬ ∃ kw, kw ∈ settings.exclude_keywords cfg
               ∧ Spec.whole_word_occurrence (PyStr.chars (PyStr.lower kw))
                   text).
Proof.
  intros Hedged self text.
  assert (Hiff : ArticleFilter._should_exclude self a = true ↔
    ∃ kw, kw ∈ settings.exclude_keywords cfg
          ∧ Spec.whole_word_occurrence (PyStr.chars (PyStr.lower kw)) text).
  { unfold self. rewrite should_exclude_iff.
    split; intros (kw & Hin & H); exists kw; (split; [exact Hin|]).
    - apply whole_word_match_spec.
      rewrite <- search_word_whole_word by (apply Hedged, Hin). exact H.
    - rewrite search_word_whole_word by (apply Hedged, Hin).
      apply whole_word_match_spec. exact H. }
  split; [exact Hiff|]. split.
  - intros Hinside. apply not_true_is_false. rewrite Hiff.
    intros (kw & Hin & pre & post & Ht & Hp & Hn).
    destruct (Hinside kw pre post Hin Ht); congruence.
  - intros now articles heap l Hl Ha. rewrite <- Hiff.
    unfold survivors in Hl. rewrite list_elem_of_In in Hl.
    apply filter_In in Hl as [Hl _]. apply filter_In in Hl as [_ Hl].
    rewrite Ha in Hl. apply negb_true_iff in Hl. fold self in Hl.
    congruence.
Qed.

(** Scenario 4 of the specification. *)
Lemma exclusion_whole_word_witness :
  let self := ArticleFilter.__init__ Sample.cfg in
  ArticleFilter._should_exclude self
    (Sample.article "A new cryptocurrency exchange" "https://a.example/c1")
  = false
  ∧ ArticleFilter._should_exclude self
      (Sample.article "Crypto trading bot" "https://a.example/c2")
    = true.
Proof.
  assert (Hedged : ∀ kw, kw ∈ settings.exclude_keywords Sample.cfg →
            Spec.word_edged (PyStr.chars (PyStr.lower kw))).
  { intros kw Hin. apply list_elem_of_singleton in Hin as ->.
    split; vm_compute; reflexivity. }
  split.
  - destruct (exclusion_whole_word Sample.cfg
                (Sample.article "A new cryptocurrency exchange"
                   "https://a.example/c1") Hedged) as (Hiff & _).
    apply not_true_is_false. intros H. apply Hiff in H as (kw & Hin & Hocc).
    apply list_elem_of_singleton in Hin as ->.
    apply whole_word_match_spec in Hocc. vm_compute in Hocc. discriminate.
  - destruct (exclusion_whole_word Sample.cfg
                (Sample.article "Crypto trading bot" "https://a.example/c2")
                Hedged) as (Hiff & _).
    apply Hiff. exists "crypto". split; [apply list_elem_of_singleton; reflexivity|].
    apply whole_word_match_spec. vm_compute. reflexivity.
Defined.

(** ** The store after [filter_and_rank] *)

Section Store.

Import ArticleFilter.

Variable cfg : settings.t.
Variable self : ArticleFilter.t.

Lemma same_but_score_refl a : same_but_score a a.
Proof. repeat split. Qed.

Lemma same_but_score_set a s : same_but_score a (set_relevance_score a s).
Proof. repeat split. Qed.

Lemma same_but_score_trans a b c :
  same_but_score a b → same_but_score b c → same_but_score a c.
Proof.
  unfold same_but_score. intros (?&?&?&?&?&?&?&?) (?&?&?&?&?&?&?&?).
  repeat split; congruence.
Qed.

(** The score is computed from the other fields only. *)
Lemma score_ignores_score now a b :
  same_but_score a b →
  calculate_relevance_score cfg self now b
  = calculate_relevance_score cfg self now a.
Proof.
  intros (Ht & Hd & _ & Hp & Hs & _).
  unfold calculate_relevance_score, _get_recency_boost.
  rewrite Ht, Hd, Hp, Hs. reflexivity.
Qed.

(** The scoring loop: the store keeps its size, an object keeps every
    field but its score, an object outside the list is not touched and
    an object in the list holds the score computed at one of its
    positions in the list. *)
Lemma score_loop_spec clock (recent : list ref) (i : nat) (heap : store) :
  length (score_loop cfg self clock i recent heap) = length heap
  ∧ ∀ l a, heap !! l = Some a →
      ∃ a', score_loop cfg self clock i recent heap !! l = Some a'
        ∧ same_but_score a a'
        ∧ (((l ∉ recent) ∧ a' = a)
           ∨ ∃ j, recent !! j = Some l
                  ∧ relevance_score a'
                    = calculate_relevance_score cfg self (clock (i + j)%nat) a).
Proof.
  revert i heap. induction recent as [|r rest IH]; intros i heap.
  - simpl. split; [reflexivity|]. intros l a Hl. exists a.
    split; [exact Hl|]. split; [apply same_but_score_refl|].
    left. split; [apply not_elem_of_nil|reflexivity].
  - cbn [score_loop].
    set (scored := set_relevance_score (heap !!! r)
                     (calculate_relevance_score cfg self (clock i) (heap !!! r))).
    destruct (IH (S i) (<[r := scored]> heap)) as [Hlen Hobj].
    split; [rewrite Hlen; apply length_insert|].
    intros l a Hl. destruct (decide (l = r)) as [->|Hne].
    + assert (Hr : heap !!! r = a) by (apply list_lookup_total_correct, Hl).
      assert (Hs : <[r := scored]> heap !! r = Some scored).
      { apply list_lookup_insert_eq. eapply lookup_lt_Some, Hl. }
      destruct (Hobj r scored Hs) as (a' & Ha' & Hsame & Hscore).
      assert (Hsa : same_but_score a scored)
        by (unfold scored; rewrite Hr; apply same_but_score_set).
      exists a'. split; [exact Ha'|].
      split; [eapply same_but_score_trans; eauto|].
      right. destruct Hscore as [[_ ->]|(j & Hj & Hv)].
      * exists 0%nat. split; [reflexivity|].
        unfold scored. rewrite Hr, Nat.add_0_r. reflexivity.
      * exists (S j). split; [exact Hj|].
        rewrite Hv, Nat.add_succ_r. apply score_ignores_score, Hsa.
    + assert (Hs : <[r := scored]> heap !! l = Some a).
      { rewrite list_lookup_insert_ne by congruence. exact Hl. }
      destruct (Hobj l a Hs) as (a' & Ha' & Hsame & Hscore).
      exists a'. split; [exact Ha'|]. split; [exact Hsame|].
      destruct Hscore as [[Hnot ->]|(j & Hj & Hv)].
      * left. split; [|reflexivity]. rewrite elem_of_cons.
        intros [?|?]; [congruence|contradiction].
      * right. exists (S j). split; [exact Hj|].
        rewrite Hv, Nat.add_succ_r. reflexivity.
Qed.

Lemma is_empty_true {A : Type} (l : list A) : is_empty l = true → l = [].
Proof. destruct l; [reflexivity|discriminate]. Qed.

(** The store that [filter_and_rank] leaves, whatever its outcome. *)
Lemma filter_and_rank_store now clock articles heap :
  (filter_and_rank cfg self now clock articles heap).1
  = score_loop cfg self clock 0 (survivors cfg self now articles heap) heap.
Proof.
  unfold filter_and_rank, survivors.
  set (filtered := List.filter _ articles).
  destruct (is_empty filtered) eqn:Hf.
  { apply is_empty_true in Hf. rewrite Hf. reflexivity. }
  set (recent := List.filter _ filtered).
  destruct (is_empty recent) eqn:Hr.
  { apply is_empty_true in Hr. rewrite Hr. reflexivity. }
  destruct (is_empty (List.filter _ recent)); [reflexivity|].
  destruct (slice_to _ _); reflexivity.
Qed.

(** A survivor holds the score computed from the fields it had. *)
Lemma survivor_score now clock articles heap l a :
  heap !! l = Some a →
  l ∈ survivors cfg self now articles heap →
  ∃ a' j,
    (filter_and_rank cfg self now clock articles heap).1 !! l = Some a'
    ∧ survivors cfg self now articles heap !! j = Some l
    ∧ relevance_score a'
      = calculate_relevance_score cfg self (clock j) a.
Proof.
  intros Hl Hin. rewrite filter_and_rank_store.
  destruct (score_loop_spec clock (survivors cfg self now articles heap)
              0 heap) as [_ Hobj].
  destruct (Hobj l a Hl) as (a' & Ha' & _ & [[Hnot _]|(j & Hj & Hv)]);
    [contradiction|].
  exists a', j. auto.
Qed.

(** Its outcome: the first [max_articles] of the ranked candidates, and
    an [IndexError] when candidates exist and that slice is empty. *)
Lemma filter_and_rank_outcome now clock articles heap :
  let scored := (filter_and_rank cfg self now clock articles heap).1 in
  let candidates :=
    meeting_min_score self scored (survivors cfg self now articles heap) in
  let top :=
    slice_to (sorted_reverse (λ x, relevance_score (scored !!! x)) candidates)
      (max_articles self) in
  (filter_and_rank cfg self now clock articles heap).2
  = if is_empty candidates then Returns []
    else if is_empty top then Raises IndexError else Returns top.
Proof.
  intros scored candidates top. subst top candidates scored.
  rewrite filter_and_rank_store.
  unfold filter_and_rank, survivors, meeting_min_score.
  set (filtered := List.filter _ articles).
  destruct (is_empty filtered) eqn:Hf.
  { apply is_empty_true in Hf. rewrite Hf. reflexivity. }
  set (recent := List.filter _ filtered).
  destruct (is_empty recent) eqn:Hr.
  { apply is_empty_true in Hr. rewrite Hr. reflexivity. }
  cbn [snd].
  destruct (is_empty (List.filter _ recent)) eqn:Hs; [reflexivity|].
  destruct (slice_to _ _); reflexivity.
Qed.

End Store.



(** ** Scores *)

Section Scores.

Import ArticleFilter.

Local Open Scope Q_scope.

Lemma fold_count {A : Type} (f : A → bool) (l : list A) (s0 : Q) :
  fold_left (λ score x, if f x then score + 1 else score) l s0
  == s0 + inject_Z (Z.of_nat (length (List.filter f l))).
Proof.
  revert s0. induction l as [|x l IH]; intros s0; simpl.
  - change (inject_Z (Z.of_nat 0)) with 0. lra.
  - rewrite IH. destruct (f x); [|reflexivity].
    cbn [length]. rewrite Nat2Z.inj_succ. unfold Z.succ.
    rewrite inject_Z_plus. change (inject_Z 1) with 1. lra.
Qed.

Lemma search_word_empty_text kw : re.search_word kw "" = false.
Proof. reflexivity. Qed.

Lemma filter_none {A : Type} (f : A → bool) (l : list A) :
  (∀ x, f x = false) → List.filter f l = [].
Proof.
  intros Hf. induction l as [|x l IH]; [reflexivity|].
  simpl. rewrite Hf. exact IH.
Qed.

Lemma filter_map_length {A B : Type} (f : B → bool) (g : A → B) (l : list A) :
  length (List.filter f (map g l)) = length (List.filter (λ x, f (g x)) l).
Proof.
  induction l as [|x l IH]; [reflexivity|].
  simpl. destruct (f (g x)); simpl; rewrite IH; reflexivity.
Qed.

(** The keyword score counts the entries of the list that the search
    finds in the lower-cased text. *)
Lemma keyword_score_count self text :
  _calculate_keyword_score self text
  == inject_Z
       (Z.of_nat
          (length (List.filter (λ kw, re.search_word kw (PyStr.lower text))
                     (include_keywords self)))).
Proof.
  unfold _calculate_keyword_score. destruct text as [|c text].
  - simpl. rewrite filter_none by (intros; reflexivity). reflexivity.
  - cbn [PyStr.truthy negb]. rewrite fold_count. lra.
Qed.

Lemma keyword_score_nonneg self text : 0 <= _calculate_keyword_score self text.
Proof.
  rewrite keyword_score_count. unfold Qle. simpl. lia.
Qed.

Lemma keyword_score_matching cfg text :
  (∀ kw, kw ∈ settings.include_keywords cfg →
     Spec.word_edged (PyStr.chars (PyStr.lower kw))) →
  _calculate_keyword_score (__init__ cfg) text
  == inject_Z (Spec.matching_entries (settings.include_keywords cfg) text).
Proof.
  intros Hedged. rewrite keyword_score_count.
  unfold Spec.matching_entries, __init__. cbn [include_keywords].
  rewrite filter_map_length.
  rewrite (filter_ext_in _ (λ kw, Spec.whole_word_match kw text));
    [reflexivity|].
  intros kw Hin. apply search_word_whole_word, Hedged, list_elem_of_In, Hin.
Qed.

(** The reputation score is the value of a key that the source name
    contains, or the default when it contains none; it lies between 0.5
    and 2. *)
Lemma reputation_spec cfg source_name :
  let self := __init__ cfg in
  let reputation := _get_source_reputation_score self source_name in
  (1 # 2 <= reputation ∧ reputation <= 2)
  ∧ ((∃ key, (key, reputation) ∈ source_reputation self
             ∧ PyStr.contains (PyStr.lower source_name) key = true)
     ∨ (reputation = 1 # 2
        ∧ ∀ key v, (key, v) ∈ source_reputation self →
            PyStr.contains (PyStr.lower source_name) key = false)).
Proof.
  intros self reputation. subst reputation.
  unfold _get_source_reputation_score.
  destruct (List.find _ _) as [[key v]|] eqn:Hfind.
  - apply find_some in Hfind as [Hin Hc]. simpl in Hc. split.
    + unfold self, __init__ in Hin. cbn [source_reputation] in Hin.
      repeat (destruct Hin as [[= <- <-]|Hin]; [split; lra|]).
      destruct Hin.
    + left. exists key. rewrite list_elem_of_In. auto.
  - split; [split; lra|]. right. split; [reflexivity|].
    intros key v Hin. rewrite list_elem_of_In in Hin.
    apply (find_none _ _ Hfind (key, v) Hin).
Qed.

Lemma recency_boost_spec cfg now a :
  _get_recency_boost cfg now a
  = Spec.recency_multiplier (settings.recency_weight cfg)
      (option_map (boost_age now) (published_at a)).
Proof.
  unfold _get_recency_boost, Spec.recency_multiplier.
  destruct (published_at a); reflexivity.
Qed.

Lemma recency_multiplier_nonneg weight age :
  0 <= weight → 0 <= Spec.recency_multiplier weight age.
Proof.
  intros Hw. unfold Spec.recency_multiplier.
  destruct age as [age|]; [|lra].
  destruct (age <=? hours 24)%Z; [exact Hw|].
  destruct (age <=? hours 48)%Z; lra.
Qed.

(** The score of the program, as the formula of the specification with
    the number of matching entries as keyword scores. *)
Lemma relevance_score_formula cfg now a :
  (∀ kw, kw ∈ settings.include_keywords cfg →
     Spec.word_edged (PyStr.chars (PyStr.lower kw))) →
  calculate_relevance_score cfg (__init__ cfg) now a
  == Spec.final_score
       (Spec.matching_entries (settings.include_keywords cfg) (title a))
       (Spec.matching_entries (settings.include_keywords cfg)
          (or_empty (description a)))
       (_get_source_reputation_score (__init__ cfg) (source a))
       (Spec.recency_multiplier (settings.recency_weight cfg)
          (option_map (boost_age now) (published_at a))).
Proof.
  intros Hedged. unfold calculate_relevance_score, Spec.final_score.
  rewrite recency_boost_spec, !keyword_score_matching by exact Hedged.
  lra.
Qed.

Lemma relevance_score_nonneg cfg now a :
  0 <= settings.recency_weight cfg →
  0 <= calculate_relevance_score cfg (__init__ cfg) now a.
Proof.
  intros Hw. unfold calculate_relevance_score.
  rewrite recency_boost_spec.
  pose proof (keyword_score_nonneg (__init__ cfg) (title a)) as Ht.
  pose proof (keyword_score_nonneg (__init__ cfg) (or_empty (description a)))
    as Hd.
  destruct (reputation_spec cfg (source a)) as [[Hr _] _].
  pose proof (recency_multiplier_nonneg (settings.recency_weight cfg)
                (option_map (boost_age now) (published_at a)) Hw) as Hm.
  apply Qmult_le_0_compat; [lra|exact Hm].
Qed.

End Scores.


(** The boundary pattern misses an include-keyword that ends with a
    non-word character, although the title has it as a whole word. *)
Example punctuated_keyword_not_counted :
  let cfg := settings.mk ["C++"] [] 5 1 2 7 true (17 # 20) 7 in
  (ArticleFilter._calculate_keyword_score (ArticleFilter.__init__ cfg)
     "C++ rocks" == 0)%Q
  ∧ Spec.matching_entries (settings.include_keywords cfg) "C++ rocks" = 1.
Proof. split; vm_compute; reflexivity. Qed.



(** ** Ranking *)

Section Ranking.

Local Open Scope Q_scope.

Variable key : nat → Q.

Lemma Qlt_bool_true x y : Qlt_bool x y = true → x <= y.
Proof.
  unfold Qlt_bool. rewrite negb_true_iff. intros H.
  apply Qlt_le_weak, Qnot_le_lt. intros Hle.
  apply Qle_bool_iff in Hle. congruence.
Qed.

Lemma Qlt_bool_true_neq x y s : Qlt_bool x y = true → x == s → ¬ y == s.
Proof.
  unfold Qlt_bool. rewrite negb_true_iff. intros H Hx Hy.
  assert (y <= x) as Hle by (rewrite Hx, Hy; apply Qle_refl).
  apply Qle_bool_iff in Hle. congruence.
Qed.

Lemma Qlt_bool_false x y : Qlt_bool x y = false → y <= x.
Proof.
  unfold Qlt_bool. rewrite negb_false_iff. apply Qle_bool_iff.
Qed.

Lemma insert_desc_perm x l : Permutation (insert_desc key x l) (x :: l).
Proof.
  induction l as [|y l IH]; simpl; [reflexivity|].
  destruct (Qlt_bool (key x) (key y)); [|reflexivity].
  rewrite IH. apply perm_swap.
Qed.

Lemma sorted_reverse_perm l : Permutation (sorted_reverse key l) l.
Proof.
  induction l as [|x l IH]; simpl; [reflexivity|].
  rewrite insert_desc_perm, IH. reflexivity.
Qed.

Lemma insert_desc_sorted x l :
  StronglySorted (not_below key) l →
  StronglySorted (not_below key) (insert_desc key x l).
Proof.
  induction l as [|y l IH]; intros Hs; simpl.
  - repeat constructor.
  - apply StronglySorted_inv in Hs as [Hs Hy].
    destruct (Qlt_bool (key x) (key y)) eqn:Hlt.
    + constructor; [apply IH, Hs|].
      eapply Permutation_Forall;
        [symmetry; apply insert_desc_perm|].
      constructor; [|exact Hy]. apply Qlt_bool_true, Hlt.
    + apply Qlt_bool_false in Hlt.
      constructor; [constructor; assumption|].
      constructor; [exact Hlt|].
      eapply Forall_impl; [exact Hy|]. unfold not_below. intros z Hz.
      eapply Qle_trans; eassumption.
Qed.

Lemma sorted_reverse_sorted l :
  StronglySorted (not_below key) (sorted_reverse key l).
Proof.
  induction l as [|x l IH]; simpl; [constructor|].
  apply insert_desc_sorted, IH.
Qed.

(** Stability: the elements of one score keep their order. *)
Lemma insert_desc_stable s x l :
  List.filter (score_is key s) (insert_desc key x l)
  = List.filter (score_is key s) (x :: l).
Proof.
  induction l as [|y l IH]; [reflexivity|].
  cbn [insert_desc]. destruct (Qlt_bool (key x) (key y)) eqn:Hlt;
    [|reflexivity].
  cbn [List.filter] in *. rewrite IH.
  destruct (score_is key s x) eqn:Hx; [|reflexivity].
  assert (score_is key s y = false) as ->; [|reflexivity].
  apply not_true_is_false. unfold score_is in *. intros Hy.
  apply Qeq_bool_iff in Hx, Hy.
  exact (Qlt_bool_true_neq _ _ _ Hlt Hx Hy).
Qed.

Lemma sorted_reverse_stable s l :
  List.filter (score_is key s) (sorted_reverse key l)
  = List.filter (score_is key s) l.
Proof.
  induction l as [|x l IH]; [reflexivity|].
  cbn [sorted_reverse fold_right]. rewrite insert_desc_stable.
  cbn [List.filter]. fold (sorted_reverse key l). rewrite IH. reflexivity.
Qed.

End Ranking.




(** ** The cap of zero *)

(** With candidates and an empty slice the call raises. *)
Lemma empty_slice_raises cfg self now clock articles heap :
  let scored :=
    (ArticleFilter.filter_and_rank cfg self now clock articles heap).1 in
  let candidates :=
    meeting_min_score self scored (survivors cfg self now articles heap) in
  ArticleFilter.max_articles self = 0 →
  candidates ≠ [] →
  (ArticleFilter.filter_and_rank cfg self now clock articles heap).2
  = Raises IndexError.
Proof.
  intros scored candidates Hzero Hne.
  rewrite filter_and_rank_outcome. fold scored. fold candidates.
  rewrite Hzero.
  destruct candidates; [contradiction|]. reflexivity.
Qed.

(** C9: the code at [max_articles = 0] on the sample store.  Three
    articles pass every filter and are scored; the slice is empty and
    the score-range log line raises [IndexError] instead of returning
    the empty list. *)
Theorem zero_cap_raises_index_error :
  (SampleStore.run 0).2 = Raises IndexError
  ∧ meeting_min_score
      (ArticleFilter.__init__ (SampleStore.with_max_articles 0))
      (SampleStore.run 0).1
      (survivors (SampleStore.with_max_articles 0)
         (ArticleFilter.__init__ (SampleStore.with_max_articles 0))
         SampleStore.now SampleStore.batch SampleStore.heap)
    = [0; 1; 3]%nat.
Proof. split; vm_compute; reflexivity. Qed.

(* ====================================================================== *)
(** * Further properties of the deduplicator *)
(* ====================================================================== *)

Section DedupOutput.

Import Deduplicator.

Variable self : Deduplicator.t.

Let cache := seen_hashes self.
Let threshold := similarity_threshold self.

Lemma not_dropped_inv (acc : list Article) (a : Article) :
  Spec.dropped cache threshold acc a = false →
  (hash a ∉ cache)
  ∧ ∀ b, b ∈ acc → hash b ≠ hash a ∧ ¬ similar_titles threshold a b.
Proof.
  intros Hd.
  assert (Hn : ¬ (hash a ∈ cache
                  ∨ ∃ b, b ∈ acc
                         ∧ (hash b = hash a ∨ similar_titles threshold a b))).
  { intros H. apply (proj2 (dropped_iff self acc a)) in H.
    fold cache threshold in H. congruence. }
  split; [intros H; apply Hn; auto|].
  intros b Hb. split; intros H; apply Hn; right; exists b; auto.
Qed.

(** The accepted articles have pairwise distinct fingerprints, none of
    them shared with [acc], and none has a title similar to that of an
    article accepted before it. *)
Lemma single_pass_distinct (input acc : list Article) :
  let out := Spec.single_pass cache threshold acc input in
  (∀ a b, a ∈ out → b ∈ acc →
     hash b ≠ hash a ∧ ¬ similar_titles threshold a b)
  ∧ NoDup (map hash out)
  ∧ (∀ i j a b, out !! i = Some b → out !! j = Some a → (i < j)%nat →
       ¬ similar_titles threshold a b).
Proof.
  revert acc. induction input as [|x input IH]; intros acc; simpl.
  - split; [intros a b Ha; apply not_elem_of_nil in Ha; contradiction|].
    split; [constructor|]. intros i j a b Hi. discriminate.
  - destruct (Spec.dropped cache threshold acc x) eqn:Hd; [apply IH|].
    destruct (not_dropped_inv acc x Hd) as [_ Hx].
    destruct (IH (acc ++ [x])) as (Hacc & Hnd & Hpair).
    split; [|split].
    + intros a b Ha Hb. apply elem_of_cons in Ha as [->|Ha]; [apply Hx, Hb|].
      apply (Hacc a b Ha). apply elem_of_app. auto.
    + cbn [map]. constructor; [|exact Hnd].
      rewrite list_elem_of_fmap. intros (a & He & Ha).
      destruct (Hacc a x Ha) as [Hne _]; [|congruence].
      apply elem_of_app. right. apply list_elem_of_singleton. reflexivity.
    + intros i j a b Hi Hj Hlt. destruct j as [|j]; [lia|].
      cbn in Hj. destruct i as [|i].
      * cbn in Hi. injection Hi as <-.
        apply list_elem_of_lookup_2 in Hj.
        apply (Hacc a x Hj). apply elem_of_app. right.
        apply list_elem_of_singleton. reflexivity.
      * cbn in Hi. apply (Hpair i j a b Hi Hj). lia.
Qed.

(** Running the pass on its own result changes nothing. *)
Lemma single_pass_idempotent (input acc : list Article) :
  Spec.single_pass cache threshold acc
    (Spec.single_pass cache threshold acc input)
  = Spec.single_pass cache threshold acc input.
Proof.
  revert acc. induction input as [|x input IH]; intros acc; [reflexivity|].
  cbn [Spec.single_pass].
  destruct (Spec.dropped cache threshold acc x) eqn:Hd; [apply IH|].
  cbn [Spec.single_pass]. rewrite Hd, IH. reflexivity.
Qed.

End DedupOutput.

(** X1: with deduplication enabled, the articles that [deduplicate]
    returns have pairwise distinct fingerprints, none of which is in the
    loaded cache set, and no returned article has a title similar to that
    of one returned before it. *)
Theorem deduplicate_output_distinct cfg self now later articles w :
  settings.deduplication_enabled cfg = true →
  let out := (Deduplicator.deduplicate cfg self now later articles w).1 in
  NoDup (map hash out)
  ∧ (∀ a, a ∈ out → hash a ∉ Deduplicator.seen_hashes self)
  ∧ (∀ i j a b, out !! i = Some b → out !! j = Some a → (i < j)%nat →
       ¬ similar_titles (Deduplicator.similarity_threshold self) a b).
Proof.
  intros Hon out. subst out. rewrite deduplicate_enabled by exact Hon.
  cbn [fst].
  destruct (single_pass_distinct self articles []) as (_ & Hnd & Hpair).
  split; [exact Hnd|]. split; [|exact Hpair].
  intros a Ha. apply (single_pass_elem self [] articles a Ha).
Qed.

Lemma deduplicate_output_distinct_witness :
  NoDup (map hash
           (Deduplicator.deduplicate Sample.cfg Sample.fresh_deduplicator
              (Sample.reading 1) (Sample.reading 2)
              [Sample.gpt5; Sample.gpt5_caps; Sample.tesla_new; Sample.tesla]
              Sample.fresh_world).1).
Proof.
  apply (deduplicate_output_distinct Sample.cfg Sample.fresh_deduplicator
           (Sample.reading 1) (Sample.reading 2)
           [Sample.gpt5; Sample.gpt5_caps; Sample.tesla_new; Sample.tesla]
           Sample.fresh_world eq_refl).
Defined.

(** X2: with deduplication enabled, asking the same [Deduplicator] to
    deduplicate a list it has returned gives that list back: the set it
    checks fingerprints against is the one loaded at construction, which
    [deduplicate] does not update. *)
Theorem deduplicate_idempotent cfg self now later now' later' articles w w' :
  settings.deduplication_enabled cfg = true →
  let out := (Deduplicator.deduplicate cfg self now later articles w).1 in
  (Deduplicator.deduplicate cfg self now' later' out w').1 = out.
Proof.
  intros Hon out. subst out. rewrite !deduplicate_enabled by exact Hon.
  cbn [fst]. apply single_pass_idempotent.
Qed.

Lemma deduplicate_idempotent_witness :
  (Deduplicator.deduplicate Sample.cfg Sample.fresh_deduplicator
     (Sample.reading 3) (Sample.reading 4)
     (Deduplicator.deduplicate Sample.cfg Sample.fresh_deduplicator
        (Sample.reading 1) (Sample.reading 2)
        [Sample.tesla_new; Sample.tesla; Sample.gpt5] Sample.fresh_world).1
     Sample.fresh_world).1
  = [Sample.tesla_new; Sample.gpt5].
Proof.
  rewrite (deduplicate_idempotent Sample.cfg Sample.fresh_deduplicator
             (Sample.reading 1) (Sample.reading 2) (Sample.reading 3)
             (Sample.reading 4) [Sample.tesla_new; Sample.tesla; Sample.gpt5]
             Sample.fresh_world Sample.fresh_world eq_refl).
  vm_compute. reflexivity.
Defined.

(** ** What [_save_cache] writes *)

Section SaveCache.

Import Deduplicator.

(** X3: one value of the cache file that does not read as a timestamp,
    under a key that is not a fingerprint of the batch, makes
    [_save_cache] give up before writing: the file keeps its content, no
    write is attempted, and so nothing that [deduplicate] accepts is
    remembered; [_load_cache] skips the value silently. *)
Theorem unreadable_timestamp_blocks_save
    cfg self now later articles w m h :
  cache_file w = Mapping m →
  m !! h = Some BadTimestamp →
  h ∉ map hash articles →
  cache_file (_save_cache self now later articles w) = cache_file w
  ∧ trace (_save_cache self now later articles w)
    = trace w ++ [EvExists; EvRead]
  ∧ (settings.deduplication_enabled cfg = true →
     cache_file (deduplicate cfg self now later articles w).2 = cache_file w)
  ∧ (h ∉ seen_hashes (__init__ cfg now w).1).
Proof.
  intros Hf Hh Hnew.
  assert (Hsave : ∀ l, h ∉ map hash l →
            _save_cache self now later l w = log EvRead (log EvExists w)).
  { intros l Hl. unfold _save_cache. rewrite Hf.
    rewrite bool_decide_false; [reflexivity|].
    intros Hall. apply (Hall h BadTimestamp); [|reflexivity].
    rewrite fold_insert_lookup, bool_decide_false by exact Hl. exact Hh. }
  split; [rewrite Hsave by exact Hnew; reflexivity|].
  split; [rewrite Hsave by exact Hnew; simpl; rewrite <- app_assoc;
          reflexivity|].
  split.
  - intros Hon. rewrite deduplicate_enabled by exact Hon. cbn [snd].
    rewrite Hsave; [reflexivity|].
    rewrite list_elem_of_fmap. intros (a & He & Ha).
    apply Hnew. apply list_elem_of_fmap. exists a. split; [exact He|].
    apply (single_pass_elem self [] articles a Ha).
  - rewrite init_seen_hashes. intros (m' & ts & Hm & Hl & _).
    rewrite Hf in Hm. injection Hm as <-. rewrite Hh in Hl. discriminate.
Qed.

Lemma unreadable_timestamp_blocks_save_witness :
  let w := mkWorld (Mapping {[ "k" := BadTimestamp ]}) true [] in
  cache_file
    (deduplicate Sample.cfg Sample.fresh_deduplicator (Sample.reading 1)
       (Sample.reading 2) [Sample.gpt5] w).2
  = Mapping {[ "k" := BadTimestamp ]}.
Proof.
  intros w.
  destruct (unreadable_timestamp_blocks_save Sample.cfg
              Sample.fresh_deduplicator (Sample.reading 1) (Sample.reading 2)
              [Sample.gpt5] w {[ "k" := BadTimestamp ]} "k" eq_refl)
    as (_ & _ & H & _).
  - apply lookup_singleton_eq.
  - vm_compute. intros H. apply list_elem_of_singleton in H. discriminate.
  - apply H. reflexivity.
Defined.



End SaveCache.

(** ** Similar titles *)

Section Similarity.

Import Deduplicator.

Local Open Scope nat_scope.

Lemma next_row_length c s2 diag left up :
  length up = length s2 →
  length (Levenshtein.next_row c s2 diag left up) = length s2.
Proof.
  revert diag left up. induction s2 as [|d s2 IH]; intros diag left up Hlen.
  - reflexivity.
  - destruct up as [|u up]; [discriminate|]. simpl.
    rewrite IH; [reflexivity|]. simpl in Hlen. lia.
Qed.

(** Where the characters agree, the new cell takes the value of the cell
    to its upper left. *)
Lemma next_row_diagonal c s2 diag left up k :
  length up = length s2 →
  s2 !! k = Some c →
  Levenshtein.next_row c s2 diag left up !! k = (diag :: up) !! k.
Proof.
  revert diag left up k.
  induction s2 as [|d s2 IH]; intros diag left up k Hlen Hk;
    [discriminate|].
  destruct up as [|u up]; [discriminate|].
  destruct k as [|k].
  - simpl in Hk. injection Hk as ->. cbn [Levenshtein.next_row].
    rewrite bool_decide_true by reflexivity. reflexivity.
  - cbn [Levenshtein.next_row]. simpl in Hk. simpl in Hlen.
    change ((?x :: ?l) !! S k) with (l !! k).
    apply IH; [lia|exact Hk].
Qed.

Lemma last_default_irrelevant (l : list nat) (x d d' : nat) :
  List.last (x :: l) d = List.last (x :: l) d'.
Proof.
  revert x. induction l as [|y l IH]; intros x; [reflexivity|].
  change (List.last (y :: l) d = List.last (y :: l) d'). apply IH.
Qed.

Lemma lookup_last_default (row : list nat) (d : nat) :
  (d :: row) !! length row = Some (List.last row d).
Proof.
  revert d. induction row as [|x row IH]; intros d; [reflexivity|].
  cbn [length]. change ((d :: x :: row) !! S (length row))
    with ((x :: row) !! length row).
  rewrite IH. f_equal. destruct row as [|y row]; [reflexivity|].
  change (List.last (x :: y :: row) d) with (List.last (y :: row) d).
  apply last_default_irrelevant.
Qed.

(** The table of a string against itself keeps 0 on its diagonal. *)
Lemma table_diagonal (done todo : list ascii) (row : list nat) :
  length row = length (done ++ todo) →
  (length done :: row) !! length done = Some 0 →
  Levenshtein.table todo (done ++ todo) (length done) row = 0.
Proof.
  revert done row. induction todo as [|c todo IH]; intros done row Hlen Hd.
  - cbn [Levenshtein.table]. rewrite app_nil_r in Hlen.
    rewrite <- Hlen in Hd. rewrite lookup_last_default in Hd.
    rewrite <- Hlen. congruence.
  - cbn [Levenshtein.table].
    replace (done ++ c :: todo) with ((done ++ [c]) ++ todo)
      by (rewrite <- app_assoc; reflexivity).
    replace (S (length done)) with (length (done ++ [c]))
      by (rewrite length_app; simpl; lia).
    apply IH.
    + rewrite next_row_length; [reflexivity|].
      rewrite <- app_assoc. exact Hlen.
    + change ((?x :: ?l) !! length (done ++ [c]))
        with ((x :: l) !! length (done ++ [c])).
      rewrite length_app. cbn [length]. rewrite Nat.add_1_r.
      change ((?x :: ?l) !! S (length done)) with (l !! length done).
      rewrite next_row_diagonal.
      * exact Hd.
      * rewrite <- app_assoc. exact Hlen.
      * rewrite <- app_assoc. rewrite lookup_app_r by lia.
        rewrite Nat.sub_diag. reflexivity.
Qed.

Lemma indel_distance_self (l : list ascii) : Levenshtein.indel_distance l l = 0.
Proof.
  unfold Levenshtein.indel_distance.
  apply (table_diagonal [] l).
  - rewrite length_seq. reflexivity.
  - reflexivity.
Qed.

Local Open Scope Q_scope.

Lemma ratio_self (s : string) : Levenshtein.ratio s s == 1.
Proof.
  unfold Levenshtein.ratio. destruct (_ =? 0)%Z; [reflexivity|].
  rewrite indel_distance_self. change (inject_Z (Z.of_nat 0)) with 0.
  unfold Qdiv. rewrite Qmult_0_l. reflexivity.
Qed.

Lemma ratio_le_1 (s1 s2 : string) : Levenshtein.ratio s1 s2 <= 1.
Proof.
  unfold Levenshtein.ratio. destruct (_ =? 0)%Z eqn:Hz; [apply Qle_refl|].
  apply Z.eqb_neq in Hz.
  assert (0 <= inject_Z (Z.of_nat
            (Levenshtein.indel_distance (PyStr.chars s1) (PyStr.chars s2)))
          / inject_Z (Z.of_nat (length (PyStr.chars s1)
                                + length (PyStr.chars s2)))) as Hq.
  { apply Qle_shift_div_l.
    - unfold Qlt. simpl. lia.
    - rewrite Qmult_0_l. unfold Qle. simpl. lia. }
  lra.
Qed.

(** Equal normalised titles are similar for every threshold up to 1. *)
Lemma is_similar_same_title self t1 t2 :
  similarity_threshold self <= 1 →
  normalized_title t1 = normalized_title t2 →
  _is_similar self t1 t2 = true.
Proof.
  intros Hthr Heq. unfold _is_similar. fold (normalized_title t1).
  fold (normalized_title t2). rewrite Heq. apply Qle_bool_iff.
  rewrite ratio_self. exact Hthr.
Qed.

(** Above 1 no two titles are similar. *)
Lemma is_similar_threshold_above_1 self t1 t2 :
  1 < similarity_threshold self → _is_similar self t1 t2 = false.
Proof.
  intros Hthr. unfold _is_similar. apply not_true_is_false. intros H.
  apply Qle_bool_iff in H.
  pose proof (ratio_le_1 (PyStr.strip (PyStr.lower t1))
                (PyStr.strip (PyStr.lower t2))). lra.
Qed.

End Similarity.

(** X5: with deduplication enabled and a similarity threshold of at most
    1, no two returned articles have the same normalised (lower-cased,
    trimmed) title, whatever their URLs. *)
Theorem deduplicate_distinct_titles cfg self now later articles w :
  settings.deduplication_enabled cfg = true →
  (Deduplicator.similarity_threshold self <= 1)%Q →
  NoDup (map (λ a, normalized_title (title a))
           (Deduplicator.deduplicate cfg self now later articles w).1).
Proof.
  intros Hon Hthr. rewrite deduplicate_enabled by exact Hon. cbn [fst].
  destruct (single_pass_distinct self articles []) as (_ & _ & Hpair).
  apply NoDup_alt. intros i j t Hi Hj.
  rewrite list_lookup_fmap in Hi, Hj.
  destruct (_ !! i) as [b|] eqn:Hb; [|discriminate].
  destruct (_ !! j) as [a|] eqn:Ha; [|discriminate].
  simpl in Hi, Hj. injection Hi as Hi. injection Hj as Hj.
  assert (Hsim : ∀ x y, normalized_title (title x) = normalized_title (title y) →
            similar_titles (Deduplicator.similarity_threshold self) x y).
  { intros x y He. unfold similar_titles. rewrite He, ratio_self. exact Hthr. }
  destruct (Nat.lt_trichotomy i j) as [Hlt|[Heq|Hgt]]; [|exact Heq|].
  - exfalso. apply (Hpair i j a b Hb Ha Hlt). apply Hsim. congruence.
  - exfalso. apply (Hpair j i b a Ha Hb Hgt). apply Hsim. congruence.
Qed.

Lemma deduplicate_distinct_titles_witness :
  NoDup (map (λ a, normalized_title (title a))
           (Deduplicator.deduplicate Sample.cfg Sample.fresh_deduplicator
              (Sample.reading 1) (Sample.reading 2)
              [Sample.gpt5; Sample.gpt5_caps; Sample.tesla_new]
              Sample.fresh_world).1).
Proof.
  apply (deduplicate_distinct_titles Sample.cfg Sample.fresh_deduplicator
           (Sample.reading 1) (Sample.reading 2)
           [Sample.gpt5; Sample.gpt5_caps; Sample.tesla_new]
           Sample.fresh_world eq_refl).
  vm_compute. discriminate.
Defined.

Section ExactOnly.

Import Deduplicator.

Variable self : Deduplicator.t.
Hypothesis above_1 : (1 < similarity_threshold self)%Q.

Lemma near_duplicate_never (acc : list Article) (a : Article) :
  Spec.near_duplicate (similarity_threshold self) acc a = false.
Proof.
  rewrite <- near_check_spec. induction acc as [|b acc IH]; [reflexivity|].
  cbn [map existsb]. rewrite IH, is_similar_threshold_above_1 by exact above_1.
  reflexivity.
Qed.

Lemma single_pass_exact_only (input acc : list Article) :
  Spec.single_pass (seen_hashes self) (similarity_threshold self) acc input
  = first_of_each_hash (seen_hashes self ∪ list_to_set (map hash acc)) input.
Proof.
  revert acc. induction input as [|a input IH]; intros acc; [reflexivity|].
  cbn [Spec.single_pass first_of_each_hash].
  unfold Spec.dropped, Spec.exact_duplicate.
  rewrite near_duplicate_never, orb_false_r, <- hash_check_spec.
  assert (Hb : bool_decide (hash a ∈ seen_hashes self)
               || bool_decide (hash a ∈ (list_to_set (map hash acc)
                                           : gset string))
               = bool_decide (hash a ∈ seen_hashes self
                                       ∪ list_to_set (map hash acc))).
  { destruct (decide (hash a ∈ seen_hashes self)) as [H1|H1].
    - rewrite (bool_decide_true _ H1). symmetry.
      apply bool_decide_eq_true. apply elem_of_union. auto.
    - rewrite (bool_decide_false _ H1). simpl. apply bool_decide_ext.
      rewrite elem_of_union. tauto. }
  rewrite Hb. clear Hb.
  destruct (bool_decide (hash a ∈ seen_hashes self
                                  ∪ list_to_set (map hash acc)));
    [apply IH|].
  f_equal. rewrite IH. f_equal.
  rewrite map_app, list_to_set_app_L. cbn [map list_to_set].
  rewrite (right_id_L ∅ (∪)).
  rewrite (comm_L (∪) {[hash a]}), (assoc_L (∪)). reflexivity.
Qed.

End ExactOnly.

(** X6: a similarity threshold above 1 switches the near-duplicate check
    off: with deduplication enabled, [deduplicate] then returns, in
    order, the first article of each fingerprint that is not in the
    loaded cache set. *)
Theorem deduplicate_threshold_above_1 cfg self now later articles w :
  settings.deduplication_enabled cfg = true →
  (1 < Deduplicator.similarity_threshold self)%Q →
  (Deduplicator.deduplicate cfg self now later articles w).1
  = first_of_each_hash (Deduplicator.seen_hashes self) articles.
Proof.
  intros Hon Hthr. rewrite deduplicate_enabled by exact Hon. cbn [fst].
  rewrite single_pass_exact_only by exact Hthr.
  cbn [map list_to_set]. rewrite (right_id_L ∅ (∪)). reflexivity.
Qed.

Lemma deduplicate_threshold_above_1_witness :
  (Deduplicator.deduplicate Sample.cfg
     (Deduplicator.mk (11 # 10) 7 ∅)
     (Sample.reading 1) (Sample.reading 2)
     [Sample.tesla_new; Sample.tesla; Sample.tesla_new] Sample.fresh_world).1
  = [Sample.tesla_new; Sample.tesla].
Proof.
  rewrite (deduplicate_threshold_above_1 Sample.cfg
             (Deduplicator.mk (11 # 10) 7 ∅)); [|reflexivity|reflexivity].
  vm_compute. reflexivity.
Defined.

(* ====================================================================== *)
(** * Further properties of the filter *)
(* ====================================================================== *)

Section FilterResult.

Import ArticleFilter.

Lemma slice_to_take {A : Type} (l : list A) (n : Z) :
  ∃ k, slice_to l n = take k l
       ∧ (k = 0%nat ↔ n = 0 ∨ n <= - Z.of_nat (length l)).
Proof.
  unfold slice_to. destruct (0 <=? n)%Z eqn:Hn.
  - apply Z.leb_le in Hn. exists (Z.to_nat n). split; [reflexivity|]. lia.
  - apply Z.leb_gt in Hn. exists (Z.to_nat (Z.of_nat (length l) + n)).
    split; [reflexivity|]. lia.
Qed.

Lemma StronglySorted_prefix {A : Type} (R : A → A → Prop) (l1 l2 : list A) :
  StronglySorted R (l1 ++ l2) → StronglySorted R l1.
Proof.
  induction l1 as [|x l1 IH]; intros Hs; [constructor|].
  simpl in Hs. apply StronglySorted_inv in Hs as [Hs Hx].
  constructor; [apply IH, Hs|].
  apply Forall_app in Hx. apply Hx.
Qed.

Lemma survivors_spec cfg self now articles (heap : list Article) l :
  l ∈ survivors cfg self now articles heap ↔
  l ∈ articles
  ∧ _should_exclude self (heap !!! l) = false
  ∧ is_recent cfg now (heap !!! l) = true.
Proof.
  unfold survivors. rewrite !list_elem_of_In, !filter_In, negb_true_iff.
  tauto.
Qed.

(** X7: whenever [filter_and_rank] returns, for any configured cap, the
    list it returns is a prefix of the ranked candidates: its scores
    never increase, each of its articles belongs to the batch, is not
    excluded, passes the age test and has a stored score of at least the
    minimum; and it has no repetition when the batch has none. *)
Theorem filter_and_rank_result cfg self now clock articles heap out :
  (filter_and_rank cfg self now clock articles heap).2 = Returns out →
  let scored := (filter_and_rank cfg self now clock articles heap).1 in
  let key x := relevance_score (scored !!! x) in
  let candidates :=
    meeting_min_score self scored (survivors cfg self now articles heap) in
  out `prefix_of` sorted_reverse key candidates
  ∧ StronglySorted (not_below key) out
  ∧ (∀ l, l ∈ out →
       l ∈ articles
       ∧ _should_exclude self (heap !!! l) = false
       ∧ is_recent cfg now (heap !!! l) = true
       ∧ (min_score self <= key l)%Q)
  ∧ (NoDup articles → NoDup out).
Proof.
  intros Hret scored key candidates.
  assert (Hpre : out `prefix_of` sorted_reverse key candidates).
  { rewrite filter_and_rank_outcome in Hret. fold scored in Hret.
    fold candidates in Hret. fold key in Hret.
    destruct (is_empty candidates).
    - injection Hret as <-. apply prefix_nil.
    - destruct (is_empty _); [discriminate|]. injection Hret as <-.
      destruct (slice_to_take (sorted_reverse key candidates)
                  (max_articles self)) as (k & -> & _).
      apply prefix_take. }
  split; [exact Hpre|].
  destruct Hpre as [rest Hrest].
  split.
  { apply (StronglySorted_prefix _ out rest). rewrite <- Hrest.
    apply sorted_reverse_sorted. }
  assert (Hcand : ∀ l, l ∈ out → l ∈ candidates).
  { intros l Hl. rewrite <- (sorted_reverse_perm key candidates), Hrest.
    apply elem_of_app. auto. }
  split.
  - intros l Hl. apply Hcand in Hl. unfold candidates, meeting_min_score in Hl.
    rewrite list_elem_of_In in Hl. apply filter_In in Hl as [Hs Hm].
    apply list_elem_of_In, survivors_spec in Hs as (Ha & He & Hr).
    apply Qle_bool_iff in Hm. auto.
  - intros Hnd.
    assert (NoDup (sorted_reverse key candidates)) as Hn.
    { rewrite (sorted_reverse_perm key candidates).
      apply NoDup_ListNoDup. unfold candidates, meeting_min_score, survivors.
      repeat apply List.NoDup_filter. apply NoDup_ListNoDup, Hnd. }
    rewrite Hrest in Hn. apply NoDup_app in Hn. apply Hn.
Qed.

Lemma filter_and_rank_result_witness :
  ∃ out, (SampleStore.run (-1)).2 = Returns out
         ∧ Forall (λ l, l ∈ SampleStore.batch) out
         ∧ NoDup out.
Proof.
  exists [0; 1]%nat.
  assert (Hret : (SampleStore.run (-1)).2 = Returns [0; 1]%nat)
    by (vm_compute; reflexivity).
  destruct (filter_and_rank_result (SampleStore.with_max_articles (-1))
              (ArticleFilter.__init__ (SampleStore.with_max_articles (-1)))
              SampleStore.now (λ _, SampleStore.now) SampleStore.batch
              SampleStore.heap [0; 1]%nat Hret) as (_ & _ & Hin & Hnd).
  split; [exact Hret|]. split.
  - apply Forall_forall. intros l Hl. apply Hin, Hl.
  - apply Hnd. unfold SampleStore.batch. apply NoDup_ListNoDup.
    repeat (constructor; [simpl; intuition lia|]). constructor.
Defined.


End FilterResult.

Section ScoreFloor.

Import ArticleFilter.

Local Open Scope Q_scope.

Lemma recency_multiplier_ge_1 weight age :
  1 <= weight → 1 <= Spec.recency_multiplier weight age.
Proof.
  intros Hw. unfold Spec.recency_multiplier.
  destruct age as [age|]; [|lra].
  destruct (age <=? hours 24)%Z; [exact Hw|].
  destruct (age <=? hours 48)%Z; lra.
Qed.

(** With a recency weight of at least 1 no score is below 0.5, the
    reputation of an unknown source. *)
Lemma relevance_score_floor cfg now a :
  1 <= settings.recency_weight cfg →
  1 # 2 <= calculate_relevance_score cfg (__init__ cfg) now a.
Proof.
  intros Hw. unfold calculate_relevance_score. rewrite recency_boost_spec.
  pose proof (keyword_score_nonneg (__init__ cfg) (title a)) as Ht.
  pose proof (keyword_score_nonneg (__init__ cfg) (or_empty (description a)))
    as Hd.
  destruct (reputation_spec cfg (source a)) as [[Hr _] _].
  pose proof (recency_multiplier_ge_1 (settings.recency_weight cfg)
                (option_map (boost_age now) (published_at a)) Hw) as Hm.
  set (base := 0 + _calculate_keyword_score (__init__ cfg) (title a) * 3
               + _calculate_keyword_score (__init__ cfg)
                   (or_empty (description a)) * 1
               + _get_source_reputation_score (__init__ cfg) (source a)) in *.
  set (m := Spec.recency_multiplier _ _) in *.
  assert (Hb : 1 # 2 <= base) by (unfold base; lra).
  assert (0 <= base * (m - 1)) as Hp by (apply Qmult_le_0_compat; lra).
  lra.
Qed.

Lemma filter_all {A : Type} (f : A → bool) (l : list A) :
  (∀ x, x ∈ l → f x = true) → List.filter f l = l.
Proof.
  induction l as [|x l IH]; intros Hf; [reflexivity|].
  simpl. rewrite Hf by (apply elem_of_cons; auto). f_equal.
  apply IH. intros y Hy. apply Hf, elem_of_cons. auto.
Qed.

End ScoreFloor.



(* ====================================================================== *)
(** * Grouping by category *)
(* ====================================================================== *)

Lemma fold_group_step (l : list Article) (g : gmap string (list Article))
    (c : string) :
  fold_left group_step l g !! c
  = match g !! c with
    | Some x => Some (x ++ of_category c l)
    | None => None
    end.
Proof.
  revert g. induction l as [|a l IH]; intros g.
  - simpl. destruct (g !! c); [rewrite app_nil_r|]; reflexivity.
  - cbn [fold_left]. rewrite IH. unfold group_step, of_category.
    cbn [List.filter].
    destruct (decide (category a = c)) as [<-|Hne].
    + rewrite bool_decide_true by reflexivity.
      destruct (g !! category a) as [x|] eqn:Hg.
      * rewrite lookup_insert_eq, <- app_assoc. reflexivity.
      * rewrite Hg. reflexivity.
    + rewrite bool_decide_false by exact Hne.
      destruct (g !! category a) as [x|] eqn:Hg; [|reflexivity].
      rewrite lookup_insert_ne by exact Hne. reflexivity.
Qed.

(** X10: [group_by_category] returns a dictionary with the four keys
    "top", "ai", "robotics" and "research" only.  Under each of the three
    category keys are the articles of that category, in the order of the
    list; under "top" are the first five articles followed by the
    articles whose category is literally "top".  An article of any other
    category appears under "top" at most. *)
Theorem group_by_category_spec (articles : list Article) :
  let grouped := group_by_category articles in
  grouped !! "top" = Some (take 5 articles ++ of_category "top" articles)
  ∧ grouped !! "ai" = Some (of_category "ai" articles)
  ∧ grouped !! "robotics" = Some (of_category "robotics" articles)
  ∧ grouped !! "research" = Some (of_category "research" articles)
  ∧ (∀ c, c ∉ ["top"; "ai"; "robotics"; "research"] → grouped !! c = None)
  ∧ (∀ c l a, grouped !! c = Some l → a ∈ l →
       a ∈ articles
       ∧ (category a = c ∨ (c = "top" ∧ a ∈ take 5 articles))).
Proof.
  intros grouped.
  assert (Hkey : ∀ c,
    grouped !! c
    = if decide (c = "top") then
        Some (take 5 articles ++ of_category c articles)
      else if decide (c ∈ ["ai"; "robotics"; "research"]) then
        Some (of_category c articles)
      else None).
  { intros c. unfold grouped, group_by_category. rewrite fold_group_step.
    destruct (decide (c = "top")) as [->|Htop].
    - rewrite lookup_insert_eq. reflexivity.
    - rewrite lookup_insert_ne by congruence.
      rewrite lookup_insert_ne by congruence.
      destruct (decide (c ∈ ["ai"; "robotics"; "research"])) as [Hin|Hout].
      + repeat (apply elem_of_cons in Hin as [->|Hin]; [reflexivity|]).
        apply not_elem_of_nil in Hin. contradiction.
      + repeat (rewrite lookup_insert_ne;
                [|intros <-; apply Hout; repeat constructor]).
        rewrite lookup_singleton_ne; [reflexivity|].
        intros <-. apply Hout. repeat constructor. }
  split; [rewrite Hkey; reflexivity|].
  split; [rewrite Hkey; reflexivity|].
  split; [rewrite Hkey; reflexivity|].
  split; [rewrite Hkey; reflexivity|].
  split.
  - intros c Hc. rewrite Hkey.
    destruct (decide (c = "top")) as [->|Htop];
      [exfalso; apply Hc; repeat constructor|].
    destruct (decide _) as [Hin|]; [|reflexivity].
    exfalso. apply Hc. apply elem_of_cons. auto.
  - intros c l a Hl Ha. rewrite Hkey in Hl.
    assert (Hcat : ∀ x, x ∈ of_category c articles →
              x ∈ articles ∧ category x = c).
    { intros x Hx. unfold of_category in Hx. rewrite list_elem_of_In in Hx.
      apply filter_In in Hx as [Hx Hb]. apply bool_decide_eq_true in Hb.
      rewrite list_elem_of_In. auto. }
    destruct (decide (c = "top")) as [->|Htop].
    + injection Hl as <-. apply elem_of_app in Ha as [Ha|Ha].
      * split; [|auto]. eapply elem_of_sublist; [exact Ha|].
        apply sublist_take.
      * destruct (Hcat a Ha). auto.
    + destruct (decide _); [|discriminate]. injection Hl as <-.
      destruct (Hcat a Ha). auto.
Qed.

Example group_by_category_top_category :
  let a := mkArticle "t" None "http://x" None "s" "top" None "h" 0%Q in
  let b := mkArticle "u" None "http://y" None "s" "news" None "k" 0%Q in
  group_by_category [b; b; b; b; b; b; a]
  = {[ "top" := [b; b; b; b; b; a]; "ai" := []; "robotics" := [];
       "research" := [] ]}.
Proof. vm_compute. reflexivity. Qed.

(* ====================================================================== *)
(** * The age label of an article *)
(* ====================================================================== *)

Section TimeAgo.

Lemma delta_fields_small delta :
  0 <= delta < 86400000000 →
  delta_days delta = 0
  ∧ delta_seconds delta / 3600 = delta / 3600000000
  ∧ delta_seconds delta / 60 = delta / 60000000.
Proof.
  intros H. unfold delta_days, delta_seconds.
  rewrite Z.div_small, Z.mod_small by lia.
  rewrite !Z.div_div by lia. auto.
Qed.

(** X11: for a dated article that is not dated in the future,
    [get_time_ago] names the age in its largest unit, rounded down:
    "Just now" below one minute, then whole minutes below one hour,
    whole hours below one day, and whole days from there on, with the
    singular for exactly one.  An undated article is "Recently". *)
Theorem get_time_ago_units now (a : Article) :
  (published_at a = None → get_time_ago now a = "Recently")
  ∧ ∀ p, published_at a = Some p →
      let age := ArticleFilter.boost_age now p in
      0 <= age →
      (age < 60000000 → get_time_ago now a = "Just now")
      ∧ (60000000 <= age < 3600000000 →
         get_time_ago now a
         = if (age / 60000000 =? 1)%Z then "1 minute ago"
           else str_of_int (age / 60000000) +:+ " minutes ago")
      ∧ (3600000000 <= age < 86400000000 →
         get_time_ago now a
         = if (age / 3600000000 =? 1)%Z then "1 hour ago"
           else str_of_int (age / 3600000000) +:+ " hours ago")
      ∧ (86400000000 <= age →
         get_time_ago now a
         = if (age / 86400000000 =? 1)%Z then "1 day ago"
           else str_of_int (age / 86400000000) +:+ " days ago").
Proof.
  split; [intros H; unfold get_time_ago; rewrite H; reflexivity|].
  intros p Hp age Hage. unfold get_time_ago. rewrite Hp. fold age.
  unfold time_ago.
  split; [|split; [|split]]; intros H.
  - destruct (delta_fields_small age) as (-> & -> & ->); [lia|].
    rewrite !Z.div_small by lia. reflexivity.
  - destruct (delta_fields_small age) as (-> & -> & ->); [lia|].
    rewrite (Z.div_small age 3600000000) by lia. cbn [Z.ltb Z.compare].
    rewrite (proj2 (Z.ltb_lt 0 (age / 60000000))); [reflexivity|].
    apply Z.div_str_pos. lia.
  - destruct (delta_fields_small age) as (-> & -> & _); [lia|].
    cbn [Z.ltb Z.compare].
    rewrite (proj2 (Z.ltb_lt 0 (age / 3600000000))); [reflexivity|].
    apply Z.div_str_pos. lia.
  - unfold delta_days.
    rewrite (proj2 (Z.ltb_lt 0 (age / 86400000000))); [reflexivity|].
    apply Z.div_str_pos. lia.
Qed.

Lemma get_time_ago_units_witness :
  let a := SampleStore.aged "AI" None "A blog" (Some 120) in
  get_time_ago SampleStore.now a = "5 days ago".
Proof.
  intros a.
  destruct (get_time_ago_units SampleStore.now a) as [_ H].
  destruct (H (mkDatetime (hours 1000 - hours 120) None) eq_refl)
    as (_ & _ & _ & Hd); [vm_compute; discriminate|].
  rewrite Hd; [|vm_compute; discriminate].
  vm_compute. reflexivity.
Defined.

(** X12: an article dated in the future is never labelled in days: the
    negative difference has a negative [days] field, and the label is
    read off the [seconds] field alone, that is off the difference taken
    modulo one day.  An article dated one hour ahead reads "23 hours
    ago". *)
Theorem get_time_ago_future now (a : Article) p :
  published_at a = Some p →
  ArticleFilter.boost_age now p < 0 →
  get_time_ago now a = time_ago (ArticleFilter.boost_age now p mod 86400000000)
  ∧ 0 <= ArticleFilter.boost_age now p mod 86400000000 < 86400000000
  ∧ (- 86400000000 <= ArticleFilter.boost_age now p →
     get_time_ago now a
     = time_ago (ArticleFilter.boost_age now p + 86400000000)).
Proof.
  intros Hp Hneg. unfold get_time_ago. rewrite Hp.
  set (age := ArticleFilter.boost_age now p) in *.
  assert (Hm : 0 <= age mod 86400000000 < 86400000000)
    by (apply Z.mod_pos_bound; lia).
  assert (Heq : time_ago age = time_ago (age mod 86400000000)).
  { unfold time_ago, delta_seconds. rewrite Z.mod_mod by lia.
    assert (delta_days age < 0) as Hd
      by (unfold delta_days; apply Z.div_lt_upper_bound; lia).
    assert (delta_days (age mod 86400000000) = 0) as Hd'
      by (unfold delta_days; apply Z.div_small; exact Hm).
    rewrite Hd'. rewrite (proj2 (Z.ltb_ge 0 (delta_days age))) by lia.
    reflexivity. }
  split; [exact Heq|]. split; [exact Hm|].
  intros Hday. rewrite Heq. f_equal.
  rewrite <- (Z.mod_small (age + 86400000000) 86400000000) by lia.
  rewrite <- (Z_mod_plus_full age 1 86400000000). reflexivity.
Qed.

Lemma get_time_ago_future_witness :
  let a := mkArticle "t" None "http://x"
             (Some (mkDatetime (hours 1001) None)) "s" "ai" None "h" 0%Q in
  get_time_ago SampleStore.now a = "23 hours ago".
Proof.
  intros a.
  destruct (get_time_ago_future SampleStore.now a
              (mkDatetime (hours 1001) None) eq_refl) as (_ & _ & H).
  - vm_compute. reflexivity.
  - rewrite H; [|vm_compute; discriminate]. vm_compute. reflexivity.
Defined.

End TimeAgo.

(* ====================================================================== *)
(** * Normalised titles *)
(* ====================================================================== *)

Section Normalisation.

Lemma chars_str (l : list ascii) : PyStr.chars (PyStr.str l) = l.
Proof. apply list_ascii_of_string_of_list_ascii. Qed.

Lemma lower_char_idempotent c :
  PyStr.lower_char (PyStr.lower_char c) = PyStr.lower_char c.
Proof. destruct c as [[] [] [] [] [] [] [] []]; vm_compute; reflexivity. Qed.

(** Lower-casing neither makes nor removes a space. *)
Lemma is_space_lower_char c :
  PyStr.is_space (PyStr.lower_char c) = PyStr.is_space c.
Proof. destruct c as [[] [] [] [] [] [] [] []]; vm_compute; reflexivity. Qed.

Lemma lower_idempotent s : PyStr.lower (PyStr.lower s) = PyStr.lower s.
Proof.
  unfold PyStr.lower. rewrite chars_str, map_map. f_equal.
  apply map_ext. intros c. apply lower_char_idempotent.
Qed.

Lemma lstrip_map_lower l :
  PyStr.lstrip_chars (map PyStr.lower_char l)
  = map PyStr.lower_char (PyStr.lstrip_chars l).
Proof.
  induction l as [|c l IH]; [reflexivity|].
  cbn [map PyStr.lstrip_chars]. rewrite is_space_lower_char.
  destruct (PyStr.is_space c); [exact IH|reflexivity].
Qed.

Lemma strip_map_lower l :
  PyStr.strip_chars (map PyStr.lower_char l)
  = map PyStr.lower_char (PyStr.strip_chars l).
Proof.
  unfold PyStr.strip_chars.
  rewrite lstrip_map_lower, <- map_rev, lstrip_map_lower, map_rev.
  reflexivity.
Qed.

(** A list that does not begin with a space. *)
Let no_lead (l : list ascii) : Prop :=
  match l with
  | c :: _ => PyStr.is_space c = false
  | [] => True
  end.

Lemma lstrip_no_lead l : no_lead (PyStr.lstrip_chars l).
Proof.
  induction l as [|c l IH]; [exact I|].
  cbn [PyStr.lstrip_chars]. destruct (PyStr.is_space c) eqn:Hc;
    [exact IH|exact Hc].
Qed.

Lemma lstrip_fixed l : no_lead l → PyStr.lstrip_chars l = l.
Proof.
  destruct l as [|c l]; [reflexivity|]. simpl. intros ->. reflexivity.
Qed.

(** What [lstrip] removes is a prefix. *)
Lemma lstrip_suffix l : ∃ pre, l = pre ++ PyStr.lstrip_chars l.
Proof.
  induction l as [|c l [pre IH]]; [exists []; reflexivity|].
  cbn [PyStr.lstrip_chars]. destruct (PyStr.is_space c).
  - exists (c :: pre). simpl. f_equal. exact IH.
  - exists []. reflexivity.
Qed.

Lemma no_lead_prefix l1 l2 : no_lead (l1 ++ l2) → no_lead l1.
Proof. destruct l1; [intros; exact I|exact (λ H, H)]. Qed.

Lemma strip_no_lead l : no_lead (PyStr.strip_chars l).
Proof.
  unfold PyStr.strip_chars.
  destruct (lstrip_suffix (rev (PyStr.lstrip_chars l))) as [pre Hpre].
  apply (no_lead_prefix _ (rev pre)). rewrite <- rev_app_distr, <- Hpre.
  rewrite rev_involutive. apply lstrip_no_lead.
Qed.

Lemma strip_no_trail l : no_lead (rev (PyStr.strip_chars l)).
Proof.
  unfold PyStr.strip_chars. rewrite rev_involutive. apply lstrip_no_lead.
Qed.

Lemma strip_chars_idempotent l :
  PyStr.strip_chars (PyStr.strip_chars l) = PyStr.strip_chars l.
Proof.
  pose proof (strip_no_lead l) as H1. pose proof (strip_no_trail l) as H2.
  set (z := PyStr.strip_chars l) in *. unfold PyStr.strip_chars.
  rewrite (lstrip_fixed z H1), (lstrip_fixed (rev z) H2).
  apply rev_involutive.
Qed.

Lemma strip_idempotent s : PyStr.strip (PyStr.strip s) = PyStr.strip s.
Proof.
  unfold PyStr.strip. rewrite chars_str, strip_chars_idempotent. reflexivity.
Qed.

Lemma lower_strip s : PyStr.lower (PyStr.strip s) = PyStr.strip (PyStr.lower s).
Proof.
  unfold PyStr.lower, PyStr.strip. rewrite !chars_str, strip_map_lower.
  reflexivity.
Qed.

Lemma normalized_title_lower t :
  normalized_title (PyStr.lower t) = normalized_title t.
Proof. unfold normalized_title. rewrite lower_idempotent. reflexivity. Qed.

Lemma normalized_title_strip t :
  normalized_title (PyStr.strip t) = normalized_title t.
Proof.
  unfold normalized_title. rewrite lower_strip, strip_idempotent. reflexivity.
Qed.

Lemma normalized_title_idempotent t :
  normalized_title (normalized_title t) = normalized_title t.
Proof.
  unfold normalized_title at 2.
  rewrite normalized_title_strip, normalized_title_lower. reflexivity.
Qed.

End Normalisation.

(** X13: the fingerprint does not see the case of the title nor the
    whitespace around it: two articles constructed without a [hash]
    argument, with the same URL, one with title [t] and the other with
    [t] lower-cased, stripped (the clean title) or normalised, carry the
    same fingerprint. *)
Theorem fingerprint_ignores_case_and_margin
    t d1 u p1 s1 c1 i1 r1 t' d2 p2 s2 c2 i2 r2 (A B : Article) :
  Article_new t d1 u p1 s1 c1 i1 default_hash r1 = Some A →
  Article_new t' d2 u p2 s2 c2 i2 default_hash r2 = Some B →
  t' = PyStr.lower t ∨ t' = get_clean_title A ∨ t' = normalized_title t →
  hash A = hash B.
Proof.
  intros HA HB Ht'.
  destruct (Article_new_fields _ _ _ _ _ _ _ _ _ _ HA) as (HtA & HuA & HvA).
  destruct (Article_new_fields _ _ _ _ _ _ _ _ _ _ HB) as (HtB & HuB & HvB).
  assert (Hn : normalized_title (title A) = normalized_title (title B)).
  { rewrite HtA, HtB. unfold get_clean_title in Ht'. rewrite HtA in Ht'.
    destruct Ht' as [-> | [-> | ->]].
    - symmetry. apply normalized_title_lower.
    - symmetry. apply normalized_title_strip.
    - symmetry. apply normalized_title_idempotent. }
  assert (Hh : ∀ x dd pp ss cc ii rr X,
            Article_new x dd u pp ss cc ii default_hash rr = Some X →
            hash X = generate_hash X).
  { intros x dd pp ss cc ii rr X HX. unfold Article_new in HX.
    rewrite HvA in HX. injection HX as <-.
    rewrite model_post_init_default by reflexivity.
    apply generate_hash_pure;
      [f_equal|]; symmetry; apply model_post_init_fields. }
  rewrite (Hh _ _ _ _ _ _ _ _ HA), (Hh _ _ _ _ _ _ _ _ HB).
  apply generate_hash_pure; [exact Hn|congruence].
Qed.

Lemma fingerprint_ignores_case_and_margin_witness :
  hash (Sample.article "  OpenAI Releases GPT-5 " "https://a.example/gpt5")
  = hash (Sample.article "openai releases gpt-5" "https://a.example/gpt5").
Proof.
  apply (fingerprint_ignores_case_and_margin
           "  OpenAI Releases GPT-5 " None "https://a.example/gpt5" None
           "Wired" "robotics" None 0%Q
           "openai releases gpt-5" None None "Wired" "robotics" None 0%Q);
    [reflexivity | reflexivity |].
  right. right. vm_compute. reflexivity.
Defined.

(* ====================================================================== *)
(** * Summaries *)
(* ====================================================================== *)

Section Summaries.

Import AISummarizer.

Variable openai : service.
Variable self : AISummarizer.t.

(** A description written by the service: not empty, no space around. *)
Let written (d : option string) : Prop :=
  ∃ s, d = Some s ∧ PyStr.truthy s = true ∧ PyStr.strip s = s.

Lemma same_but_description_refl a : same_but_description a a.
Proof. repeat split. Qed.

Lemma same_but_description_trans a b c :
  same_but_description a b → same_but_description b c →
  same_but_description a c.
Proof.
  unfold same_but_description.
  intros (?&?&?&?&?&?&?&?) (?&?&?&?&?&?&?&?). repeat split; congruence.
Qed.

(** What [summarize_article] answers: the description it was given, or
    something the service wrote. *)
Lemma summarize_article_cases i a :
  summarize_article openai self i a = description a
  ∨ written (summarize_article openai self i a).
Proof.
  unfold summarize_article. destruct (negb (enabled self)); [auto|].
  unfold _call_openai.
  destruct (openai i (api_key self) (model self) (_build_prompt a))
    as [content|]; [|auto].
  cbn [truthy_opt]. destruct (PyStr.truthy (PyStr.strip content)) eqn:Ht;
    [|auto].
  right. exists (PyStr.strip content). split; [reflexivity|].
  split; [exact Ht|apply strip_idempotent].
Qed.

Lemma summarize_loop_spec (articles : list nat) (i : nat) (heap : list Article) :
  length (summarize_loop openai self i articles heap) = length heap
  ∧ ∀ l a, heap !! l = Some a →
      ∃ a', summarize_loop openai self i articles heap !! l = Some a'
        ∧ same_but_description a a'
        ∧ ((l ∉ articles) → a' = a)
        ∧ (description a' = description a ∨ written (description a')).
Proof.
  revert i heap. induction articles as [|r rest IH]; intros i heap.
  - simpl. split; [reflexivity|]. intros l a Hl. exists a.
    split; [exact Hl|]. split; [apply same_but_description_refl|]. auto.
  - cbn [summarize_loop].
    set (article := heap !!! r).
    set (enhanced := summarize_article openai self i article).
    set (heap1 := if truthy_opt enhanced
                  then <[r := set_description article enhanced]> heap
                  else heap).
    assert (Hlen1 : length heap1 = length heap).
    { unfold heap1. destruct (truthy_opt enhanced);
        [apply length_insert|reflexivity]. }
    assert (Hstep : ∀ l a, heap !! l = Some a →
              ∃ a1, heap1 !! l = Some a1 ∧ same_but_description a a1
                    ∧ (l ≠ r → a1 = a)
                    ∧ (description a1 = description a
                       ∨ written (description a1))).
    { intros l a Hl. unfold heap1.
      destruct (truthy_opt enhanced) eqn:He.
      - destruct (decide (l = r)) as [->|Hne].
        + assert (article = a) as Ha
            by (apply list_lookup_total_correct, Hl).
          exists (set_description article enhanced).
          split; [apply list_lookup_insert_eq; eapply lookup_lt_Some, Hl|].
          rewrite Ha. split; [repeat split|]. split; [congruence|].
          cbn [description set_description].
          destruct (summarize_article_cases i article) as [Hc|Hc];
            fold enhanced in Hc; rewrite <- ?Ha; auto.
        + exists a. rewrite list_lookup_insert_ne by congruence.
          split; [exact Hl|]. split; [apply same_but_description_refl|].
          auto.
      - exists a. split; [exact Hl|].
        split; [apply same_but_description_refl|]. auto. }
    destruct (IH (S i) heap1) as [Hlen Hobj].
    split; [rewrite Hlen; exact Hlen1|].
    intros l a Hl. destruct (Hstep l a Hl) as (a1 & Hl1 & Hs1 & Hn1 & Hd1).
    destruct (Hobj l a1 Hl1) as (a' & Hl' & Hs' & Hn' & Hd').
    exists a'. split; [exact Hl'|].
    split; [eapply same_but_description_trans; eauto|]. split.
    + intros Hnot. rewrite Hn', Hn1; [reflexivity| |];
        intros H; apply Hnot; subst; apply elem_of_cons; auto.
    + destruct Hd' as [Hd'|Hd']; [|auto]. rewrite Hd'. exact Hd1.
Qed.

End Summaries.

(** X14: [batch_summarize] returns the list it was given, in the same
    order.  In the store it changes nothing but descriptions: every
    object keeps its title, URL, date, source, category, image,
    fingerprint and relevance score, an object outside the list is not
    touched, and a description is either left as it was or replaced by a
    non-empty text of the service, stripped of surrounding whitespace.
    With summaries disabled the store is unchanged. *)
Theorem batch_summarize_frame openai self articles heap l a :
  heap !! l = Some a →
  let result := AISummarizer.batch_summarize openai self articles heap in
  result.1 = articles
  ∧ length result.2 = length heap
  ∧ (AISummarizer.enabled self = false → result.2 = heap)
  ∧ ∃ a', result.2 !! l = Some a'
      ∧ same_but_description a a'
      ∧ generate_hash a' = generate_hash a
      ∧ ((l ∉ articles) → a' = a)
      ∧ (description a' = description a
         ∨ ∃ s, description a' = Some s ∧ s ≠ "" ∧ PyStr.strip s = s).
Proof.
  intros Hl result. unfold result, AISummarizer.batch_summarize.
  destruct (AISummarizer.enabled self) eqn:Hen; cbn [negb fst snd].
  - destruct (summarize_loop_spec openai self articles 0 heap) as [Hlen Hobj].
    split; [reflexivity|]. split; [exact Hlen|]. split; [discriminate|].
    destruct (Hobj l a Hl) as (a' & Hl' & Hs & Hn & Hd).
    exists a'. split; [exact Hl'|]. split; [exact Hs|].
    split; [|split; [exact Hn|]].
    + unfold generate_hash. destruct Hs as (-> & -> & _). reflexivity.
    + destruct Hd as [Hd|(s & Hd & Ht & Hst)]; [auto|].
      right. exists s. split; [exact Hd|]. split; [|exact Hst].
      intros ->. discriminate.
  - split; [reflexivity|]. split; [reflexivity|]. split; [reflexivity|].
    exists a. split; [exact Hl|].
    split; [apply same_but_description_refl|]. auto.
Qed.

Lemma batch_summarize_frame_witness :
  let openai : AISummarizer.service :=
    λ call _ _ _, if (call =? 0)%nat then Some "  A summary. " else None in
  let self := AISummarizer.__init__ true "openai" "gpt-4o-mini" (Some "sk") in
  let heap := [Sample.gpt5; Sample.tesla] in
  ∃ a', (AISummarizer.batch_summarize openai self [0; 1]%nat heap).2 !! 0%nat
        = Some a'
        ∧ description a' = Some "A summary."
        ∧ hash a' = hash Sample.gpt5.
Proof.
  intros openai self heap.
  destruct (batch_summarize_frame openai self [0; 1]%nat heap 0%nat
              Sample.gpt5 eq_refl) as (_ & _ & _ & a' & Ha' & Hs & _).
  exists a'. split; [exact Ha'|]. split.
  - vm_compute in Ha'. injection Ha' as <-. reflexivity.
  - symmetry. apply Hs.
Defined.

(* ====================================================================== *)
(** * Sending with retries *)
(* ====================================================================== *)

Section Retry.

Import EmailSender.

Variable smtp : nat → smtp_result.
Variable self : EmailSender.t.

Lemma retried_not_sent r : retried r → is_sent r = false.
Proof. intros [-> | ->]; reflexivity. Qed.

(** The loop from attempt [k] stops at some attempt [n]: the sessions
    [k .. n - 1] were retried, and [n] is the last allowed attempt or one
    that is not retried. *)
Lemma attempts_spec (remaining k : nat) (log : list mail_event) :
  (k + remaining = S (max_retries self))%nat →
  (1 <= remaining)%nat →
  ∃ n, (k <= n <= max_retries self)%nat
    ∧ attempts smtp self remaining k log
      = (is_sent (smtp n),
         log ++ sessions (retry_delay self) k (S (n - k)))
    ∧ (∀ j, (k <= j < n)%nat → retried (smtp j))
    ∧ ((n < max_retries self)%nat → ¬ retried (smtp n)).
Proof.
  revert k log. induction remaining as [|r IH]; intros k log Hsum Hr; [lia|].
  cbn [attempts].
  assert (Hstop : ¬ retried (smtp k) →
            is_sent (smtp k) = match smtp k with SmtpSent => true | _ => false end →
            ∃ n, (k <= n <= max_retries self)%nat
              ∧ (is_sent (smtp k), log ++ [EvSession k])
                = (is_sent (smtp n),
                   log ++ sessions (retry_delay self) k (S (n - k)))
              ∧ (∀ j, (k <= j < n)%nat → retried (smtp j))
              ∧ ((n < max_retries self)%nat → ¬ retried (smtp n))).
  { intros Hnot _. exists k. split; [lia|]. rewrite Nat.sub_diag.
    split; [reflexivity|]. split; [intros j Hj; lia|]. auto. }
  assert (Hretry : retried (smtp k) →
            ∃ n, (k <= n <= max_retries self)%nat
              ∧ (if (k <? max_retries self)%nat
                 then attempts smtp self r (S k)
                        ((log ++ [EvSession k])
                         ++ [EvSleep (retry_delay self)])
                 else (false, log ++ [EvSession k]))
                = (is_sent (smtp n),
                   log ++ sessions (retry_delay self) k (S (n - k)))
              ∧ (∀ j, (k <= j < n)%nat → retried (smtp j))
              ∧ ((n < max_retries self)%nat → ¬ retried (smtp n))).
  { intros Hk. destruct (k <? max_retries self)%nat eqn:Hlt.
    - apply Nat.ltb_lt in Hlt.
      destruct (IH (S k) ((log ++ [EvSession k])
                          ++ [EvSleep (retry_delay self)]))
        as (n & Hn & Heq & Hpre & Hlast); [lia|lia|].
      exists n. split; [lia|]. split.
      + rewrite Heq. f_equal. rewrite <- !app_assoc. f_equal.
        replace (S (n - k)) with (S (S (n - S k))) by lia. reflexivity.
      + split; [|exact Hlast]. intros j Hj.
        destruct (decide (j = k)) as [->|Hne]; [exact Hk|].
        apply Hpre. lia.
    - apply Nat.ltb_ge in Hlt. exists k. split; [lia|].
      rewrite Nat.sub_diag, (retried_not_sent _ Hk).
      split; [reflexivity|]. split; [intros j Hj; lia|]. lia. }
  destruct (smtp k) eqn:Hs.
  - apply Hstop; [intros [H|H]; discriminate|reflexivity].
  - apply Hstop; [intros [H|H]; discriminate|reflexivity].
  - apply Hretry. left. reflexivity.
  - apply Hretry. right. reflexivity.
Qed.

End Retry.

(** X15: with at least one attempt allowed, [send_email] opens the
    sessions 1, 2, ..., n for some n of at most [max_retries], pausing
    [retry_delay] seconds between two sessions and never after the last;
    every session before the last ended in an SMTP or other exception
    that is retried; an authentication error or a success ends the loop
    at once; and the result is [True] exactly when the last session sent
    the mail. *)
Theorem send_email_retries smtp self :
  (1 <= EmailSender.max_retries self)%nat →
  ∃ n, (1 <= n <= EmailSender.max_retries self)%nat
    ∧ EmailSender.send_email smtp self
      = (is_sent (smtp n), sessions (EmailSender.retry_delay self) 1 n)
    ∧ (∀ j, (1 <= j < n)%nat → retried (smtp j))
    ∧ ((n < EmailSender.max_retries self)%nat →
       smtp n = SmtpSent ∨ smtp n = SmtpAuthenticationError).
Proof.
  intros Hmax. unfold EmailSender.send_email.
  destruct (attempts_spec smtp self (EmailSender.max_retries self) 1 [])
    as (n & Hn & Heq & Hpre & Hlast); [lia|exact Hmax|].
  exists n. split; [exact Hn|]. split.
  - rewrite Heq. cbn [app]. replace (S (n - 1)) with n by lia. reflexivity.
  - split; [exact Hpre|]. intros Hlt. specialize (Hlast Hlt).
    unfold retried in Hlast. destruct (smtp n); auto; exfalso; auto.
Qed.

(** The sender as constructed: two failures, then success; and an
    authentication error at the second attempt. *)
Lemma send_email_retries_witness :
  EmailSender.send_email
    (λ k, if (k <? 3)%nat then SmtpException else SmtpSent)
    EmailSender.__init__
  = (true, [EvSession 1; EvSleep 5; EvSession 2; EvSleep 5; EvSession 3])
  ∧ EmailSender.send_email
      (λ k, if (k <? 2)%nat then OtherException else SmtpAuthenticationError)
      EmailSender.__init__
    = (false, [EvSession 1; EvSleep 5; EvSession 2]).
Proof.
  split.
  - destruct (send_email_retries
                (λ k, if (k <? 3)%nat then SmtpException else SmtpSent)
                EmailSender.__init__) as (n & Hn & Heq & Hpre & Hlast);
      [cbn; lia|].
    rewrite Heq. cbn in Hn.
    assert (n = 3%nat) as ->.
    { destruct (decide (n = 3%nat)) as [?|Hne]; [assumption|].
      destruct Hlast as [H|H]; [cbn; lia| |];
        destruct (n <? 3)%nat eqn:Hlt; try discriminate;
        apply Nat.ltb_ge in Hlt; lia. }
    reflexivity.
  - destruct (send_email_retries
                (λ k, if (k <? 2)%nat then OtherException
                      else SmtpAuthenticationError)
                EmailSender.__init__) as (n & Hn & Heq & Hpre & Hlast);
      [cbn; lia|].
    rewrite Heq. cbn in Hn.
    assert (n = 2%nat) as ->.
    { destruct (decide (n = 1%nat)) as [->|H1].
      - destruct Hlast as [H|H]; [cbn; lia|discriminate|discriminate].
      - destruct (decide (n = 2%nat)) as [?|H2]; [assumption|].
        assert (n = 3%nat) as -> by lia.
        destruct (Hpre 2%nat) as [H|H]; [lia|discriminate|discriminate]. }
    reflexivity.
Defined.

(* ====================================================================== *)
(** * The RSS collector *)
(* ====================================================================== *)

Section Collector.

Import RSSCollector.

Variable lib : libraries.

Lemma str_length (l : list ascii) : String.length (PyStr.str l) = length l.
Proof.
  unfold PyStr.str. induction l as [|c l IH]; simpl; [reflexivity|].
  now rewrite IH.
Qed.

Lemma chars_length (s : string) : length (PyStr.chars s) = String.length s.
Proof.
  unfold PyStr.chars. induction s as [|c s IH]; simpl; [reflexivity|].
  now rewrite IH.
Qed.

Lemma append_length (s1 s2 : string) :
  String.length (s1 +:+ s2) = (String.length s1 + String.length s2)%nat.
Proof.
  induction s1 as [|c s1 IH]; simpl; [reflexivity|]. now rewrite IH.
Qed.

Lemma truthy_false (s : string) : PyStr.truthy s = false ↔ s = "".
Proof. destruct s; simpl; split; congruence. Qed.

(** The description kept is never longer than 500 characters. *)
Lemma clean_description_length (d : option string) (x : string) :
  clean_description lib d = Some x → (String.length x <= 500)%nat.
Proof.
  unfold clean_description. destruct (truthy_opt d) eqn:Ht.
  - destruct (500 <? String.length (get_text lib (or_empty d)))%nat eqn:Hl.
    + apply Nat.ltb_lt in Hl. intros [= <-].
      rewrite append_length, str_length, length_take, chars_length.
      change (String.length "...") with 3%nat. lia.
    + apply Nat.ltb_ge in Hl. intros [= <-]. exact Hl.
  - intros ->. simpl in Ht. apply truthy_false in Ht. subst x. simpl. lia.
Qed.

(** What [_parse_entry] puts in the article it returns. *)
Lemma parse_entry_fields (now : clock_reading) (entry : feed_entry)
    (source_name feed_kind : string) (a : Article) :
  _parse_entry lib now entry source_name feed_kind = Some a →
  title a = PyStr.strip (or_empty (entry_title entry))
  ∧ title a ≠ ""
  ∧ url a = PyStr.strip (or_empty (entry_link entry))
  ∧ validate_url (url a) = true
  ∧ source a = source_name
  ∧ category a = feed_kind
  ∧ (∃ d, published_at a = Some d
          ∧ (first_date lib entry date_fields = None →
             d = mkDatetime (now_naive now) None))
  ∧ (∀ d, description a = Some d → (String.length d <= 500)%nat)
  ∧ hash a = generate_hash a
  ∧ Qeq (relevance_score a) 0.
Proof.
  unfold _parse_entry.
  generalize (first_date lib entry date_fields) as found. intros found.
  destruct (PyStr.truthy (PyStr.strip (or_empty (entry_title entry)))) eqn:Ht;
    [|discriminate].
  destruct (PyStr.truthy (PyStr.strip (or_empty (entry_link entry)))) eqn:Hu;
    [|discriminate].
  cbn [negb]. unfold Article_new.
  destruct (validate_url (PyStr.strip (or_empty (entry_link entry)))) eqn:Hv;
    [|discriminate].
  intros [= <-]. unfold model_post_init. cbn [hash negb PyStr.truthy default_hash].
  cbn [set_hash title url source category published_at description
       hash relevance_score].
  repeat split; try reflexivity.
  - intros He. rewrite He in Ht. discriminate.
  - exact Hv.
  - eexists. split; [reflexivity|]. intros ->. reflexivity.
  - intros d Hd. eapply clean_description_length. exact Hd.
Qed.

(** X16: an article returned by [_parse_entry] has the entry's title
    and link without the surrounding white space, neither of them empty,
    a link that starts with [http://] or [https://], the source and the
    category of the feed, a publication date (that of the clock when the
    entry has none that parses), a description of at most 500
    characters when it has one, the fingerprint of its title and link,
    and the score 0. *)
Lemma parse_entry_article (now : clock_reading) (entry : feed_entry)
    (source_name feed_kind : string) (a : Article) :
  _parse_entry lib now entry source_name feed_kind = Some a →
  title a = PyStr.strip (or_empty (entry_title entry))
  ∧ title a ≠ ""
  ∧ url a = PyStr.strip (or_empty (entry_link entry))
  ∧ validate_url (url a) = true
  ∧ source a = source_name
  ∧ category a = feed_kind
  ∧ (∃ d, published_at a = Some d
          ∧ (first_date lib entry date_fields = None →
             d = mkDatetime (now_naive now) None))
  ∧ (∀ d, description a = Some d → (String.length d <= 500)%nat)
  ∧ hash a = generate_hash a
  ∧ Qeq (relevance_score a) 0.
Proof. apply parse_entry_fields. Qed.

End Collector.

Lemma parse_entry_article_witness :
  ∃ a, RSSCollector._parse_entry SampleFeed.lib (SampleFeed.clock 0) SampleFeed.robot
         "Wired" "robotics" = Some a
       ∧ title a = "Tesla unveils robot"
       ∧ url a = "https://a.example/robot"
       ∧ published_at a = Some (mkDatetime 0 None).
Proof.
  destruct (RSSCollector._parse_entry SampleFeed.lib (SampleFeed.clock 0) SampleFeed.robot
              "Wired" "robotics") as [a|] eqn:E; [|vm_compute in E; discriminate].
  exists a. split; [reflexivity|].
  destruct (parse_entry_article SampleFeed.lib (SampleFeed.clock 0) SampleFeed.robot
              "Wired" "robotics" a) as (Ht & _ & Hu & _ & _ & _ & Hp & _).
  - exact E.
  - split; [exact Ht|]. split; [exact Hu|].
    destruct Hp as (d & Hd & Hnow). rewrite Hd, Hnow; reflexivity.
Defined.

Section CollectorLoops.

Import RSSCollector.

Variable lib : libraries.
Variable self : t.

Lemma validate_url_nonempty (u : string) :
  validate_url u = true → PyStr.truthy u = true.
Proof. destruct u; [vm_compute; discriminate | reflexivity]. Qed.

(** X17: [_parse_entry] returns no article exactly when the title of
    the entry is missing or blank, or its link, without the surrounding
    white space, does not start with [http://] or [https://]; in
    particular when the link is missing or blank. *)
Lemma parse_entry_none_iff (now : clock_reading) (entry : feed_entry)
    (source_name category : string) :
  _parse_entry lib now entry source_name category = None
  ↔ PyStr.strip (or_empty (entry_title entry)) = ""
    ∨ validate_url (PyStr.strip (or_empty (entry_link entry))) = false.
Proof.
  unfold _parse_entry, Article_new.
  destruct (PyStr.truthy (PyStr.strip (or_empty (entry_title entry)))) eqn:Ht;
    cbn [negb].
  - destruct (validate_url (PyStr.strip (or_empty (entry_link entry))))
      eqn:Hv.
    + rewrite (validate_url_nonempty _ Hv). cbn [negb]. split; [discriminate|].
      intros [He|?]; [|discriminate]. rewrite He in Ht. discriminate.
    + split; [auto|]. intros _.
      destruct (negb _); reflexivity.
  - apply truthy_false in Ht. split; auto.
Qed.

Lemma parse_entry_collected now entry source_name category a :
  _parse_entry lib now entry source_name category = Some a →
  collected source_name category a.
Proof.
  intros H. apply parse_entry_fields in H.
  destruct H as (_ & Ht & _ & Hv & Hs & Hc & (d & Hd & _) & _ & Hh & _).
  repeat split; try assumption. rewrite Hd. discriminate.
Qed.

Lemma parse_entries_collected clock entries source_name category :
  ∀ i, Forall (collected source_name category)
         (parse_entries lib clock i entries source_name category).
Proof.
  induction entries as [|e l IH]; intros i; cbn [parse_entries].
  - constructor.
  - destruct (_parse_entry lib (clock i) e source_name category) eqn:E;
      [|apply IH].
    constructor; [|apply IH]. eapply parse_entry_collected. exact E.
Qed.

Lemma parse_entries_length clock entries source_name category :
  ∀ i, (length (parse_entries lib clock i entries source_name category)
        <= length entries)%nat.
Proof.
  induction entries as [|e l IH]; intros i; cbn [parse_entries length].
  - lia.
  - destruct (_parse_entry lib (clock i) e source_name category);
      cbn [length]; specialize (IH (S i)); lia.
Qed.

Lemma collect_from_source_collected clock feed_url source_name category :
  Forall (collected source_name category)
    (collect_from_source lib self clock feed_url source_name category).
Proof.
  unfold collect_from_source.
  destruct (feedparser_parse lib feed_url) as [entries|]; [|constructor].
  destruct (ArticleFilter.is_empty entries); [constructor|].
  apply parse_entries_collected.
Qed.

Lemma collect_from_source_length clock feed_url source_name category :
  0 <= max_articles_per_source self →
  (length (collect_from_source lib self clock feed_url source_name category)
   <= Z.to_nat (max_articles_per_source self))%nat.
Proof.
  intros Hmax. unfold collect_from_source.
  destruct (feedparser_parse lib feed_url) as [entries|];
    [|cbn [length]; lia].
  destruct (ArticleFilter.is_empty entries); [cbn [length]; lia|].
  etransitivity; [apply parse_entries_length|].
  unfold slice_to. apply Z.leb_le in Hmax. rewrite Hmax.
  rewrite length_take. lia.
Qed.

(** X18: with a limit per source that is not negative,
    [collect_from_source] returns at most that many articles, none when
    the fetch raises or the feed has no entries, and each of them
    carries the name and the category it was called with, a title that
    is not empty, a link that starts with [http://] or [https://], a
    publication date and the fingerprint of its title and link. *)
Lemma collect_from_source_spec (clock : nat → clock_reading)
    (feed_url source_name category : string) :
  0 <= max_articles_per_source self →
  let articles :=
    collect_from_source lib self clock feed_url source_name category in
  (length articles <= Z.to_nat (max_articles_per_source self))%nat
  ∧ Forall (collected source_name category) articles
  ∧ (feedparser_parse lib feed_url = None
     ∨ feedparser_parse lib feed_url = Some [] → articles = []).
Proof.
  intros Hmax articles. split; [|split].
  - apply collect_from_source_length. exact Hmax.
  - apply collect_from_source_collected.
  - subst articles. unfold collect_from_source.
    intros [-> | ->]; reflexivity.
Qed.

Lemma collect_feeds_spec clock feeds :
  ∀ k articles fetched,
    collect_feeds lib self clock k feeds = (articles, fetched) →
    (∀ u, u ∈ fetched ↔
          ∃ feed, feed ∈ feeds ∧ feed_url feed = Some u
                  ∧ feed_name feed ≠ None ∧ feed_category feed ≠ None)
    ∧ Forall (λ a, ∃ feed name category,
                feed ∈ feeds ∧ feed_name feed = Some name
                ∧ feed_category feed = Some category
                ∧ collected name category a) articles
    ∧ (0 <= max_articles_per_source self →
       (length articles
        <= Z.to_nat (max_articles_per_source self) * length fetched)%nat).
Proof.
  induction feeds as [|f l IH]; intros k articles fetched;
    cbn [collect_feeds].
  - intros [= <- <-]. split; [|split].
    + intros u. split; [intros H; inversion H|].
      intros (feed & H & _). inversion H.
    + constructor.
    + intros _. cbn [length]. lia.
  - destruct (collect_feeds lib self clock (S k) l) as [arts urls] eqn:E.
    destruct (IH _ _ _ E) as (IHu & IHa & IHl).
    assert (Hweak : Forall (λ a, ∃ feed name category,
                feed ∈ f :: l ∧ feed_name feed = Some name
                ∧ feed_category feed = Some category
                ∧ collected name category a) arts).
    { eapply Forall_impl; [exact IHa|].
      intros a (feed & n & c & Hin & H). exists feed, n, c.
      split; [right; exact Hin | exact H]. }
    assert (Hskip : (feed_url f = None ∨ feed_name f = None
                     ∨ feed_category f = None) →
              (∀ u, u ∈ urls ↔
                 ∃ feed, feed ∈ f :: l ∧ feed_url feed = Some u
                   ∧ feed_name feed ≠ None ∧ feed_category feed ≠ None)).
    { intros Hmiss u. rewrite IHu. split.
      - intros (feed & Hin & H). exists feed. split; [right; exact Hin|exact H].
      - intros (feed & Hin & Hu & Hn & Hc).
        apply elem_of_cons in Hin as [-> | Hin].
        + destruct Hmiss as [Hm | [Hm | Hm]]; congruence.
        + exists feed. auto. }
    destruct (feed_url f) as [u0|] eqn:Eu;
      [destruct (feed_name f) as [n0|] eqn:En;
       [destruct (feed_category f) as [c0|] eqn:Ec|]|];
      intros [= <- <-];
      try (split; [apply Hskip; auto | split; [exact Hweak | exact IHl]]).
    split; [|split].
    + intros u. rewrite elem_of_cons, IHu. split.
      * intros [-> | (feed & Hin & H)].
        -- exists f. split; [left|]. rewrite Eu, En, Ec. auto.
        -- exists feed. split; [right; exact Hin | exact H].
      * intros (feed & Hin & Hu & Hn & Hc).
        apply elem_of_cons in Hin as [-> | Hin].
        -- left. congruence.
        -- right. exists feed. auto.
    + apply Forall_app. split; [|exact Hweak].
      eapply Forall_impl; [apply collect_from_source_collected|].
      intros a Ha. exists f, n0, c0. split; [left|]. auto.
    + intros Hmax. rewrite length_app. cbn [length].
      pose proof (collect_from_source_length (clock k) u0 n0 c0 Hmax).
      specialize (IHl Hmax). lia.
Qed.

(** X19: with a limit per source that is not negative, [collect_all]
    fetches exactly the URLs of the configured feeds that are not
    disabled and have a URL, a name and a category; every article it
    returns carries the name and the category of such a feed and is
    well formed; and there are at most the limit times the number of
    fetches. *)
Lemma collect_all_spec (clock : nat → nat → clock_reading)
    (all_feeds : list feed_config) (articles : list Article)
    (fetched : list string) :
  0 <= max_articles_per_source self →
  collect_all lib self clock all_feeds = (articles, fetched) →
  (∀ u, u ∈ fetched ↔ ∃ feed, feed ∈ all_feeds ∧ fetched_feed feed u)
  ∧ Forall (λ a, ∃ feed name category,
              feed ∈ all_feeds
              ∧ feed_enabled feed ≠ Some false
              ∧ feed_name feed = Some name
              ∧ feed_category feed = Some category
              ∧ collected name category a) articles
  ∧ (length articles
     <= Z.to_nat (max_articles_per_source self) * length fetched)%nat.
Proof.
  intros Hmax H. unfold collect_all in H.
  apply collect_feeds_spec in H. destruct H as (Hu & Ha & Hl).
  assert (Hin : ∀ feed, feed ∈ rss_feeds all_feeds
                        ↔ feed ∈ all_feeds ∧ feed_enabled feed ≠ Some false).
  { intros feed. unfold rss_feeds. rewrite list_elem_of_In, filter_In, <- list_elem_of_In.
    split; intros [H1 H2]; split; try assumption.
    - destruct (feed_enabled feed) as [[|]|]; simpl in *;
        try discriminate; congruence.
    - destruct (feed_enabled feed) as [[|]|]; simpl;
        try reflexivity; congruence. }
  split; [|split].
  - intros u. rewrite Hu. unfold fetched_feed. split.
    + intros (feed & Hf & H). apply Hin in Hf as [Hf He].
      exists feed. tauto.
    + intros (feed & Hf & He & H). exists feed. split; [|tauto].
      apply Hin. auto.
  - eapply Forall_impl; [exact Ha|].
    intros a (feed & n & c & Hf & H). apply Hin in Hf as [Hf He].
    exists feed, n, c. tauto.
  - apply Hl. exact Hmax.
Qed.

End CollectorLoops.

Lemma collect_from_source_spec_witness :
  let articles :=
    RSSCollector.collect_from_source SampleFeed.lib SampleFeed.collector
      SampleFeed.clock "https://a.example/feed" "Wired" "robotics" in
  (length articles <= 3)%nat ∧ Forall (collected "Wired" "robotics") articles.
Proof.
  intros articles.
  destruct (collect_from_source_spec SampleFeed.lib SampleFeed.collector
              SampleFeed.clock "https://a.example/feed" "Wired" "robotics")
    as (Hlen & Hall & _).
  - cbn. lia.
  - split; [exact Hlen | exact Hall].
Defined.

Lemma collect_all_spec_witness :
  let run :=
    RSSCollector.collect_all SampleFeed.lib SampleFeed.collector
      (λ _, SampleFeed.clock) sample_feeds in
  (∀ u, u ∈ run.2 ↔ ∃ feed, feed ∈ sample_feeds ∧ fetched_feed feed u)
  ∧ (length run.1 <= 3 * length run.2)%nat.
Proof.
  intros run.
  destruct (collect_all_spec SampleFeed.lib SampleFeed.collector
              (λ _, SampleFeed.clock) sample_feeds run.1 run.2)
    as (Hurls & _ & Hlen).
  - cbn. lia.
  - apply surjective_pairing.
  - split; [exact Hurls | exact Hlen].
Defined.

(* ====================================================================== *)
(** * The pipeline *)
(* ====================================================================== *)

Section Pipeline.

Variable cfg : settings.t.
Variable all_feeds : list feed_config.
Variable collector : RSSCollector.t.
Variable ai_summarizer : AISummarizer.t.
Variable env : session.

(** The articles of [collect_all] come from feeds that are not disabled. *)
Lemma collect_all_articles :
  Forall (from_enabled_feed all_feeds)
    (RSSCollector.collect_all (libs env) collector (feed_clock env)
       all_feeds).1.
Proof.
  unfold RSSCollector.collect_all.
  destruct (RSSCollector.collect_feeds (libs env) collector (feed_clock env)
              0 (rss_feeds all_feeds)) as [articles fetched] eqn:E.
  apply collect_feeds_spec in E. destruct E as (_ & Ha & _).
  eapply Forall_impl; [exact Ha|].
  intros a (feed & n & c & Hf & Hn & Hc & Hcol).
  unfold rss_feeds in Hf. rewrite list_elem_of_In, filter_In in Hf.
  destruct Hf as [Hf He]. exists feed, n, c.
  split; [apply list_elem_of_In, Hf|]. split; [|auto].
  destruct (feed_enabled feed) as [[|]|]; simpl in He;
    try discriminate; congruence.
Qed.

(** [deduplicate] returns articles of its input; with deduplication
    switched on, their fingerprints differ and are not in the cache. *)
Lemma deduplicate_members (d : Deduplicator.t) (now later : clock_reading)
    (articles : list Article) (w : world) :
  let out := (Deduplicator.deduplicate cfg d now later articles w).1 in
  (∀ a, a ∈ out → a ∈ articles)
  ∧ (settings.deduplication_enabled cfg = true →
     NoDup (map hash out)
     ∧ ∀ a, a ∈ out → hash a ∉ Deduplicator.seen_hashes d).
Proof.
  intros out. subst out.
  destruct (settings.deduplication_enabled cfg) eqn:Hen.
  - rewrite (deduplicate_enabled d cfg now later articles w Hen). cbn [fst].
    split.
    + intros a Ha. eapply single_pass_elem. exact Ha.
    + intros _. split.
      * apply (single_pass_distinct d articles []).
      * intros a Ha. eapply single_pass_elem. exact Ha.
  - unfold Deduplicator.deduplicate. rewrite Hen. cbn [negb fst].
    split; [auto | discriminate].
Qed.

(** What [filter_and_rank] returns is empty or the slice of the ranking. *)
Lemma filter_and_rank_returned (self : ArticleFilter.t)
    (now : clock_reading) (clock : nat → clock_reading)
    (articles : list ref) (heap : store) (out : list ref) :
  (ArticleFilter.filter_and_rank cfg self now clock articles heap).2
  = Returns out →
  let scored :=
    (ArticleFilter.filter_and_rank cfg self now clock articles heap).1 in
  let key x := relevance_score (scored !!! x) in
  (∀ l, l ∈ out →
     l ∈ articles ∧ (ArticleFilter.min_score self <= key l)%Q)
  ∧ StronglySorted (not_below key) out
  ∧ (NoDup articles → NoDup out)
  ∧ (0 <= ArticleFilter.max_articles self →
     (length out <= Z.to_nat (ArticleFilter.max_articles self))%nat).
Proof.
  intros Hret scored key.
  set (candidates :=
         meeting_min_score self scored (survivors cfg self now articles heap)).
  assert (Hout : out = []
                 ∨ out = slice_to (sorted_reverse key candidates)
                           (ArticleFilter.max_articles self)).
  { rewrite filter_and_rank_outcome in Hret. fold scored in Hret.
    fold candidates in Hret. fold key in Hret.
    destruct (ArticleFilter.is_empty candidates).
    - injection Hret as <-. left. reflexivity.
    - destruct (ArticleFilter.is_empty _); [discriminate|].
      injection Hret as <-. right. reflexivity. }
  assert (Hpre : out `prefix_of` sorted_reverse key candidates).
  { destruct Hout as [-> | ->]; [apply prefix_nil|].
    destruct (slice_to_take (sorted_reverse key candidates)
                (ArticleFilter.max_articles self)) as (k & -> & _).
    apply prefix_take. }
  destruct Hpre as [rest Hrest].
  split; [|split; [|split]].
  - intros l Hl.
    assert (Hc : l ∈ candidates).
    { rewrite <- (sorted_reverse_perm key candidates), Hrest.
      apply elem_of_app. auto. }
    unfold candidates, meeting_min_score in Hc.
    rewrite list_elem_of_In in Hc. apply filter_In in Hc as [Hs Hm].
    apply list_elem_of_In, survivors_spec in Hs as (Ha & _).
    apply Qle_bool_iff in Hm. auto.
  - apply (StronglySorted_prefix _ out rest). rewrite <- Hrest.
    apply sorted_reverse_sorted.
  - intros Hnd.
    assert (NoDup (sorted_reverse key candidates)) as Hn.
    { rewrite (sorted_reverse_perm key candidates).
      apply NoDup_ListNoDup. unfold candidates, meeting_min_score, survivors.
      repeat apply List.NoDup_filter. apply NoDup_ListNoDup, Hnd. }
    rewrite Hrest in Hn. apply NoDup_app in Hn. apply Hn.
  - intros Hmax. destruct Hout as [-> | ->]; [cbn [length]; lia|].
    unfold slice_to. apply Z.leb_le in Hmax. rewrite Hmax.
    rewrite length_take. lia.
Qed.

(** [batch_summarize] changes descriptions only. *)
Lemma batch_summarize_lookup (articles : list nat) (heap : list Article)
    (l : nat) (a : Article) :
  heap !! l = Some a →
  (AISummarizer.batch_summarize (openai env) ai_summarizer articles heap).1
  = articles
  ∧ ∃ a', (AISummarizer.batch_summarize (openai env) ai_summarizer
             articles heap).2 !! l = Some a'
          ∧ same_but_description a a'.
Proof.
  intros Hl. unfold AISummarizer.batch_summarize.
  destruct (negb (AISummarizer.enabled ai_summarizer)); cbn [fst snd].
  - split; [reflexivity|]. exists a. split; [exact Hl|].
    apply same_but_description_refl.
  - split; [reflexivity|].
    destruct (summarize_loop_spec (openai env) ai_summarizer articles 0 heap)
      as [_ H].
    destruct (H l a Hl) as (a' & Ha' & Hs & _). exists a'. auto.
Qed.

Lemma collected_same_fields (name kind : string) (a b : Article) :
  title a = title b → url a = url b → source a = source b →
  category a = category b → published_at a = published_at b →
  hash a = hash b →
  collected name kind a → collected name kind b.
Proof.
  unfold collected. intros Ht Hu Hs Hc Hp Hh (H1 & H2 & H3 & H4 & H5 & H6).
  rewrite <- Hs, <- Hc, <- Ht, <- Hu, <- Hp, <- Hh.
  repeat split; try assumption.
  rewrite H6. apply generate_hash_pure; [now rewrite Ht | exact Hu].
Qed.

Lemma StronglySorted_map_in {A B : Type} (R : A → A → Prop)
    (S : B → B → Prop) (f : A → B) (l : list A) :
  (∀ x y, x ∈ l → y ∈ l → R x y → S (f x) (f y)) →
  StronglySorted R l → StronglySorted S (map f l).
Proof.
  intros HRS Hs. induction Hs as [|x l Hl IH Hx]; cbn [map]; constructor.
  - apply IH. intros a b Ha Hb. apply HRS; right; assumption.
  - apply Forall_forall. intros y Hy.
    apply list_elem_of_In, in_map_iff in Hy as (z & <- & Hz).
    apply list_elem_of_In in Hz. apply HRS; [left | right; exact Hz |].
    rewrite Forall_forall in Hx. apply Hx, Hz.
Qed.

Lemma NoDup_map_lookup_hash (articles : list Article) (refs : list nat)
    (f : nat → Article) :
  NoDup (map hash articles) → NoDup refs →
  (∀ l, l ∈ refs → ∃ a, articles !! l = Some a ∧ hash (f l) = hash a) →
  NoDup (map (λ l, hash (f l)) refs).
Proof.
  intros Hh Hr Hf. apply (NoDup_fmap_2_strong (λ l, hash (f l))); [|exact Hr].
  intros i j Hi Hj Heq.
  destruct (Hf i Hi) as (a & Ha & Hai). destruct (Hf j Hj) as (b & Hb & Hbj).
  rewrite Hai, Hbj in Heq.
  eapply NoDup_lookup; [exact Hh | |].
  - rewrite list_lookup_fmap, Ha. reflexivity.
  - change (map hash articles) with (hash <$> articles).
    rewrite list_lookup_fmap, Hb. cbn. now rewrite Heq.
Qed.

(** X20: when steps 1 to 4 of [run_pipeline] reach the composer, the
    list they hand over is not empty; every article in it was collected
    from a configured feed that is not disabled and carries the name and
    the category of that feed, a title that is not empty, a link that
    starts with [http://] or [https://], a publication date and the
    fingerprint of its title and link; its score is at least the
    configured minimum and no later article has a greater score; with a
    limit that is not negative there are at most [max_articles] of
    them; and with deduplication switched on their fingerprints differ
    from one another and from those the cache held at the start. *)
Theorem pipeline_digest (w w' : world) (digest : list Article) :
  run_pipeline cfg all_feeds collector ai_summarizer env w
  = (Composed digest, w') →
  digest ≠ []
  ∧ Forall (from_enabled_feed all_feeds) digest
  ∧ Forall (λ a, (settings.min_relevance_score cfg <= relevance_score a)%Q)
      digest
  ∧ StronglySorted ranked_before digest
  ∧ (0 <= settings.max_articles cfg →
     (length digest <= Z.to_nat (settings.max_articles cfg))%nat)
  ∧ (settings.deduplication_enabled cfg = true →
     NoDup (map hash digest)
     ∧ Forall (λ a, hash a ∉ Deduplicator.seen_hashes
                      (Deduplicator.__init__ cfg (init_reading env) w).1)
         digest).
Proof.
  unfold run_pipeline.
  pose proof collect_all_articles as Hcol.
  set (articles := (RSSCollector.collect_all (libs env) collector
                      (feed_clock env) all_feeds).1) in *.
  destruct (ArticleFilter.is_empty articles); [discriminate|].
  destruct (Deduplicator.__init__ cfg (init_reading env) w) as [d w1] eqn:Ei.
  pose proof (deduplicate_members d (pass_reading env) (save_reading env)
                articles w1) as Hded.
  destruct (Deduplicator.deduplicate cfg d (pass_reading env)
              (save_reading env) articles w1) as [unique w2] eqn:Ed.
  cbn [fst] in Hded. destruct Hded as (Hsub & Hdistinct).
  destruct (ArticleFilter.is_empty unique); [discriminate|].
  pose proof (filter_and_rank_returned (ArticleFilter.__init__ cfg)
                (filter_now env) (score_clock env)
                (seq 0 (length unique)) unique) as Hfil.
  pose proof (filter_and_rank_store cfg (ArticleFilter.__init__ cfg)
                (filter_now env) (score_clock env)
                (seq 0 (length unique)) unique) as Hstore.
  destruct (ArticleFilter.filter_and_rank cfg (ArticleFilter.__init__ cfg)
              (filter_now env) (score_clock env) (seq 0 (length unique))
              unique) as [heap [out|e]] eqn:Ef; [|discriminate].
  cbn [fst snd] in Hfil, Hstore.
  destruct (Hfil out eq_refl) as (Hmem & Hsorted & Hnodup & Hlen).
  clear Hfil.
  destruct (ArticleFilter.is_empty out) eqn:Eo; [discriminate|].
  destruct (AISummarizer.batch_summarize (openai env) ai_summarizer out heap)
    as [out' heap'] eqn:Es.
  intros [= <- <-].
  (* every reference of the digest, through the three steps *)
  assert (Href : ∀ l, l ∈ out →
            ∃ a0, unique !! l = Some a0
              ∧ title (heap' !!! l) = title a0
              ∧ url (heap' !!! l) = url a0
              ∧ source (heap' !!! l) = source a0
              ∧ category (heap' !!! l) = category a0
              ∧ published_at (heap' !!! l) = published_at a0
              ∧ hash (heap' !!! l) = hash a0
              ∧ relevance_score (heap' !!! l) = relevance_score (heap !!! l)).
  { intros l Hl. destruct (Hmem l Hl) as [Hin _].
    apply elem_of_seq in Hin.
    destruct (lookup_lt_is_Some_2 unique l) as [a0 Ha0]; [lia|].
    destruct (score_loop_spec cfg (ArticleFilter.__init__ cfg)
                (score_clock env)
                (survivors cfg (ArticleFilter.__init__ cfg) (filter_now env)
                   (seq 0 (length unique)) unique) 0 unique) as [_ Hsc].
    destruct (Hsc l a0 Ha0) as (a1 & Ha1 & Hsame & _).
    rewrite <- Hstore in Ha1.
    destruct (batch_summarize_lookup out heap l a1 Ha1) as (_ & a2 & Ha2 & Hd).
    rewrite Es in Ha2. cbn [snd] in Ha2.
    exists a0. split; [exact Ha0|].
    rewrite (list_lookup_total_correct _ _ _ Ha2).
    rewrite (list_lookup_total_correct _ _ _ Ha1).
    destruct Hsame as (?&?&?&?&?&?&?&?).
    destruct Hd as (?&?&?&?&?&?&?&?).
    repeat split; congruence. }
  assert (Hout' : out' = out).
  { destruct out as [|l0 out0]; [discriminate|].
    assert (Hl0 : l0 ∈ l0 :: out0) by left.
    destruct (Hmem l0 Hl0) as [Hin _]. apply elem_of_seq in Hin.
    destruct (Href l0 Hl0) as (a0 & Ha0 & _).
    destruct (score_loop_spec cfg (ArticleFilter.__init__ cfg)
                (score_clock env)
                (survivors cfg (ArticleFilter.__init__ cfg) (filter_now env)
                   (seq 0 (length unique)) unique) 0 unique) as [_ Hsc].
    destruct (Hsc l0 a0 Ha0) as (a1 & Ha1 & _).
    rewrite <- Hstore in Ha1.
    destruct (batch_summarize_lookup (l0 :: out0) heap l0 a1 Ha1) as (H1 & _).
    rewrite Es in H1. exact H1. }
  subst out'.
  split; [|split; [|split; [|split; [|split]]]].
  - destruct out; [discriminate|]. discriminate.
  - apply Forall_forall. intros a Ha.
    apply list_elem_of_In, in_map_iff in Ha as (l & <- & Hl).
    apply list_elem_of_In in Hl.
    destruct (Href l Hl) as (a0 & Ha0 & Ht & Hu & Hs & Hc & Hp & Hh & _).
    assert (Hin : a0 ∈ articles).
    { apply Hsub. eapply list_elem_of_lookup_2. exact Ha0. }
    rewrite Forall_forall in Hcol.
    destruct (Hcol a0 Hin) as (feed & n & k & Hf & He & Hn & Hk & Hc0).
    exists feed, n, k. repeat split; try assumption;
      try (eapply collected_same_fields; [..|exact Hc0]; congruence).
  - apply Forall_forall. intros a Ha.
    apply list_elem_of_In, in_map_iff in Ha as (l & <- & Hl).
    apply list_elem_of_In in Hl.
    destruct (Href l Hl) as (a0 & _ & _ & _ & _ & _ & _ & _ & Hr).
    rewrite Hr. apply (Hmem l Hl).
  - eapply StronglySorted_map_in; [|exact Hsorted].
    intros x y Hx Hy Hxy. unfold ranked_before. unfold not_below in Hxy.
    destruct (Href x Hx) as (_ & _ & _ & _ & _ & _ & _ & _ & ->).
    destruct (Href y Hy) as (_ & _ & _ & _ & _ & _ & _ & _ & ->).
    exact Hxy.
  - intros Hmax. rewrite length_map. apply Hlen. exact Hmax.
  - intros Hen. destruct (Hdistinct Hen) as (Hnd & Hcache). split.
    + rewrite map_map.
      apply (NoDup_map_lookup_hash unique out (λ l, heap' !!! l)).
      * exact Hnd.
      * apply Hnodup, NoDup_seq.
      * intros l Hl. destruct (Href l Hl) as (a0 & Ha0 & _ & _ & _ & _ & _ & Hh & _).
        exists a0. auto.
    + apply Forall_forall. intros a Ha.
      apply list_elem_of_In, in_map_iff in Ha as (l & <- & Hl).
      apply list_elem_of_In in Hl.
      destruct (Href l Hl) as (a0 & Ha0 & _ & _ & _ & _ & _ & Hh & _).
      rewrite Hh. cbn [fst]. apply Hcache.
      eapply list_elem_of_lookup_2. exact Ha0.
Qed.

End Pipeline.

Lemma pipeline_digest_witness :
  ∃ digest w',
    run_pipeline Sample.cfg sample_feeds SampleFeed.collector
      (AISummarizer.__init__ false "openai" "gpt-4o-mini" None)
      sample_session Sample.fresh_world = (Composed digest, w')
    ∧ digest ≠ []
    ∧ NoDup (map hash digest).
Proof.
  destruct (run_pipeline Sample.cfg sample_feeds SampleFeed.collector
              (AISummarizer.__init__ false "openai" "gpt-4o-mini" None)
              sample_session Sample.fresh_world) as [[|e|digest] w'] eqn:E;
    try (vm_compute in E; discriminate).
  exists digest, w'. split; [reflexivity|].
  destruct (pipeline_digest Sample.cfg sample_feeds SampleFeed.collector
              (AISummarizer.__init__ false "openai" "gpt-4o-mini" None)
              sample_session Sample.fresh_world w' digest E)
    as (Hne & _ & _ & _ & _ & Hdistinct).
  split; [exact Hne|]. apply Hdistinct. reflexivity.
Defined.
